(** * Backtest engine of the stock strategy analyzer

    A shallow embedding of [src/backtest/engine.py] and
    [src/backtest/metrics.py], and the properties of the trade simulator,
    the trade classifier, the equity curves and the Sharpe ratio.  It is
    followed by the code around them: the other performance measures, the
    signal generator of the strategies
    ([generate_position_signals_vectorized] of [src/strategies/utils.py])
    and the compatibility score ([_calculate_score] of
    [src/analysis/compatibility.py]).

    Conventions of the embedding.
    - A Python or NumPy float is an exact rational ([Q]); equality of
      computed amounts is therefore [Qeq] ([==]), and rounding is not
      modelled.
    - A timestamp is its int64 nanosecond count ([Z]);
      [(b - a).days] is the floor of the difference over one day.
    - [int(x)] truncates towards zero.
    - A function that can raise (an index out of range, a division by
      zero) returns an [option]; [None] is the exception. *)

From Stdlib Require Import ZArith QArith Qround Qminmax Qabs List Sorted Permutation Bool Lia Lqa.
From Stdlib Require Import Reals Lra.
Import ListNotations.

Local Open Scope Z_scope.

(** ** Numbers *)

(** [int(q)]: truncation towards zero. *)
Definition py_int (q : Q) : Z := Z.quot (Qnum q) (Zpos (Qden q)).

Definition Qltb (x y : Q) : bool := negb (Qle_bool y x).
Definition Qgtb (x y : Q) : bool := Qltb y x.

(** Nanoseconds in a day, as in [ns_per_day = 86400 * 1_000_000_000]. *)
Definition ns_per_day : Z := 86400 * 1000000000.

(** [(later - earlier).days] of two timestamps. *)
Definition days_between (later earlier : Z) : Z := (later - earlier) / ns_per_day.

(** ** A small error monad for the indexing exceptions *)

Definition bind {A B : Type} (x : option A) (f : A -> option B) : option B :=
  match x with
  | Some a => f a
  | None => None
  end.

Notation "'do' x <- e ; k" := (bind e (fun x => k))
  (at level 10, x pattern, e at level 100, k at level 200).

(** ** Arrays *)

(** [a[lo:hi]] *)
Definition slice {A : Type} (a : list A) (lo hi : nat) : list A :=
  firstn (hi - lo) (skipn lo a).

(** [np.where(a == v)[0]]: the positions holding [v], in increasing order. *)
Fixpoint where_from (v : Z) (a : list Z) (k : nat) : list nat :=
  match a with
  | [] => []
  | x :: a' => if x =? v then k :: where_from v a' (S k) else where_from v a' (S k)
  end.

Definition np_where_eq (a : list Z) (v : Z) : list nat := where_from v a 0.

(** [mask.any()] *)
Definition any (mask : list bool) : bool := existsb (fun b => b) mask.

(** [np.argmax(mask)] of a boolean array: the first [True] position
    (0 when there is none). *)
Fixpoint argmax (mask : list bool) : nat :=
  match mask with
  | [] => 0
  | true :: _ => 0
  | false :: m => S (argmax m)
  end.

(** [np.maximum.accumulate] and [np.minimum.accumulate] *)
Fixpoint accumulate_from (op : Q -> Q -> Q) (run : Q) (a : list Q) : list Q :=
  match a with
  | [] => []
  | x :: a' => let run' := op run x in run' :: accumulate_from op run' a'
  end.

Definition accumulate (op : Q -> Q -> Q) (a : list Q) : list Q :=
  match a with
  | [] => []
  | x :: a' => x :: accumulate_from op x a'
  end.

(** Element-wise comparison of two arrays. *)
Fixpoint zip_with {A B C : Type} (f : A -> B -> C) (a : list A) (b : list B) : list C :=
  match a, b with
  | x :: a', y :: b' => f x y :: zip_with f a' b'
  | _, _ => []
  end.

(** The binary search of [np.searchsorted] over the index range
    [lo, hi): [go_right x] tells whether the key lies to the right of an
    element [x] ([x < key] for [side='left'], [x <= key] for
    [side='right']). *)
Fixpoint bisect {A : Type} (go_right : A -> bool) (d : A) (a : list A)
    (fuel lo hi : nat) : nat :=
  match fuel with
  | O => lo
  | S fuel' =>
      if (lo <? hi)%nat then
        let mid := (lo + (hi - lo) / 2)%nat in
        if go_right (nth mid a d)
        then bisect go_right d a fuel' (S mid) hi
        else bisect go_right d a fuel' lo mid
      else lo
  end.

Definition searchsorted_left (a : list Z) (key : Z) : nat :=
  bisect (fun x => x <? key) 0 a (S (length a)) 0 (length a).

Definition searchsorted_right (a : list nat) (key : nat) : nat :=
  bisect (fun x => (x <=? key)%nat) 0%nat a (S (length a)) 0%nat (length a).

(** [a[lo:hi] = f(position, old value)], in place. *)
Fixpoint assign_from {A : Type} (f : nat -> A -> A) (lo hi : nat) (a : list A)
    (k : nat) : list A :=
  match a with
  | [] => []
  | x :: a' =>
      (if (lo <=? k)%nat && (k <? hi)%nat then f k x else x)
        :: assign_from f lo hi a' (S k)
  end.

Definition assign_slice {A : Type} (a : list A) (lo hi : nat) (f : nat -> A -> A) : list A :=
  assign_from f lo hi a 0.

(** ** Data model *)

Inductive StrategyType := long | short.

Inductive ExitReason := signal | trailing_stop | forced_max | end_of_data.

Definition ExitReason_eqb (a b : ExitReason) : bool :=
  match a, b with
  | signal, signal | trailing_stop, trailing_stop
  | forced_max, forced_max | end_of_data, end_of_data => true
  | _, _ => false
  end.

(** One row of the OHLCV frame: the index entry and the columns read by
    the engine. *)
Record Bar := mkBar {
  Date : Z;
  High : Q;
  Low : Q;
  Close : Q
}.

(** The frame: its rows, and whether it carries the optional [High] and
    [Low] columns. *)
Record DataFrame := mkDataFrame {
  rows : list Bar;
  has_High : bool;
  has_Low : bool
}.

(** A trade record, the dict appended to [trades]. *)
Record Trade := mkTrade {
  entry_date : Z;
  exit_date : Z;
  entry_price : Q;
  exit_price : Q;
  shares : Z;
  profit : Q;
  profit_pct : Q;
  holding_days : Z;
  forced_exit : bool;
  within_target_period : bool;
  exit_reason : ExitReason
}.

(** The fields of [BacktestEngine] read by the simulation. *)
Record BacktestEngine := mkEngine {
  initial_capital : Q;
  target_holding_days : Z;
  max_holding_days : Z;
  trailing_stop_enabled : bool;
  trailing_stop_long : Q;
  trailing_stop_short : Q
}.

(** ** [_classify_trades] *)

Definition valid_mask (self : BacktestEngine) (t : Trade) : bool :=
  holding_days t <=? target_holding_days self.

Definition forced_mask (self : BacktestEngine) (t : Trade) : bool :=
  negb (valid_mask self t) && forced_exit t.

Definition excluded_mask (self : BacktestEngine) (t : Trade) : bool :=
  negb (valid_mask self t) && negb (forced_exit t).

Definition classify_trades (self : BacktestEngine) (trades : list Trade)
    : list Trade * list Trade * list Trade :=
  match trades with
  | [] => ([], [], [])
  | _ =>
      (filter (valid_mask self) trades,
       filter (forced_mask self) trades,
       filter (excluded_mask self) trades)
  end.

(** ** [_execute_trades_vectorized] *)

(** The loop state: [trades], [cash] and [current_pos]. *)
Record VecState := mkVecState {
  v_trades : list Trade;
  v_cash : Q;
  v_current_pos : nat
}.

(** Lines 548-566: the first bar after the entry whose close crosses the
    trailing stop, [None] when there is none or the stop is disabled. *)
Definition trailing_stop_index (self : BacktestEngine) (strategy_type : StrategyType)
    (highs lows prices : list Q) (n entry_idx : nat) (entry_price : Q) : option nat :=
  if trailing_stop_enabled self && (entry_idx + 1 <? n)%nat then
    match strategy_type with
    | long =>
        let cummax :=
          accumulate Qmax (map (fun h => Qmax h entry_price) (skipn (entry_idx + 1) highs)) in
        let trailing_stop_prices :=
          map (fun c => c * (1 - trailing_stop_long self))%Q cummax in
        let hit_mask := zip_with Qltb (skipn (entry_idx + 1) prices) trailing_stop_prices in
        if any hit_mask then Some (entry_idx + 1 + argmax hit_mask)%nat else None
    | short =>
        let cummin :=
          accumulate Qmin (map (fun l => Qmin l entry_price) (skipn (entry_idx + 1) lows)) in
        let trailing_stop_prices :=
          map (fun c => c * (1 + trailing_stop_short self))%Q cummin in
        let hit_mask := zip_with Qgtb (skipn (entry_idx + 1) prices) trailing_stop_prices in
        if any hit_mask then Some (entry_idx + 1 + argmax hit_mask)%nat else None
    end
  else None.

(** Lines 569-575: the first bar of the search window held for at least
    [max_holding_days]. *)
Definition forced_exit_index (self : BacktestEngine) (dates_ns : list Z)
    (n entry_idx : nat) (entry_ns : Z) : option nat :=
  let search_end := Z.min (Z.of_nat entry_idx + max_holding_days self + 2) (Z.of_nat n) in
  if Z.of_nat entry_idx + 1 <? search_end then
    let days_held_arr :=
      map (fun d => (d - entry_ns) / ns_per_day)
          (slice dates_ns (entry_idx + 1) (Z.to_nat search_end)) in
    let forced_mask := map (fun d => d >=? max_holding_days self) days_held_arr in
    if any forced_mask then Some (entry_idx + 1 + argmax forced_mask)%nat else None
  else None.

(** Lines 580-605: the exit bar, the forced flag and the exit reason. *)
Definition resolve_exit (n : nat) (valid_exits : list nat)
    (trailing_stop_idx forced_exit_idx : option nat) : nat * bool * ExitReason :=
  let signal_exit_idx :=
    match valid_exits with
    | x :: _ => x
    | [] => (n - 1)%nat
    end in
  let '(exit_idx, forced_exit, exit_reason) := (signal_exit_idx, false, signal) in
  let '(exit_idx, forced_exit, exit_reason) :=
    match trailing_stop_idx with
    | Some t =>
        if (t <? exit_idx)%nat then (t, false, trailing_stop)
        else (exit_idx, forced_exit, exit_reason)
    | None => (exit_idx, forced_exit, exit_reason)
    end in
  let '(exit_idx, forced_exit, exit_reason) :=
    match forced_exit_idx with
    | Some f =>
        if (f <? exit_idx)%nat then (f, true, forced_max)
        else (exit_idx, forced_exit, exit_reason)
    | None => (exit_idx, forced_exit, exit_reason)
    end in
  if (exit_idx =? n - 1)%nat && ExitReason_eqb exit_reason signal
     && match valid_exits with
        | [] => true
        | x :: _ => (x =? n - 1)%nat
        end
  then (exit_idx, true, end_of_data)
  else (exit_idx, forced_exit, exit_reason).

(** Lines 537-605: the exit chosen for an entry at [entry_idx]. *)
Definition vec_exit (self : BacktestEngine) (df : DataFrame)
    (exit_candidates : list nat) (strategy_type : StrategyType)
    (entry_idx : nat) (entry_date : Z) (entry_price : Q) : nat * bool * ExitReason :=
  let n := length (rows df) in
  let dates := map Date (rows df) in
  let prices := map Close (rows df) in
  let highs := if has_High df then map High (rows df) else prices in
  let lows := if has_Low df then map Low (rows df) else prices in
  let exit_search_idx := searchsorted_right exit_candidates entry_idx in
  let valid_exits := skipn exit_search_idx exit_candidates in
  let trailing_stop_idx :=
    trailing_stop_index self strategy_type highs lows prices n entry_idx entry_price in
  let forced_exit_idx := forced_exit_index self dates n entry_idx entry_date in
  resolve_exit n valid_exits trailing_stop_idx forced_exit_idx.

(** Line 617: the share count. *)
Definition vec_position (cash entry_price : Q) : Z :=
  if Qltb 0 entry_price then py_int (cash / entry_price) else 0.

(** Lines 629-632: the lending cost, charged to short trades only. *)
Definition vec_lending_cost (strategy_type : StrategyType) (position : Z)
    (entry_price lending_rate : Q) (holding_days : Z) : Q :=
  match strategy_type with
  | short =>
      (inject_Z position * entry_price * lending_rate * (inject_Z holding_days / 365))%Q
  | long => 0%Q
  end.

(** Lines 622-656: the trade record. *)
Definition vec_trade (self : BacktestEngine) (commission lending_rate : Q)
    (strategy_type : StrategyType) (entry_date exit_date : Z)
    (entry_price exit_price : Q) (position : Z) (forced_exit : bool)
    (exit_reason : ExitReason) : Trade :=
  let holding_days := days_between exit_date entry_date in
  let cost := (inject_Z position * entry_price)%Q in
  let entry_commission := (cost * commission)%Q in
  let proceeds := (inject_Z position * exit_price)%Q in
  let exit_commission := (proceeds * commission)%Q in
  let lending_cost :=
    vec_lending_cost strategy_type position entry_price lending_rate holding_days in
  let profit :=
    match strategy_type with
    | long =>
        ((exit_price - entry_price) * inject_Z position
         - (entry_commission + exit_commission))%Q
    | short =>
        ((entry_price - exit_price) * inject_Z position
         - (entry_commission + exit_commission) - lending_cost)%Q
    end in
  let profit_pct := if Qltb 0 cost then ((profit / cost) * 100)%Q else 0%Q in
  let within_target := holding_days <=? target_holding_days self in
  mkTrade entry_date exit_date entry_price exit_price position profit profit_pct
          holding_days forced_exit within_target exit_reason.

(** Line 659: the cash after the trade. *)
Definition vec_cash_after (commission lending_rate : Q) (strategy_type : StrategyType)
    (cash : Q) (entry_date exit_date : Z) (entry_price exit_price : Q)
    (position : Z) : Q :=
  let holding_days := days_between exit_date entry_date in
  let cost := (inject_Z position * entry_price)%Q in
  let entry_commission := (cost * commission)%Q in
  let proceeds := (inject_Z position * exit_price)%Q in
  let exit_commission := (proceeds * commission)%Q in
  let lending_cost :=
    vec_lending_cost strategy_type position entry_price lending_rate holding_days in
  (cash - cost - entry_commission + proceeds - exit_commission - lending_cost)%Q.

(** The body of the loop over [entry_candidates] (lines 530-660). *)
Definition vec_body (self : BacktestEngine) (df : DataFrame)
    (exit_candidates : list nat) (commission slippage lending_rate : Q)
    (strategy_type : StrategyType) (s : VecState) (entry_idx : nat) : option VecState :=
  let dates := map Date (rows df) in
  let prices := map Close (rows df) in
  if (entry_idx <? v_current_pos s)%nat then Some s
  else
    do entry_date <- nth_error dates entry_idx;
    do entry_close <- nth_error prices entry_idx;
    let entry_price := (entry_close * (1 + slippage))%Q in
    let '(exit_idx, forced_exit, exit_reason) :=
      vec_exit self df exit_candidates strategy_type entry_idx entry_date entry_price in
    do exit_date <- nth_error dates exit_idx;
    do exit_close <- nth_error prices exit_idx;
    let exit_price := (exit_close * (1 - slippage))%Q in
    let position := vec_position (v_cash s) entry_price in
    if position =? 0 then
      Some (mkVecState (v_trades s) (v_cash s) (exit_idx + 1))
    else
      Some (mkVecState
              (v_trades s
               ++ [vec_trade self commission lending_rate strategy_type entry_date
                             exit_date entry_price exit_price position forced_exit
                             exit_reason])
              (vec_cash_after commission lending_rate strategy_type (v_cash s)
                              entry_date exit_date entry_price exit_price position)
              (exit_idx + 1)).

(** [for entry_idx in entry_candidates: ...] *)
Fixpoint vec_loop (body : VecState -> nat -> option VecState)
    (entry_candidates : list nat) (s : VecState) : option VecState :=
  match entry_candidates with
  | [] => Some s
  | entry_idx :: rest =>
      do s' <- body s entry_idx;
      vec_loop body rest s'
  end.

(** [_calculate_equity_from_trades_vectorized] *)
Definition equity_body (n : nat) (dates : list Z) (prices : list Q)
    (strategy_type : StrategyType) (acc : list Q * Q) (trade : Trade) : list Q * Q :=
  let '(equity, cash) := acc in
  let entry_idx := searchsorted_left dates (entry_date trade) in
  let exit_idx := searchsorted_left dates (exit_date trade) in
  let position := inject_Z (shares trade) in
  let equity :=
    if (0 <? entry_idx)%nat then assign_slice equity 0 entry_idx (fun _ _ => cash)
    else equity in
  let trade_end := Nat.min (exit_idx + 1) n in
  let equity :=
    if (entry_idx <? trade_end)%nat then
      assign_slice equity entry_idx trade_end
        (fun k _ =>
           let p := nth k prices 0%Q in
           match strategy_type with
           | long => cash - position * entry_price trade + position * p
           | short => cash + position * (entry_price trade - p)
           end)%Q
    else equity in
  let cash := (cash + profit trade)%Q in
  let equity :=
    if (Z.of_nat exit_idx <? Z.of_nat n - 1)
    then assign_slice equity (exit_idx + 1) n (fun _ _ => cash)
    else equity in
  (equity, cash).

Definition calculate_equity_from_trades_vectorized (self : BacktestEngine)
    (df : DataFrame) (trades : list Trade) (strategy_type : StrategyType) : list Q :=
  let n := length (rows df) in
  let equity := repeat (initial_capital self) n in
  match trades with
  | [] => equity
  | _ =>
      fst (fold_left
             (equity_body n (map Date (rows df)) (map Close (rows df)) strategy_type)
             trades (equity, initial_capital self))
  end.

Definition execute_trades_vectorized (self : BacktestEngine) (df : DataFrame)
    (signals : list Z) (commission slippage lending_rate : Q)
    (strategy_type : StrategyType) : option (list Trade * list Q) :=
  let n := length (rows df) in
  if (n =? 0)%nat then Some ([], [])
  else
    let entry_candidates := np_where_eq signals 1 in
    let exit_candidates := np_where_eq signals (-1) in
    do s <- vec_loop
              (vec_body self df exit_candidates commission slippage lending_rate
                        strategy_type)
              entry_candidates (mkVecState [] (initial_capital self) 0);
    Some (v_trades s,
          calculate_equity_from_trades_vectorized self df (v_trades s) strategy_type).

(** ** [_execute_trades] (the per-bar scan) *)

(** The local variables carried around the loop. *)
Record SimState := mkSimState {
  s_cash : Q;
  s_position : Z;
  s_entry_price : Q;
  s_entry_date : option Z;
  s_trades : list Trade;
  s_equity : list Q
}.

(** Lines 351-355: the position has been held for the maximum period. *)
Definition force_exit_now (self : BacktestEngine) (s : SimState) (bar : Bar) : bool :=
  match s_entry_date s with
  | Some entry_date =>
      (s_position s >? 0)
      && (days_between (Date bar) entry_date >=? max_holding_days self)
  | None => false
  end.

(** The holding days and the lending cost of the position closed at the
    timestamp [date] (lines 379-384 and 432-437). *)
Definition per_bar_holding_days (s : SimState) (date : Z) : Z :=
  match s_entry_date s with
  | Some entry_date => days_between date entry_date
  | None => 0
  end.

Definition per_bar_lending_cost (strategy_type : StrategyType) (s : SimState)
    (lending_rate : Q) (date : Z) : Q :=
  match strategy_type, s_entry_date s with
  | short, Some _ =>
      (inject_Z (s_position s) * s_entry_price s * lending_rate
       * (inject_Z (per_bar_holding_days s date) / 365))%Q
  | _, _ => 0%Q
  end.

(** The trade recorded when the position is closed at the price
    [exit_price] of the timestamp [date] (lines 388-418 and 441-462). *)
Definition per_bar_trade (self : BacktestEngine) (commission lending_rate : Q)
    (strategy_type : StrategyType) (s : SimState) (date : Z) (exit_price : Q)
    (forced_exit_flag : bool) (exit_reason : ExitReason) : Trade :=
  let position := s_position s in
  let entry_price := s_entry_price s in
  let proceeds := (inject_Z position * exit_price)%Q in
  let commission_cost := (proceeds * commission)%Q in
  let holding_days := per_bar_holding_days s date in
  let lending_cost := per_bar_lending_cost strategy_type s lending_rate date in
  let profit :=
    match strategy_type with
    | long => ((exit_price - entry_price) * inject_Z position - commission_cost * 2)%Q
    | short =>
        ((entry_price - exit_price) * inject_Z position - commission_cost * 2
         - lending_cost)%Q
    end in
  let profit_pct := (profit / (inject_Z position * entry_price) * 100)%Q in
  let within_target := holding_days <=? target_holding_days self in
  mkTrade (match s_entry_date s with Some d => d | None => 0 end) date
          entry_price exit_price position profit profit_pct holding_days
          forced_exit_flag within_target exit_reason.

(** Line 386: the cash after the exit at [bar]. *)
Definition per_bar_exit_cash (commission slippage lending_rate : Q)
    (strategy_type : StrategyType) (s : SimState) (bar : Bar) : Q :=
  let exit_price := (Close bar * (1 - slippage))%Q in
  let proceeds := (inject_Z (s_position s) * exit_price)%Q in
  let commission_cost := (proceeds * commission)%Q in
  let lending_cost := per_bar_lending_cost strategy_type s lending_rate (Date bar) in
  (s_cash s + (proceeds - commission_cost - lending_cost))%Q.

(** One iteration of [for i in range(len(df))] at the row [bar] with the
    signal [sig].  A position greater than 0 always comes with its entry
    date; the trade record takes 0 for a missing one. *)
Definition step (self : BacktestEngine) (commission slippage lending_rate : Q)
    (strategy_type : StrategyType) (s : SimState) (bar : Bar) (sig : Z)
    : option SimState :=
  let date := Date bar in
  let price := Close bar in
  let cash := s_cash s in
  let position := s_position s in
  let current_equity :=
    if position =? 0 then cash
    else
      match strategy_type with
      | long => (cash + inject_Z position * price)%Q
      | short => (cash + inject_Z position * (s_entry_price s - price))%Q
      end in
  let equity := s_equity s ++ [current_equity] in
  let force_exit := force_exit_now self s bar in
  if (sig =? 1) && (position =? 0) then
    let entry_price := (price * (1 + slippage))%Q in
    if Qeq_bool entry_price 0 then None
    else
      let position := py_int (cash / entry_price) in
      if position >? 0 then
        let cost := (inject_Z position * entry_price)%Q in
        let commission_cost := (cost * commission)%Q in
        Some (mkSimState (cash - (cost + commission_cost))%Q position entry_price
                         (Some date) (s_trades s) equity)
      else
        Some (mkSimState cash position entry_price (s_entry_date s) (s_trades s) equity)
  else if ((sig =? -1) || force_exit) && (position >? 0) then
    let exit_price := (price * (1 - slippage))%Q in
    let '(exit_reason, forced_exit_flag) :=
      if force_exit then (forced_max, true) else (signal, false) in
    Some (mkSimState
            (per_bar_exit_cash commission slippage lending_rate strategy_type s bar)
            0 (s_entry_price s) None
            (s_trades s
             ++ [per_bar_trade self commission lending_rate strategy_type s date
                               exit_price forced_exit_flag exit_reason])
            equity)
  else
    Some (mkSimState cash position (s_entry_price s) (s_entry_date s) (s_trades s) equity).

(** The loop over the rows; [signals.iloc[i]] raises once the signals
    run out before the rows do. *)
Fixpoint run_steps (f : SimState -> Bar -> Z -> option SimState)
    (bars : list Bar) (signals : list Z) (s : SimState) : option SimState :=
  match bars with
  | [] => Some s
  | bar :: bars' =>
      match signals with
      | [] => None
      | sig :: signals' =>
          do s' <- f s bar sig;
          run_steps f bars' signals' s'
      end
  end.

(** Lines 427-462: the position left open after the last row is closed at
    the last close, without slippage. *)
Definition close_at_end (self : BacktestEngine) (commission lending_rate : Q)
    (strategy_type : StrategyType) (df : DataFrame) (s : SimState) : list Trade :=
  if s_position s >? 0 then
    let last_bar := last (rows df) (mkBar 0 0 0 0) in
    s_trades s
      ++ [per_bar_trade self commission lending_rate strategy_type s (Date last_bar)
                        (Close last_bar) true end_of_data]
  else s_trades s.

Definition execute_trades (self : BacktestEngine) (df : DataFrame)
    (signals : list Z) (commission slippage lending_rate : Q)
    (strategy_type : StrategyType) : option (list Trade * list Q) :=
  do s <- run_steps (step self commission slippage lending_rate strategy_type)
            (rows df) signals (mkSimState (initial_capital self) 0 0 None [] []);
  Some (close_at_end self commission lending_rate strategy_type df s, s_equity s).

(** ** [_calculate_valid_equity_curve] (the reconstructor) *)

(** [sorted(valid_trades, key=lambda x: x['entry_date'])]: a stable sort. *)
Fixpoint insert_by_entry_date (t : Trade) (l : list Trade) : list Trade :=
  match l with
  | [] => [t]
  | u :: l' =>
      if entry_date u <=? entry_date t then u :: insert_by_entry_date t l'
      else t :: l
  end.

Definition sorted_by_entry_date (l : list Trade) : list Trade :=
  fold_left (fun acc t => insert_by_entry_date t acc) l [].

Definition valid_equity_body (self : BacktestEngine) (n : nat) (dates : list Z)
    (prices : list Q) (commission lending_rate : Q) (strategy_type : StrategyType)
    (acc : list Q * Q) (trade : Trade) : list Q * Q :=
  let '(equity, cash) := acc in
  let position := inject_Z (shares trade) in
  let entry_idx := searchsorted_left dates (entry_date trade) in
  let exit_idx := searchsorted_left dates (exit_date trade) in
  let equity :=
    if (0 <? entry_idx)%nat then
      assign_slice equity 0 entry_idx
        (fun _ old => if Qeq_bool old (initial_capital self) then cash else old)
    else equity in
  let cost := (position * entry_price trade)%Q in
  let entry_commission := (cost * commission)%Q in
  let cash_after_entry := (cash - cost - entry_commission)%Q in
  let trade_end := Nat.min (exit_idx + 1) n in
  let equity :=
    if (entry_idx <? trade_end)%nat then
      assign_slice equity entry_idx trade_end
        (fun k _ =>
           let p := nth k prices 0%Q in
           match strategy_type with
           | long => cash_after_entry + position * p
           | short => cash_after_entry + position * (entry_price trade - p)
           end)%Q
    else equity in
  let proceeds := (position * exit_price trade)%Q in
  let exit_commission := (proceeds * commission)%Q in
  let lending_cost :=
    match strategy_type with
    | short =>
        (position * entry_price trade * lending_rate
         * (inject_Z (holding_days trade) / 365))%Q
    | long => 0%Q
    end in
  let cash := (cash_after_entry + proceeds - exit_commission - lending_cost)%Q in
  let equity :=
    if (exit_idx + 1 <? n)%nat
    then assign_slice equity (exit_idx + 1) n (fun _ _ => cash)
    else equity in
  (equity, cash).

Definition calculate_valid_equity_curve (self : BacktestEngine) (df : DataFrame)
    (valid_trades : list Trade) (commission slippage lending_rate : Q)
    (strategy_type : StrategyType) : list Q :=
  let n := length (rows df) in
  match valid_trades with
  | [] => repeat (initial_capital self) n
  | _ =>
      fst (fold_left
             (valid_equity_body self n (map Date (rows df)) (map Close (rows df))
                                commission lending_rate strategy_type)
             (sorted_by_entry_date valid_trades)
             (repeat (initial_capital self) n, initial_capital self))
  end.

(** ** [PerformanceMetrics.calculate_sharpe_ratio]

    The formula takes a square root, so this part of the embedding is
    over the real numbers; a float is [Some r], or [None] for NaN, which
    every operation propagates and which compares unequal to everything. *)
Module Metrics.

Local Open Scope R_scope.

Definition float := option R.

Definition fmul (x y : float) : float :=
  match x, y with
  | Some a, Some b => Some (a * b)
  | _, _ => None
  end.

Definition fsub (x y : float) : float :=
  match x, y with
  | Some a, Some b => Some (a - b)
  | _, _ => None
  end.

Definition fdiv (x y : float) : float :=
  match x, y with
  | Some a, Some b => Some (a / b)
  | _, _ => None
  end.

(** [x == 0] *)
Definition is_zero (x : float) : bool :=
  match x with
  | Some r => if Req_dec_T r 0 then true else false
  | None => false
  end.

Definition total (l : list R) : R := fold_right Rplus 0 l.

(** [Series.mean()]: NaN on an empty series. *)
Definition mean (returns : list R) : float :=
  match returns with
  | [] => None
  | _ => Some (total returns / INR (length returns))
  end.

(** [Series.std()]: the sample standard deviation (one degree of freedom
    removed), NaN on fewer than two points. *)
Definition std (returns : list R) : float :=
  match mean returns with
  | None => None
  | Some m =>
      if (length returns <=? 1)%nat then None
      else
        Some (sqrt (total (map (fun x => (x - m) * (x - m)) returns)
                    / (INR (length returns) - 1)))
  end.

Definition calculate_sharpe_ratio (returns : list R) (risk_free_rate : R) : float :=
  if (length returns =? 0)%nat || is_zero (std returns) then Some 0
  else
    let mean_return := mean returns in
    let std_return := std returns in
    let annual_return := fmul mean_return (Some 252) in
    let annual_std := fmul std_return (Some (sqrt 252)) in
    if is_zero annual_std then Some 0
    else fdiv (fsub annual_return (Some risk_free_rate)) annual_std.

End Metrics.

(** ** Vocabulary of the statements *)

(** The frame's index is strictly increasing. *)
Definition increasing_dates (df : DataFrame) : Prop :=
  StronglySorted Z.lt (map Date (rows df)).

(** Some close is zero or negative. *)
Definition has_non_positive_price (df : DataFrame) : Prop :=
  exists bar, In bar (rows df) /\ (Close bar <= 0)%Q.

(** The three input shape errors of the error taxonomy. *)
Definition malformed (df : DataFrame) (signals : list Z) : Prop :=
  has_non_positive_price df \/ ~ increasing_dates df
  \/ length signals <> length (rows df).

(** Frames used as concrete inputs: one bar per day from day 0, with the
    given closes; high and low equal the close. *)
Definition daily_bars_from (k : nat) (closes : list Q) : list Bar :=
  map (fun kc => mkBar (Z.of_nat (fst kc) * ns_per_day) (snd kc) (snd kc) (snd kc))
      (combine (seq k (length closes)) closes).

Definition daily_frame (closes : list Q) : DataFrame :=
  mkDataFrame (daily_bars_from 0 closes) true true.

(** An engine with the default holding-period limits (14 and 30 days) and
    the 10% trailing stops, enabled or not. *)
Definition engine_with (capital : Q) (trailing : bool) : BacktestEngine :=
  mkEngine capital 14 30 trailing (1 # 10) (1 # 10).

(** The slippage rule stated per direction: a long trade pays more than
    the close on entry and receives less on exit, a short trade the
    reverse. *)
Definition slippage_per_direction (strategy_type : StrategyType) (slippage : Q)
    (entry_close exit_close : Q) (t : Trade) : Prop :=
  match strategy_type with
  | long =>
      (entry_price t == entry_close * (1 + slippage)
       /\ exit_price t == exit_close * (1 - slippage))%Q
  | short =>
      (entry_price t == entry_close * (1 - slippage)
       /\ exit_price t == exit_close * (1 + slippage))%Q
  end.

(** The slippage rule of the code: the same adjustment in both
    directions, on the closes of the entry bar and of the exit bar. *)
Definition slippage_as_coded (df : DataFrame) (slippage : Q) (t : Trade) : Prop :=
  exists entry_bar exit_bar,
    In entry_bar (rows df) /\ In exit_bar (rows df)
    /\ entry_date t = Date entry_bar /\ exit_date t = Date exit_bar
    /\ entry_price t = (Close entry_bar * (1 + slippage))%Q
    /\ exit_price t = (Close exit_bar * (1 - slippage))%Q.

(** A trade list in entry-time order whose trades do not overlap: each
    trade ends no earlier than it starts, and every trade ends before any
    later trade of the list starts. *)
Definition non_overlapping (trades : list Trade) : Prop :=
  Forall (fun t => entry_date t <= exit_date t) trades
  /\ StronglySorted (fun t1 t2 => exit_date t1 < entry_date t2) trades.

(** The trade [t] holds a position at the time [d]. *)
Definition open_at (t : Trade) (d : Z) : Prop :=
  entry_date t <= d <= exit_date t.

(** Every close of the frame is zero or more. *)
Definition non_negative_closes (df : DataFrame) : Prop :=
  Forall (fun bar => 0 <= Close bar)%Q (rows df).

(** The cash after a list of trades, realised profit by realised profit. *)
Definition cash_after_trades (cash : Q) (trades : list Trade) : Q :=
  fold_left (fun c t => (c + profit t)%Q) trades cash.

(** Each trade of the list is bought out of the cash left by the trades
    before it, and leaves a cash of zero or more. *)
Fixpoint funded (cash : Q) (trades : list Trade) : Prop :=
  match trades with
  | [] => True
  | t :: rest =>
      (0 <= inject_Z (shares t))%Q
      /\ (inject_Z (shares t) * entry_price t <= cash)%Q
      /\ (0 <= cash + profit t)%Q
      /\ funded (cash + profit t)%Q rest
  end.

(** Two trade records are the same trade: equal dates, share counts,
    holding days, flags and reasons, and equal amounts. *)
Definition trade_equiv (a b : Trade) : Prop :=
  entry_date a = entry_date b /\ exit_date a = exit_date b
  /\ (entry_price a == entry_price b)%Q /\ (exit_price a == exit_price b)%Q
  /\ shares a = shares b
  /\ (profit a == profit b)%Q /\ (profit_pct a == profit_pct b)%Q
  /\ holding_days a = holding_days b
  /\ forced_exit a = forced_exit b
  /\ within_target_period a = within_target_period b
  /\ exit_reason a = exit_reason b.

(** Two runs give the same trade list (or both raise). *)
Definition same_trades (run1 run2 : option (list Trade * list Q)) : Prop :=
  match run1, run2 with
  | Some (trades1, _), Some (trades2, _) => Forall2 trade_equiv trades1 trades2
  | None, None => True
  | _, _ => False
  end.

(** Every close of the frame is positive. *)
Definition positive_closes (df : DataFrame) : Prop :=
  Forall (fun bar => 0 < Close bar)%Q (rows df).

(** Consecutive bars are at least one day apart. *)
Definition daily_spaced (df : DataFrame) : Prop :=
  forall i bar next,
    nth_error (rows df) i = Some bar -> nth_error (rows df) (S i) = Some next ->
    Date bar + ns_per_day <= Date next.

(** [reached ... k s]: the per-bar scan is in the state [s] after the
    first [k] bars. *)
Inductive reached (self : BacktestEngine) (df : DataFrame) (signals : list Z)
    (commission slippage lending_rate : Q) (strategy_type : StrategyType)
    : nat -> SimState -> Prop :=
| reached_start :
    reached self df signals commission slippage lending_rate strategy_type 0
            (mkSimState (initial_capital self) 0 0 None [] [])
| reached_step (k : nat) (s s' : SimState) (bar : Bar) (sig : Z) :
    reached self df signals commission slippage lending_rate strategy_type k s ->
    nth_error (rows df) k = Some bar ->
    nth_error signals k = Some sig ->
    step self commission slippage lending_rate strategy_type s bar sig = Some s' ->
    reached self df signals commission slippage lending_rate strategy_type (S k) s'.

(** Whenever the per-bar scan meets an Enter while it holds no position,
    the cash buys at least one share. *)
Definition every_flat_enter_buys (self : BacktestEngine) (df : DataFrame)
    (signals : list Z) (commission slippage lending_rate : Q)
    (strategy_type : StrategyType) : Prop :=
  forall k s bar,
    reached self df signals commission slippage lending_rate strategy_type k s ->
    s_position s = 0 ->
    nth_error (rows df) k = Some bar -> nth_error signals k = Some 1 ->
    0 < py_int (s_cash s / (Close bar * (1 + slippage))).

(** The final bar carries no Exit signal. *)
Definition no_exit_signal_on_final_bar (signals : list Z) : Prop :=
  nth_error signals (length signals - 1) <> Some (-1).

(** The bar where a position entered at an Enter bar reaches the maximum
    holding period carries no Exit signal and is not the final bar. *)
Definition forced_exit_untied (self : BacktestEngine) (df : DataFrame)
    (signals : list Z) : Prop :=
  forall e f entry_bar forced_bar,
    nth_error signals e = Some 1 ->
    nth_error (rows df) e = Some entry_bar ->
    nth_error (rows df) f = Some forced_bar ->
    (e < f)%nat ->
    max_holding_days self <= days_between (Date forced_bar) (Date entry_bar) ->
    (forall k bar, (e < k < f)%nat -> nth_error (rows df) k = Some bar ->
                   days_between (Date bar) (Date entry_bar) < max_holding_days self) ->
    nth_error signals f <> Some (-1) /\ (S f < length (rows df))%nat.

(** No position is held. *)
Definition flat (s : SimState) : Prop :=
  s_position s = 0 /\ s_entry_date s = None.

(** A position of [position] shares is held, entered at [date] at the
    price [price]. *)
Definition holding (s : SimState) (position : Z) (price : Q) (date : Z) : Prop :=
  s_position s = position /\ 0 < position
  /\ s_entry_price s = price /\ s_entry_date s = Some date.

(** ** [PerformanceMetrics]: the measures that take no square root

    Over the rationals, like the amounts of the engine.  A measure that
    can leave the finite numbers returns a [number]. *)
Module PerformanceMetrics.

Local Open Scope Q_scope.

(** A float that may be infinite or NaN. *)
Inductive number := finite (q : Q) | inf | neg_inf | nan.

(** [calculate_total_return] *)
Definition calculate_total_return (equity_curve : list Q) : Q :=
  match equity_curve with
  | [] => 0
  | initial :: _ =>
      let final := last equity_curve 0 in
      if Qeq_bool initial 0 then 0
      else ((final - initial) / initial) * 100
  end.

(** [x / y] of two finite floats of a series: a division by zero gives
    NaN or an infinity. *)
Definition divide (x y : Q) : number :=
  if Qeq_bool y 0 then
    if Qeq_bool x 0 then nan else if Qltb 0 x then inf else neg_inf
  else finite (x / y).

(** [x * k] for a constant [k] above zero. *)
Definition scale (x : number) (k : Q) : number :=
  match x with
  | finite q => finite (q * k)
  | other => other
  end.

Definition is_nan (x : number) : bool :=
  match x with
  | nan => true
  | _ => false
  end.

(** [x <= y] of two floats that are not NaN. *)
Definition le (x y : number) : bool :=
  match x, y with
  | nan, _ | _, nan => false
  | neg_inf, _ | _, inf => true
  | finite a, finite b => Qle_bool a b
  | _, _ => false
  end.

(** [Series.min()]: NaN is skipped, and is the result when nothing else
    is there. *)
Definition series_min (a : list number) : number :=
  match filter (fun x => negb (is_nan x)) a with
  | [] => nan
  | x :: rest => fold_left (fun m y => if le y m then y else m) rest x
  end.

(** [abs(x)] *)
Definition absolute (x : number) : number :=
  match x with
  | finite q => finite (Qabs q)
  | inf | neg_inf => inf
  | nan => nan
  end.

(** [calculate_max_drawdown] *)
Definition calculate_max_drawdown (equity_curve : list Q) : number :=
  match equity_curve with
  | [] => finite 0
  | _ =>
      let cummax := accumulate Qmax equity_curve in
      let drawdown :=
        zip_with (fun e c => scale (divide (e - c) c) 100) equity_curve cummax in
      absolute (series_min drawdown)
  end.

(** [calculate_win_rate] *)
Definition calculate_win_rate (trades : list Trade) : Q :=
  match trades with
  | [] => 0
  | _ =>
      let winning_trades :=
        length (filter (fun trade => Qltb 0 (profit trade)) trades) in
      (inject_Z (Z.of_nat winning_trades) / inject_Z (Z.of_nat (length trades))) * 100
  end.

(** [sum(...)] *)
Definition total (l : list Q) : Q := fold_left Qplus l 0.

(** [calculate_profit_factor] *)
Definition calculate_profit_factor (trades : list Trade) : number :=
  match trades with
  | [] => finite 0
  | _ =>
      let gross_profit :=
        total (map profit (filter (fun trade => Qltb 0 (profit trade)) trades)) in
      let gross_loss :=
        Qabs (total (map profit (filter (fun trade => Qltb (profit trade) 0) trades))) in
      if Qeq_bool gross_loss 0 then
        if Qltb 0 gross_profit then inf else finite 0
      else finite (gross_profit / gross_loss)
  end.

End PerformanceMetrics.

(** ** [generate_position_signals_vectorized] ([src/strategies/utils.py])

    The function that the strategies call to turn an entry condition and
    an exit condition into the signals of the engine. *)

(** [np.where(mask)[0]]: the positions holding [True], in increasing
    order. *)
Fixpoint nonzero_from (mask : list bool) (k : nat) : list nat :=
  match mask with
  | [] => []
  | b :: mask' =>
      if b then k :: nonzero_from mask' (S k) else nonzero_from mask' (S k)
  end.

Definition np_where (mask : list bool) : list nat := nonzero_from mask 0.

(** The local variables carried around the loop over [entry_indices]. *)
Record SignalState := mkSignalState {
  g_signal_arr : list Z;
  g_current_pos : nat
}.

(** The body of the loop; [exit_arr[exit_idx]] raises out of range. *)
Definition signal_body (n : nat) (exit_arr : list bool) (exit_indices : list nat)
    (s : SignalState) (entry_idx : nat) : option SignalState :=
  if (entry_idx <? g_current_pos s)%nat then Some s
  else
    let valid_exits := filter (fun x => (entry_idx <? x)%nat) exit_indices in
    let exit_idx :=
      match valid_exits with
      | x :: _ => x
      | [] => (n - 1)%nat
      end in
    let signal_arr :=
      assign_slice (g_signal_arr s) entry_idx exit_idx (fun _ _ => 1) in
    do signal_arr <-
      (if (exit_idx <? n)%nat then
         do exit_here <- nth_error exit_arr exit_idx;
         Some (if exit_here : bool
               then assign_slice signal_arr exit_idx (exit_idx + 1) (fun _ _ => -1)
               else signal_arr)
       else Some signal_arr);
    Some (mkSignalState signal_arr (exit_idx + 1)).

Fixpoint signal_loop (body : SignalState -> nat -> option SignalState)
    (entry_indices : list nat) (s : SignalState) : option SignalState :=
  match entry_indices with
  | [] => Some s
  | entry_idx :: rest =>
      do s' <- body s entry_idx;
      signal_loop body rest s'
  end.

Definition generate_position_signals_vectorized
    (entry_condition exit_condition : list bool) : option (list Z) :=
  let n := length entry_condition in
  if (n =? 0)%nat then Some (repeat 0 n)
  else
    let entry_indices := np_where entry_condition in
    match entry_indices with
    | [] => Some (repeat 0 n)
    | _ =>
        let exit_indices := np_where exit_condition in
        do s <- signal_loop (signal_body n exit_condition exit_indices)
                  entry_indices (mkSignalState (repeat 0 n) 0);
        Some (g_signal_arr s)
    end.

(** What the signals written so far say, with the positions from
    [current_pos] on still to be written. *)
Definition signals_written (entry_condition exit_condition : list bool)
    (s : SignalState) : Prop :=
  length (g_signal_arr s) = length entry_condition
  /\ forall k v,
       nth_error (g_signal_arr s) k = Some v ->
       (v = 0 \/ v = 1 \/ v = -1)
       /\ ((g_current_pos s <= k)%nat -> v = 0)
       /\ (v = 1 ->
           (k + 1 < length entry_condition)%nat
           /\ (nth_error entry_condition k = Some true
               \/ (0 < k)%nat
                  /\ nth_error (g_signal_arr s) (k - 1) = Some 1
                  /\ nth_error exit_condition k = Some false))
       /\ (v = -1 -> nth_error exit_condition k = Some true).


(** ** [CompatibilityAnalyzer._calculate_score] ([src/analysis/compatibility.py])

    The score that the analyzer gives to the result of a backtest. *)
Module CompatibilityAnalyzer.

Local Open Scope Q_scope.

(** The fields of [BacktestResult] that the score reads. *)
Record BacktestResult := mkBacktestResult {
  total_return : Q;
  win_rate : Q;
  num_trades : Z
}.

(** [_calculate_base_score] *)
Definition calculate_base_score (result : BacktestResult) : Q :=
  let trade_score := Qmin 30 (inject_Z (num_trades result * 3)) in
  let win_score := Qmin 30 (win_rate result * (3 # 10)) in
  let total_return := total_return result in
  let return_score :=
    if Qle_bool 20 total_return then Qmin 40 (30 + (total_return - 20) * (1 # 2))
    else if Qle_bool 10 total_return then 20 + (total_return - 10) * 1
    else if Qle_bool 0 total_return then 10 + total_return * 1
    else if Qle_bool (-10) total_return then Qmax 0 (10 + total_return * 1)
    else 0 in
  trade_score + win_score + return_score.

(** [_calculate_score] *)
Definition calculate_score (result : BacktestResult) : Q :=
  if (num_trades result =? 0)%Z then 0
  else if Qltb (total_return result) (-10) then
    Qmax 0 (Qmin 20 (20 + total_return result))
  else if Qltb (win_rate result) 40 && Qle_bool (total_return result) 0 then
    let base := 15 + win_rate result * (3 # 8) in
    Qmin 30 (base + total_return result * (1 # 2))
  else if Qltb (win_rate result) 40 then
    let base := 30 + Qmin 20 (total_return result * (1 # 2)) in
    Qmin 50 base
  else if (num_trades result <? 5)%Z then
    let base := calculate_base_score result in
    Qmin 70 base
  else calculate_base_score result.

End CompatibilityAnalyzer.

(** ** Vocabulary of the trailing stop *)

(** The high and the low that the batch simulator reads at a bar: the
    close stands in for a missing column. *)
Definition high_of (df : DataFrame) (bar : Bar) : Q :=
  if has_High df then High bar else Close bar.

Definition low_of (df : DataFrame) (bar : Bar) : Q :=
  if has_Low df then Low bar else Close bar.

(** [extreme] is the entry price, or the high (Long) or the low (Short)
    of a bar after the entry bar [e], up to the bar [x]. *)
Definition extreme_since (df : DataFrame) (strategy_type : StrategyType)
    (e x : nat) (entry_price extreme : Q) : Prop :=
  (extreme == entry_price)%Q
  \/ exists j bar,
       (e < j <= x)%nat /\ nth_error (rows df) j = Some bar
       /\ (extreme == match strategy_type with
                      | long => high_of df bar
                      | short => low_of df bar
                      end)%Q.

(** The close lies beyond the trailing stop drawn from [extreme]. *)
Definition stop_crossed (self : BacktestEngine) (strategy_type : StrategyType)
    (close extreme : Q) : Prop :=
  match strategy_type with
  | long => (close < extreme * (1 - trailing_stop_long self))%Q
  | short => (extreme * (1 + trailing_stop_short self) < close)%Q
  end.


(** ** Vocabulary of the reconstructed curve *)

(** The reconstructor finds the exit of the trade before the last bar. *)
Definition exits_before_final_bar (df : DataFrame) (t : Trade) : Prop :=
  (searchsorted_left (map Date (rows df)) (exit_date t) + 1 < length (rows df))%nat.

(** The profit of a Long trade at the commission rate [commission]. *)
Definition long_profit_at (commission : Q) (t : Trade) : Prop :=
  (profit t
   == (exit_price t - entry_price t) * inject_Z (shares t)
      - (inject_Z (shares t) * entry_price t * commission
         + inject_Z (shares t) * exit_price t * commission))%Q.



(** ** Vocabulary of the further properties *)

(** The derived fields of a trade record agree with one another: some
    shares are held, the holding days are the whole days between the two
    dates, the target flag compares them with the target, and the forced
    flag is set exactly for the forced-max and end-of-data exits. *)
Definition consistent_record (self : BacktestEngine) (t : Trade) : Prop :=
  shares t <> 0
  /\ holding_days t = days_between (exit_date t) (entry_date t)
  /\ within_target_period t = (holding_days t <=? target_holding_days self)
  /\ (forced_exit t = true <->
      exit_reason t = forced_max \/ exit_reason t = end_of_data).

(** The trade was entered on a bar that carries an Enter signal and
    exited on that bar or a later one. *)
Definition entered_on_enter_bar (df : DataFrame) (signals : list Z) (t : Trade) : Prop :=
  exists e x entry_bar exit_bar,
    (e <= x)%nat
    /\ nth_error signals e = Some 1
    /\ nth_error (rows df) e = Some entry_bar
    /\ nth_error (rows df) x = Some exit_bar
    /\ entry_date t = Date entry_bar /\ exit_date t = Date exit_bar.

(** Each trade of the list buys the whole shares that the cash left by
    the trades before it pays for. *)
Fixpoint sized (cash : Q) (trades : list Trade) : Prop :=
  match trades with
  | [] => True
  | t :: rest =>
      shares t = py_int (cash / entry_price t)
      /\ sized (cash + profit t)%Q rest
  end.

(** * Properties *)

(** ** The trade classifier *)

Lemma masks_exclusive (self : BacktestEngine) (t : Trade) :
  (Nat.b2n (valid_mask self t) + Nat.b2n (forced_mask self t)
   + Nat.b2n (excluded_mask self t) = 1)%nat.
Proof.
  unfold forced_mask, excluded_mask.
  destruct (valid_mask self t), (forced_exit t); reflexivity.
Qed.

Lemma filter_three_lengths (self : BacktestEngine) (trades : list Trade) :
  (length (filter (valid_mask self) trades)
   + length (filter (forced_mask self) trades)
   + length (filter (excluded_mask self) trades) = length trades)%nat.
Proof.
  induction trades as [|t trades IH]; simpl; [reflexivity|].
  pose proof (masks_exclusive self t) as E.
  destruct (valid_mask self t), (forced_mask self t), (excluded_mask self t);
    simpl in *; lia.
Qed.

(** C5: [_classify_trades] is a total partition.  A trade goes to the
    valid bucket when its holding days are at most the target, otherwise
    to the forced bucket when it was a forced exit, otherwise to the
    excluded bucket; each trade satisfies exactly one of the three
    conditions, and the sizes of the buckets add up to the number of
    trades. *)
Theorem classify_trades_total_partition (self : BacktestEngine) (trades : list Trade) :
  let '(valid, forced, excluded) := classify_trades self trades in
  (forall t, In t valid <->
             In t trades /\ holding_days t <= target_holding_days self) /\
  (forall t, In t forced <->
             In t trades /\ ~ holding_days t <= target_holding_days self
             /\ forced_exit t = true) /\
  (forall t, In t excluded <->
             In t trades /\ ~ holding_days t <= target_holding_days self
             /\ forced_exit t = false) /\
  (forall t, In t trades ->
             Nat.b2n (valid_mask self t) + Nat.b2n (forced_mask self t)
             + Nat.b2n (excluded_mask self t) = 1)%nat /\
  (length valid + length forced + length excluded = length trades)%nat.
Proof.
  assert (V : forall t, valid_mask self t = true
                        <-> holding_days t <= target_holding_days self)
    by (intro t; unfold valid_mask; apply Z.leb_le).
  assert (NV : forall t, valid_mask self t = false
                         <-> ~ holding_days t <= target_holding_days self).
  { intro t. rewrite <- V. destruct (valid_mask self t); split; congruence. }
  assert (F : forall t, forced_mask self t = true
                        <-> ~ holding_days t <= target_holding_days self
                            /\ forced_exit t = true).
  { intro t. unfold forced_mask. rewrite andb_true_iff, negb_true_iff, NV. tauto. }
  assert (X : forall t, excluded_mask self t = true
                        <-> ~ holding_days t <= target_holding_days self
                            /\ forced_exit t = false).
  { intro t. unfold excluded_mask.
    rewrite andb_true_iff, !negb_true_iff, NV. tauto. }
  destruct trades as [|t0 trades].
  - simpl. repeat split; intros; try tauto; try reflexivity; contradiction.
  - unfold classify_trades. set (l := t0 :: trades).
    split; [|split; [|split; [|split]]].
    + intro t. rewrite filter_In, V. tauto.
    + intro t. rewrite filter_In, F. tauto.
    + intro t. rewrite filter_In, X. tauto.
    + intros. apply masks_exclusive.
    + apply filter_three_lengths.
Qed.

(** ** Resolution of the exit triggers *)

(** C2: with a position open, the exit bar is the earliest of the three
    triggers (the signal exit, or the last bar when no Exit signal
    follows; the trailing stop; the forced max-holding exit), and a later
    trigger in the order signal, trailing stop, forced max replaces the
    candidate chosen so far only when it fires strictly before it: the
    trailing stop wins only strictly before the signal exit, the forced
    exit only strictly before both. *)
Theorem resolve_exit_earliest_bar_wins (n : nat) (valid_exits : list nat)
    (trailing_stop_idx forced_exit_idx : option nat) :
  let signal_exit_idx := hd (n - 1)%nat valid_exits in
  let '(exit_idx, forced, reason) :=
    resolve_exit n valid_exits trailing_stop_idx forced_exit_idx in
  ((exit_idx <= signal_exit_idx)%nat /\
   (forall t, trailing_stop_idx = Some t -> exit_idx <= t)%nat /\
   (forall f, forced_exit_idx = Some f -> exit_idx <= f)%nat) /\
  (reason = trailing_stop <->
   exists t, trailing_stop_idx = Some t /\ exit_idx = t /\ (t < signal_exit_idx)%nat
             /\ (forall f, forced_exit_idx = Some f -> t <= f)%nat) /\
  (reason = forced_max <->
   exists f, forced_exit_idx = Some f /\ exit_idx = f /\ (f < signal_exit_idx)%nat
             /\ (forall t, trailing_stop_idx = Some t -> f < t)%nat) /\
  (reason = signal \/ reason = end_of_data <->
   exit_idx = signal_exit_idx
   /\ (forall t, trailing_stop_idx = Some t -> signal_exit_idx <= t)%nat
   /\ (forall f, forced_exit_idx = Some f -> signal_exit_idx <= f)%nat) /\
  (reason = end_of_data -> exit_idx = (n - 1)%nat) /\
  (forced = true <-> reason = forced_max \/ reason = end_of_data).
Proof.
  unfold resolve_exit.
  destruct valid_exits as [|x valid_exits]; simpl hd;
    destruct trailing_stop_idx as [t|], forced_exit_idx as [f|]; simpl;
    repeat match goal with
           | |- context [(?a <? ?b)%nat] => destruct (Nat.ltb_spec a b); simpl
           | |- context [(?a =? ?b)%nat] => destruct (Nat.eqb_spec a b); simpl
           end;
    repeat match goal with
           | |- _ /\ _ => split
           | |- _ <-> _ => split
           | |- _ -> _ => intro
           | |- forall _, _ => intro
           end;
    repeat match goal with
           | H : Some _ = Some _ |- _ => injection H as H; subst
           | H : None = Some _ |- _ => discriminate H
           | H : exists _, _ |- _ => destruct H as (? & ? & ? & ? & ?)
           | H : _ \/ _ |- _ => destruct H
           | H : _ /\ _ |- _ => destruct H
           | H : forall z, Some ?a = Some z -> _ |- _ => specialize (H a eq_refl)
           end;
    try discriminate; try lia; try tauto;
    try (eexists; split; [reflexivity|]; split; [reflexivity|]; split; [lia|];
         intros z Hz; inversion Hz; subst; lia).
Qed.

(** ** The Sharpe ratio *)

Module MetricsFacts.
Import Metrics.
Local Open Scope R_scope.

Lemma is_zero_true (x : float) : is_zero x = true <-> x = Some 0.
Proof.
  destruct x as [r|]; simpl.
  - destruct (Req_dec_T r 0) as [E|E]; split; intro H;
      try discriminate; try (subst; reflexivity).
    injection H as H. contradiction.
  - split; discriminate.
Qed.

Lemma sqrt_252_nonzero : sqrt 252 <> 0.
Proof.
  intro H. apply sqrt_eq_0 in H; lra.
Qed.

(** With two points or more the ratio is the annualised mean over the
    annualised deviation, and 0 when the deviation is 0. *)
Lemma sharpe_ratio_two_points (returns : list R) (m s : R) :
  (2 <= length returns)%nat ->
  mean returns = Some m ->
  std returns = Some s ->
  calculate_sharpe_ratio returns 0 =
    Some (if Req_dec_T s 0 then 0 else (m * 252) / (s * sqrt 252)).
Proof.
  intros L M S. unfold calculate_sharpe_ratio. rewrite M, S. simpl.
  destruct returns as [|x returns]; [simpl in L; lia|]. simpl length. simpl Nat.eqb.
  simpl orb. destruct (Req_dec_T s 0) as [E|E]; [reflexivity|].
  destruct (Req_dec_T (s * sqrt 252) 0) as [E'|E'].
  - apply Rmult_integral in E'. destruct E' as [E'|E']; [contradiction|].
    now apply sqrt_252_nonzero in E'.
  - now rewrite Rminus_0_r.
Qed.

Lemma sharpe_ratio_empty : calculate_sharpe_ratio [] 0 = Some 0.
Proof. reflexivity. Qed.

(** C8 at the case the guards miss: on a series of exactly one point the
    deviation is NaN, no guard catches it, and the ratio is NaN, not 0. *)
Theorem sharpe_ratio_single_point_is_nan (r : R) :
  std [r] = None /\ calculate_sharpe_ratio [r] 0 = None.
Proof.
  split; reflexivity.
Qed.

End MetricsFacts.

(** ** Arrays: positions, masks and the binary search *)

Lemma where_from_In (v : Z) (a : list Z) (k i : nat) :
  In i (where_from v a k) <-> (k <= i)%nat /\ nth_error a (i - k) = Some v.
Proof.
  revert k. induction a as [|x a IH]; intro k; simpl.
  - split; [contradiction|]. intros [_ H]. destruct (i - k)%nat; discriminate.
  - destruct (Z.eqb_spec x v) as [E|E]; simpl; rewrite ?IH.
    + split.
      * intros [H|[H1 H2]].
        -- subst. split; [lia|]. now rewrite Nat.sub_diag.
        -- split; [lia|]. replace (i - k)%nat with (S (i - S k)) by lia. exact H2.
      * intros [H1 H2]. destruct (Nat.eq_dec k i) as [->|N]; [now left|right].
        split; [lia|]. replace (i - k)%nat with (S (i - S k)) in H2 by lia. exact H2.
    + split.
      * intros [H1 H2]. split; [lia|].
        replace (i - k)%nat with (S (i - S k)) by lia. exact H2.
      * intros [H1 H2]. destruct (Nat.eq_dec k i) as [->|N].
        -- rewrite Nat.sub_diag in H2. simpl in H2. congruence.
        -- split; [lia|]. replace (i - k)%nat with (S (i - S k)) in H2 by lia. exact H2.
Qed.

Lemma np_where_eq_In (a : list Z) (v : Z) (i : nat) :
  In i (np_where_eq a v) <-> nth_error a i = Some v.
Proof.
  unfold np_where_eq. rewrite where_from_In, Nat.sub_0_r. split; [tauto|].
  intro H. split; [lia|exact H].
Qed.

Lemma np_where_eq_lt (a : list Z) (v : Z) (i : nat) :
  In i (np_where_eq a v) -> (i < length a)%nat.
Proof.
  rewrite np_where_eq_In. intro H. apply nth_error_Some. congruence.
Qed.

Lemma where_from_sorted (v : Z) (a : list Z) (k : nat) :
  StronglySorted lt (where_from v a k).
Proof.
  revert k. induction a as [|x a IH]; intro k; simpl; [constructor|].
  destruct (x =? v); [|apply IH].
  constructor; [apply IH|].
  apply Forall_forall. intros i H. apply where_from_In in H. lia.
Qed.

Lemma np_where_eq_sorted (a : list Z) (v : Z) :
  StronglySorted lt (np_where_eq a v).
Proof. apply where_from_sorted. Qed.

Lemma any_argmax (mask : list bool) :
  any mask = true ->
  (argmax mask < length mask)%nat /\ nth (argmax mask) mask false = true
  /\ forall i, (i < argmax mask)%nat -> nth i mask false = false.
Proof.
  induction mask as [|b mask IH]; simpl; [discriminate|].
  destruct b; simpl.
  - intros _. repeat split; [lia|]. intros i H. lia.
  - intro H. destruct (IH H) as (H1 & H2 & H3). repeat split; [lia|assumption|].
    intros [|i] Hi; [reflexivity|]. apply H3. lia.
Qed.

Lemma any_false (mask : list bool) :
  any mask = false -> forall i, nth i mask false = false.
Proof.
  induction mask as [|b mask IH]; simpl; intros H i.
  - now destruct i.
  - apply orb_false_iff in H. destruct H as [-> H]. destruct i; [reflexivity|].
    now apply IH.
Qed.

Lemma zip_with_length {A B C : Type} (f : A -> B -> C) (a : list A) (b : list B) :
  length (zip_with f a b) = Nat.min (length a) (length b).
Proof.
  revert b. induction a as [|x a IH]; intros [|y b]; simpl; auto.
Qed.

Lemma slice_length {A : Type} (a : list A) (lo hi : nat) :
  (length (slice a lo hi) <= hi - lo)%nat /\ (length (slice a lo hi) <= length a - lo)%nat.
Proof.
  unfold slice. rewrite length_firstn, length_skipn. lia.
Qed.

Lemma bisect_S {A : Type} (go_right : A -> bool) (d : A) (a : list A)
    (fuel lo hi : nat) :
  bisect go_right d a (S fuel) lo hi =
    if (lo <? hi)%nat then
      if go_right (nth (lo + (hi - lo) / 2) a d)
      then bisect go_right d a fuel (S (lo + (hi - lo) / 2)) hi
      else bisect go_right d a fuel lo (lo + (hi - lo) / 2)
    else lo.
Proof. reflexivity. Qed.

(** The binary search returns the boundary of a prefix-closed predicate. *)
Lemma bisect_boundary {A : Type} (go_right : A -> bool) (d : A) (a : list A)
    (fuel lo hi : nat) :
  (forall i j, i <= j -> j < length a ->
               go_right (nth j a d) = true -> go_right (nth i a d) = true)%nat ->
  (lo <= hi)%nat -> (hi <= length a)%nat -> (hi - lo < fuel)%nat ->
  (forall i, i < lo -> go_right (nth i a d) = true)%nat ->
  (forall i, hi <= i -> i < length a -> go_right (nth i a d) = false)%nat ->
  (bisect go_right d a fuel lo hi <= length a)%nat
  /\ (forall i, i < bisect go_right d a fuel lo hi -> go_right (nth i a d) = true)%nat
  /\ (forall i, bisect go_right d a fuel lo hi <= i -> i < length a ->
                go_right (nth i a d) = false)%nat.
Proof.
  intro Mono. revert lo hi.
  induction fuel as [|fuel IH]; intros lo hi Hle Hhi Hfuel Hlo Hup; [lia|].
  rewrite bisect_S. destruct (Nat.ltb_spec lo hi) as [Hlt|Hge].
  - remember (lo + (hi - lo) / 2)%nat as mid eqn:Emid.
    assert (Hmid : (lo <= mid < hi)%nat).
    { subst mid. split; [lia|].
      assert ((hi - lo) / 2 < hi - lo)%nat by (apply Nat.div_lt; lia). lia. }
    clear Emid.
    destruct (go_right (nth mid a d)) eqn:G.
    + apply IH; try lia; [|assumption].
      intros i Hi. apply (Mono i mid); [lia|lia|exact G].
    + apply IH; try lia; [assumption|].
      intros i Hi1 Hi2. destruct (go_right (nth i a d)) eqn:G'; [|reflexivity].
      rewrite (Mono mid i) in G; [discriminate|lia|lia|exact G'].
  - assert (lo = hi) by lia. subst. repeat split; [lia|assumption|assumption].
Qed.

Lemma StronglySorted_lt_nth (a : list nat) (i j : nat) :
  StronglySorted lt a -> (i < j)%nat -> (j < length a)%nat ->
  (nth i a 0 < nth j a 0)%nat.
Proof.
  intro S. revert i j. induction S as [|x a S IH F]; intros i j Hij Hj; simpl in *; [lia|].
  destruct j as [|j]; [lia|]. destruct i as [|i].
  - rewrite Forall_forall in F. apply F. apply nth_In. lia.
  - apply IH; lia.
Qed.

Lemma skipn_In {A : Type} (k : nat) (l : list A) (x : A) :
  In x (skipn k l) -> In x l.
Proof.
  revert l. induction k as [|k IH]; intros l H; [exact H|].
  destruct l as [|y l]; [exact H|]. right. now apply IH.
Qed.

Lemma StronglySorted_skipn {A : Type} (R : A -> A -> Prop) (k : nat) (a : list A) :
  StronglySorted R a -> StronglySorted R (skipn k a).
Proof.
  revert a. induction k as [|k IH]; intros a S; [exact S|].
  destruct a as [|z a]; [constructor|]. simpl. apply IH. now inversion S.
Qed.

(** On the increasing array of exit candidates, what follows the
    insertion point of [side='right'] is what lies strictly after the key,
    starting with the first such candidate. *)
Lemma searchsorted_right_spec (a : list nat) (key : nat) :
  StronglySorted lt a ->
  let r := searchsorted_right a key in
  (forall x, In x (skipn r a) <-> In x a /\ (key < x)%nat)
  /\ (forall x rest, skipn r a = x :: rest ->
                     forall y, In y a -> (key < y)%nat -> (x <= y)%nat).
Proof.
  intros S r.
  assert (B : (r <= length a)%nat
              /\ (forall i, i < r -> (nth i a 0 <=? key) = true)%nat
              /\ (forall i, r <= i -> i < length a -> (nth i a 0 <=? key) = false)%nat).
  { unfold r, searchsorted_right.
    apply (bisect_boundary (fun x => (x <=? key)%nat) 0%nat a); try lia.
    intros i j Hij Hj G. apply Nat.leb_le in G. apply Nat.leb_le.
    destruct (Nat.eq_dec i j) as [->|N]; [exact G|].
    pose proof (StronglySorted_lt_nth a i j S ltac:(lia) Hj). lia. }
  destruct B as (B1 & B2 & B3).
  assert (In_skip : forall x, In x (skipn r a) <-> In x a /\ (key < x)%nat).
  { intro x. split.
    - intro H. apply In_nth with (d := 0%nat) in H. destruct H as (i & Hi & <-).
      rewrite length_skipn in Hi. rewrite nth_skipn.
      split; [apply nth_In; lia|].
      specialize (B3 (r + i)%nat ltac:(lia) ltac:(lia)). apply Nat.leb_gt in B3. exact B3.
    - intros [H K]. apply In_nth with (d := 0%nat) in H. destruct H as (i & Hi & <-).
      destruct (Nat.lt_ge_cases i r) as [L|G].
      + specialize (B2 i L). apply Nat.leb_le in B2. lia.
      + replace i with (r + (i - r))%nat by lia. rewrite <- nth_skipn.
        apply nth_In. rewrite length_skipn. lia. }
  split; [exact In_skip|].
  intros x rest E y Hy Ky.
  assert (Hy' : In y (skipn r a)) by (apply In_skip; tauto).
  rewrite E in Hy'. destruct Hy' as [->|Hy']; [lia|].
  assert (SS : StronglySorted lt (x :: rest)).
  { rewrite <- E. now apply StronglySorted_skipn. }
  inversion SS as [|? ? _ F]; subst. rewrite Forall_forall in F.
  specialize (F y Hy'). lia.
Qed.

(** ** The exit triggers stay inside the frame *)

Lemma trailing_stop_index_range (self : BacktestEngine) (strategy_type : StrategyType)
    (highs lows prices : list Q) (n entry_idx : nat) (entry_price : Q) (t : nat) :
  length prices = n ->
  trailing_stop_index self strategy_type highs lows prices n entry_idx entry_price = Some t ->
  (entry_idx + 1 <= t < n)%nat.
Proof.
  intros L. unfold trailing_stop_index.
  destruct (trailing_stop_enabled self && (entry_idx + 1 <? n)%nat); [|discriminate].
  destruct strategy_type;
    match goal with
    | |- context [any ?m] => destruct (any m) eqn:A; [|discriminate];
                             apply any_argmax in A; destruct A as (A & _);
                             rewrite zip_with_length, length_skipn in A
    end;
    intro H; injection H as <-; lia.
Qed.

Lemma forced_exit_index_range (self : BacktestEngine) (dates_ns : list Z)
    (n entry_idx : nat) (entry_ns : Z) (f : nat) :
  forced_exit_index self dates_ns n entry_idx entry_ns = Some f ->
  (entry_idx + 1 <= f < n)%nat.
Proof.
  unfold forced_exit_index.
  destruct (Z.ltb_spec (Z.of_nat entry_idx + 1)
              (Z.min (Z.of_nat entry_idx + max_holding_days self + 2) (Z.of_nat n)))
    as [S|S]; [|discriminate].
  match goal with
  | |- context [any ?m] => destruct (any m) eqn:A; [|discriminate];
                           apply any_argmax in A; destruct A as (A & _)
  end.
  rewrite !length_map in A.
  pose proof (slice_length dates_ns (entry_idx + 1)
                (Z.to_nat (Z.min (Z.of_nat entry_idx + max_holding_days self + 2)
                                 (Z.of_nat n)))) as [B _].
  intro H; injection H as <-. lia.
Qed.

Lemma resolve_exit_choice (n : nat) (valid_exits : list nat)
    (trailing_stop_idx forced_exit_idx : option nat) :
  let '(exit_idx, _, _) := resolve_exit n valid_exits trailing_stop_idx forced_exit_idx in
  exit_idx = hd (n - 1)%nat valid_exits
  \/ trailing_stop_idx = Some exit_idx \/ forced_exit_idx = Some exit_idx.
Proof.
  unfold resolve_exit.
  destruct valid_exits as [|x valid_exits]; simpl hd;
    destruct trailing_stop_idx as [t|], forced_exit_idx as [f|]; simpl;
    repeat match goal with
           | |- context [(?a <? ?b)%nat] => destruct (Nat.ltb_spec a b); simpl
           | |- context [(?a =? ?b)%nat] => destruct (Nat.eqb_spec a b); simpl
           end; tauto.
Qed.

Lemma vec_exit_range (self : BacktestEngine) (df : DataFrame) (strategy_type : StrategyType)
    (exit_candidates : list nat) (entry_idx : nat) (entry_date : Z) (entry_price : Q)
    (exit_idx : nat) (forced : bool) (reason : ExitReason) :
  (entry_idx < length (rows df))%nat ->
  (forall x, In x exit_candidates -> x < length (rows df))%nat ->
  vec_exit self df exit_candidates strategy_type entry_idx entry_date entry_price
  = (exit_idx, forced, reason) ->
  (exit_idx < length (rows df))%nat.
Proof.
  unfold vec_exit. intros He Hx R.
  match type of R with
  | resolve_exit ?n ?v ?t ?f = _ => pose proof (resolve_exit_choice n v t f) as C
  end.
  rewrite R in C. destruct C as [C|[C|C]].
  - destruct (skipn (searchsorted_right exit_candidates entry_idx) exit_candidates)
      as [|x rest] eqn:E; simpl in C; [lia|].
    subst. apply Hx. apply (skipn_In (searchsorted_right exit_candidates entry_idx)).
    rewrite E. now left.
  - apply trailing_stop_index_range in C; [lia|]. now rewrite length_map.
  - apply forced_exit_index_range in C. lia.
Qed.

(** ** One iteration of the batch simulator *)

Lemma nth_error_map_Some {A B : Type} (f : A -> B) (l : list A) (i : nat) (y : B) :
  nth_error (map f l) i = Some y <-> exists x, nth_error l i = Some x /\ f x = y.
Proof.
  rewrite nth_error_map. destruct (nth_error l i) as [x|]; simpl; split.
  - intro H. injection H as <-. now exists x.
  - intros (x' & H & <-). now injection H as <-.
  - discriminate.
  - intros (x' & H & _). discriminate.
Qed.

(** What an iteration does when it returns: nothing for a candidate
    before [current_pos]; otherwise it reads the entry bar and the exit
    bar, and either skips (no share affordable) or appends one trade. *)
Lemma vec_body_Some (self : BacktestEngine) (df : DataFrame) (exit_candidates : list nat)
    (commission slippage lending_rate : Q) (strategy_type : StrategyType)
    (s s' : VecState) (entry_idx : nat) :
  vec_body self df exit_candidates commission slippage lending_rate strategy_type s entry_idx
  = Some s' ->
  (entry_idx < v_current_pos s)%nat /\ s' = s
  \/ (v_current_pos s <= entry_idx)%nat /\
     exists entry_bar exit_bar exit_idx forced reason,
       nth_error (rows df) entry_idx = Some entry_bar
       /\ nth_error (rows df) exit_idx = Some exit_bar
       /\ vec_exit self df exit_candidates strategy_type entry_idx (Date entry_bar)
            (Close entry_bar * (1 + slippage))%Q = (exit_idx, forced, reason)
       /\ s' =
          let entry_price := (Close entry_bar * (1 + slippage))%Q in
          let exit_price := (Close exit_bar * (1 - slippage))%Q in
          let position := vec_position (v_cash s) entry_price in
          if position =? 0 then mkVecState (v_trades s) (v_cash s) (exit_idx + 1)
          else
            mkVecState
              (v_trades s
               ++ [vec_trade self commission lending_rate strategy_type (Date entry_bar)
                             (Date exit_bar) entry_price exit_price position forced
                             reason])
              (vec_cash_after commission lending_rate strategy_type (v_cash s)
                              (Date entry_bar) (Date exit_bar) entry_price exit_price
                              position)
              (exit_idx + 1).
Proof.
  unfold vec_body.
  destruct (Nat.ltb_spec entry_idx (v_current_pos s)) as [L|L].
  - intro H. injection H as <-. now left.
  - intro H. right. split; [exact L|].
    rewrite !nth_error_map in H.
    destruct (nth_error (rows df) entry_idx) as [entry_bar|] eqn:E1; [|discriminate].
    simpl in H.
    destruct (vec_exit self df exit_candidates strategy_type entry_idx (Date entry_bar)
                (Close entry_bar * (1 + slippage))%Q) as [[exit_idx forced] reason] eqn:X.
    simpl in H. rewrite !nth_error_map in H.
    destruct (nth_error (rows df) exit_idx) as [exit_bar|] eqn:E2; [|discriminate].
    simpl in H.
    exists entry_bar, exit_bar, exit_idx, forced, reason.
    repeat split; try assumption. revert H. cbv zeta.
    destruct (vec_position (v_cash s) (Close entry_bar * (1 + slippage)) =? 0);
      intro H; now injection H as <-.
Qed.

(** An iteration raises only on a candidate or an exit outside the frame. *)
Lemma vec_body_total (self : BacktestEngine) (df : DataFrame) (exit_candidates : list nat)
    (commission slippage lending_rate : Q) (strategy_type : StrategyType)
    (s : VecState) (entry_idx : nat) :
  (entry_idx < length (rows df))%nat ->
  (forall x, In x exit_candidates -> x < length (rows df))%nat ->
  exists s',
    vec_body self df exit_candidates commission slippage lending_rate strategy_type s
             entry_idx = Some s'.
Proof.
  intros He Hx. unfold vec_body.
  destruct (entry_idx <? v_current_pos s)%nat; [eauto|].
  rewrite !nth_error_map.
  destruct (nth_error (rows df) entry_idx) as [entry_bar|] eqn:E1.
  2:{ apply nth_error_None in E1. lia. }
  simpl.
  destruct (vec_exit self df exit_candidates strategy_type entry_idx (Date entry_bar)
              (Close entry_bar * (1 + slippage))%Q) as [[exit_idx forced] reason] eqn:X.
  apply vec_exit_range in X; [|assumption|assumption].
  rewrite !nth_error_map.
  destruct (nth_error (rows df) exit_idx) as [exit_bar|] eqn:E2.
  2:{ apply nth_error_None in E2. lia. }
  simpl. destruct (_ =? 0); eauto.
Qed.

Lemma vec_loop_total (self : BacktestEngine) (df : DataFrame) (exit_candidates : list nat)
    (commission slippage lending_rate : Q) (strategy_type : StrategyType)
    (entry_candidates : list nat) (s : VecState) :
  (forall e, In e entry_candidates -> e < length (rows df))%nat ->
  (forall x, In x exit_candidates -> x < length (rows df))%nat ->
  exists s',
    vec_loop (vec_body self df exit_candidates commission slippage lending_rate
                       strategy_type) entry_candidates s = Some s'.
Proof.
  intros He Hx. revert s.
  induction entry_candidates as [|e rest IH]; intro s; simpl; [eauto|].
  destruct (vec_body_total self df exit_candidates commission slippage lending_rate
              strategy_type s e) as [s' E]; [apply He; now left|assumption|].
  rewrite E. simpl. apply IH. intros e' H. apply He. now right.
Qed.

(** ** The equity curve has one value per bar *)

Lemma assign_from_length {A : Type} (f : nat -> A -> A) (lo hi : nat) (a : list A) (k : nat) :
  length (assign_from f lo hi a k) = length a.
Proof.
  revert k. induction a as [|x a IH]; intro k; simpl; [reflexivity|]. now rewrite IH.
Qed.

Lemma assign_slice_length {A : Type} (a : list A) (lo hi : nat) (f : nat -> A -> A) :
  length (assign_slice a lo hi f) = length a.
Proof. apply assign_from_length. Qed.

Lemma equity_body_length (n : nat) (dates : list Z) (prices : list Q)
    (strategy_type : StrategyType) (acc : list Q * Q) (trade : Trade) :
  length (fst (equity_body n dates prices strategy_type acc trade)) = length (fst acc).
Proof.
  destruct acc as [equity cash]. unfold equity_body. simpl.
  repeat match goal with
         | |- context [if ?c then _ else _] => destruct c
         end; rewrite ?assign_slice_length; reflexivity.
Qed.

Lemma equity_fold_length (n : nat) (dates : list Z) (prices : list Q)
    (strategy_type : StrategyType) (trades : list Trade) (acc : list Q * Q) :
  length (fst (fold_left (equity_body n dates prices strategy_type) trades acc))
  = length (fst acc).
Proof.
  revert acc. induction trades as [|t trades IH]; intro acc; simpl; [reflexivity|].
  rewrite IH. apply equity_body_length.
Qed.

Lemma calculate_equity_length (self : BacktestEngine) (df : DataFrame)
    (trades : list Trade) (strategy_type : StrategyType) :
  length (calculate_equity_from_trades_vectorized self df trades strategy_type)
  = length (rows df).
Proof.
  unfold calculate_equity_from_trades_vectorized.
  destruct trades as [|t trades]; [apply repeat_length|].
  rewrite equity_fold_length. apply repeat_length.
Qed.

(** ** Input validation *)




(** ** Invariants of the batch loop *)

Lemma vec_loop_invariant (body : VecState -> nat -> option VecState)
    (P : VecState -> Prop) (entry_candidates : list nat) (s s' : VecState) :
  (forall s entry_idx s', In entry_idx entry_candidates ->
                          P s -> body s entry_idx = Some s' -> P s') ->
  P s -> vec_loop body entry_candidates s = Some s' -> P s'.
Proof.
  revert s. induction entry_candidates as [|e rest IH]; intros s Step Ps; simpl.
  - intro H. now injection H as <-.
  - destruct (body s e) as [s1|] eqn:E; [|discriminate]. simpl.
    apply IH.
    + intros s2 e2 s3 H. apply Step. now right.
    + apply (Step s e s1); [now left|assumption|assumption].
Qed.

(** ** Trades never overlap *)

Lemma StronglySorted_app_one {A : Type} (R : A -> A -> Prop) (l : list A) (x : A) :
  StronglySorted R l -> Forall (fun y => R y x) l -> StronglySorted R (l ++ [x]).
Proof.
  induction 1 as [|y l S IH F]; intro H; simpl.
  - repeat constructor.
  - inversion H as [|? ? Ryx H']; subst. constructor; [now apply IH|].
    apply Forall_app. split; [assumption|]. now constructor.
Qed.

Lemma StronglySorted_nth {A : Type} (R : A -> A -> Prop) (l : list A) (i j : nat) (x y : A) :
  StronglySorted R l -> (i < j)%nat ->
  nth_error l i = Some x -> nth_error l j = Some y -> R x y.
Proof.
  intro S. revert i j. induction S as [|z l S IH F]; intros i j Hij Hi Hj.
  - destruct i; discriminate.
  - destruct j as [|j]; [lia|]. simpl in Hj. destruct i as [|i]; simpl in Hi.
    + injection Hi as ->. rewrite Forall_forall in F. apply F.
      now apply nth_error_In in Hj.
    + apply (IH i j); [lia|assumption|assumption].
Qed.

Lemma increasing_dates_nth (df : DataFrame) (i j : nat) (bi bj : Bar) :
  increasing_dates df -> (i < j)%nat ->
  nth_error (rows df) i = Some bi -> nth_error (rows df) j = Some bj ->
  Date bi < Date bj.
Proof.
  intros S Hij Hi Hj.
  apply (StronglySorted_nth Z.lt (map Date (rows df)) i j); try assumption;
    rewrite nth_error_map; [now rewrite Hi|now rewrite Hj].
Qed.

(** The exit bar is never before the entry bar. *)
Lemma vec_exit_after_entry (self : BacktestEngine) (df : DataFrame)
    (strategy_type : StrategyType) (exit_candidates : list nat) (entry_idx : nat)
    (entry_date : Z) (entry_price : Q) (exit_idx : nat) (forced : bool)
    (reason : ExitReason) :
  StronglySorted lt exit_candidates ->
  (entry_idx < length (rows df))%nat ->
  vec_exit self df exit_candidates strategy_type entry_idx entry_date entry_price
  = (exit_idx, forced, reason) ->
  (entry_idx <= exit_idx)%nat.
Proof.
  unfold vec_exit. intros S He R.
  match type of R with
  | resolve_exit ?n ?v ?t ?f = _ => pose proof (resolve_exit_choice n v t f) as C
  end.
  rewrite R in C. destruct C as [C|[C|C]].
  - destruct (skipn (searchsorted_right exit_candidates entry_idx) exit_candidates)
      as [|x rest] eqn:E; simpl in C; [lia|]. subst.
    destruct (searchsorted_right_spec exit_candidates entry_idx S) as [In_skip _].
    assert (H : In x (skipn (searchsorted_right exit_candidates entry_idx)
                            exit_candidates)) by (rewrite E; now left).
    apply In_skip in H. lia.
  - apply trailing_stop_index_range in C; [lia|]. now rewrite length_map.
  - apply forced_exit_index_range in C. lia.
Qed.

(** The invariant of the loop: the trades so far do not overlap and all
    end before the bar at [current_pos]. *)
Lemma vec_body_non_overlapping (self : BacktestEngine) (df : DataFrame)
    (exit_candidates : list nat) (commission slippage lending_rate : Q)
    (strategy_type : StrategyType) (s s' : VecState) (entry_idx : nat) :
  increasing_dates df ->
  StronglySorted lt exit_candidates ->
  let P := fun s =>
    non_overlapping (v_trades s)
    /\ forall t k bar, In t (v_trades s) -> (v_current_pos s <= k)%nat ->
                       nth_error (rows df) k = Some bar -> exit_date t < Date bar in
  P s ->
  vec_body self df exit_candidates commission slippage lending_rate strategy_type s
           entry_idx = Some s' ->
  P s'.
Proof.
  intros Inc S P [[F SS] Before] B.
  apply vec_body_Some in B. destruct B as [[_ ->]|[L B]]; [now repeat split|].
  destruct B as (be & bx & exit_idx & forced & reason & E1 & E2 & X & ->).
  assert (He : (entry_idx < length (rows df))%nat)
    by (apply nth_error_Some; congruence).
  apply vec_exit_after_entry in X; [|assumption|assumption].
  cbv zeta. destruct (_ =? 0).
  - split; [now split|]. simpl. intros t k bar Ht Hk Hb.
    apply (Before t k bar); [assumption|lia|assumption].
  - simpl. assert (D : Date be <= Date bx).
    { destruct (Nat.eq_dec entry_idx exit_idx) as [<-|N].
      - rewrite E1 in E2. injection E2 as <-. lia.
      - apply Z.lt_le_incl.
        apply (increasing_dates_nth df entry_idx exit_idx); try assumption. lia. }
    split; [split|].
    + apply Forall_app. split; [assumption|]. repeat constructor. exact D.
    + apply StronglySorted_app_one; [assumption|].
      apply Forall_forall. intros t Ht. simpl.
      apply (Before t entry_idx be); assumption.
    + intros t k bar Ht Hk Hb. simpl in Ht, Hk.
      apply in_app_or in Ht. destruct Ht as [Ht|[<-|[]]].
      * apply (Before t k bar); [assumption|lia|assumption].
      * simpl. apply (increasing_dates_nth df exit_idx k); try assumption. lia.
Qed.

(** C4: on a frame with strictly increasing timestamps, the trade list of
    the batch simulator is in entry-time order and its trades do not
    overlap: every trade ends no earlier than it starts and before the
    next one starts, so no instant is covered by two trades. *)
Theorem trades_never_overlap (self : BacktestEngine) (df : DataFrame)
    (signals : list Z) (commission slippage lending_rate : Q)
    (strategy_type : StrategyType) (trades : list Trade) (equity : list Q) :
  increasing_dates df ->
  execute_trades_vectorized self df signals commission slippage lending_rate
                            strategy_type = Some (trades, equity) ->
  non_overlapping trades
  /\ (forall i t1 t2, nth_error trades i = Some t1 -> nth_error trades (S i) = Some t2 ->
                      entry_date t1 < entry_date t2
                      /\ exit_date t1 <= entry_date t2)
  /\ (forall i j t1 t2 d, nth_error trades i = Some t1 -> nth_error trades j = Some t2 ->
                          open_at t1 d -> open_at t2 d -> i = j).
Proof.
  intros Inc. unfold execute_trades_vectorized.
  destruct (length (rows df) =? 0)%nat.
  { intro H. injection H as <- _. repeat split; try constructor.
    - destruct i; discriminate.
    - destruct i; discriminate.
    - destruct i; discriminate. }
  destruct (vec_loop _ _ _) as [s|] eqn:E; [|discriminate]. simpl.
  intro H. injection H as <- _.
  assert (N : non_overlapping (v_trades s)).
  { refine (proj1 (vec_loop_invariant _
              (fun s => non_overlapping (v_trades s)
                        /\ forall t k bar, In t (v_trades s) ->
                             (v_current_pos s <= k)%nat ->
                             nth_error (rows df) k = Some bar -> exit_date t < Date bar)
              _ _ _ _ _ E)).
    - intros s1 e s2 _ P1 B.
      apply (vec_body_non_overlapping self df (np_where_eq signals (-1)) commission
               slippage lending_rate strategy_type s1 s2 e Inc
               (np_where_eq_sorted signals (-1)) P1 B).
    - simpl. repeat split; try constructor. contradiction. }
  split; [exact N|]. destruct N as [F SS].
  assert (Pair : forall i j t1 t2, (i < j)%nat -> nth_error (v_trades s) i = Some t1 ->
                   nth_error (v_trades s) j = Some t2 ->
                   exit_date t1 < entry_date t2).
  { intros i j t1 t2 Hij H1 H2.
    apply (StronglySorted_nth _ (v_trades s) i j t1 t2 SS Hij H1 H2). }
  rewrite Forall_forall in F.
  split.
  - intros i t1 t2 H1 H2.
    pose proof (Pair i (S i) t1 t2 ltac:(lia) H1 H2).
    pose proof (F t1 (nth_error_In _ _ H1)). simpl in *. lia.
  - intros i j t1 t2 d H1 H2 [O1 O1'] [O2 O2'].
    destruct (Nat.lt_trichotomy i j) as [L|[L|L]]; [|exact L|].
    + pose proof (Pair i j t1 t2 L H1 H2). lia.
    + pose proof (Pair j i t2 t1 L H2 H1). lia.
Qed.

Lemma trades_never_overlap_witness :
  match execute_trades_vectorized (engine_with 1000 false)
          (daily_frame [100; 100; 100; 100; 100]%Q) [1; -1; 1; 0; -1] 0 0 0 long with
  | Some (trades, _) => length trades = 2%nat /\ non_overlapping trades
  | None => False
  end.
Proof.
  destruct (execute_trades_vectorized (engine_with 1000 false)
              (daily_frame [100; 100; 100; 100; 100]%Q) [1; -1; 1; 0; -1] 0 0 0 long)
    as [[trades equity]|] eqn:E.
  - split.
    + vm_compute in E. injection E as <- _. reflexivity.
    + refine (proj1 (trades_never_overlap _ _ _ _ _ _ _ _ _ _ E)).
      unfold increasing_dates, daily_frame, daily_bars_from. simpl.
      repeat constructor.
  - vm_compute in E. discriminate.
Defined.

(** ** An Enter that buys no share *)

(** In the batch simulator an Enter whose share count is 0 records no
    trade and leaves the cash alone, but scanning resumes only after the
    bar where that position would have been closed. *)
Lemma vec_body_zero_shares (self : BacktestEngine) (df : DataFrame)
    (exit_candidates : list nat) (commission slippage lending_rate : Q)
    (strategy_type : StrategyType) (s s' : VecState) (entry_idx : nat) (entry_bar : Bar) :
  (v_current_pos s <= entry_idx)%nat ->
  nth_error (rows df) entry_idx = Some entry_bar ->
  vec_position (v_cash s) (Close entry_bar * (1 + slippage))%Q = 0 ->
  vec_body self df exit_candidates commission slippage lending_rate strategy_type s
           entry_idx = Some s' ->
  v_trades s' = v_trades s /\ v_cash s' = v_cash s
  /\ v_current_pos s' =
     (fst (fst (vec_exit self df exit_candidates strategy_type entry_idx (Date entry_bar)
                         (Close entry_bar * (1 + slippage))%Q)) + 1)%nat.
Proof.
  intros L E Z B. apply vec_body_Some in B. destruct B as [[L' _]|[_ B]]; [lia|].
  destruct B as (be & bx & exit_idx & forced & reason & E1 & E2 & X & ->).
  rewrite E in E1. injection E1 as <-. cbv zeta. rewrite Z, X. simpl. auto.
Qed.

(** In the per-bar scan the same Enter leaves the state flat with the same
    cash, so the next bar is scanned like any other. *)
Lemma step_zero_shares (self : BacktestEngine) (commission slippage lending_rate : Q)
    (strategy_type : StrategyType) (s : SimState) (bar : Bar) :
  s_position s = 0 ->
  ~ (Close bar * (1 + slippage) == 0)%Q ->
  py_int (s_cash s / (Close bar * (1 + slippage))) = 0 ->
  exists s',
    step self commission slippage lending_rate strategy_type s bar 1 = Some s'
    /\ s_position s' = 0 /\ s_cash s' = s_cash s /\ s_trades s' = s_trades s
    /\ s_entry_date s' = s_entry_date s.
Proof.
  intros P NZ Z. unfold step. rewrite P. simpl.
  destruct (Qeq_bool (Close bar * (1 + slippage)) 0) eqn:Q.
  - apply Qeq_bool_iff in Q. contradiction.
  - rewrite Z. simpl. eexists. split; [reflexivity|]. simpl. auto.
Qed.

(** C6 at an input where the two simulators part: with a capital of 100,
    the Enter at bar 0 (close 150) buys no share and the Enter at bar 1
    (close 50) could buy two.  The per-bar scan opens that position at
    bar 1; the batch simulator has jumped past the Exit of bar 3 and
    records no trade at all. *)
Theorem zero_share_enter_hides_later_enters :
  let self := engine_with 100 false in
  let df := daily_frame [150; 50; 50; 50]%Q in
  let signals := [1; 1; 0; -1] in
  vec_position 100 (150 * (1 + 0)) = 0
  /\ vec_position 100 (50 * (1 + 0)) = 2
  /\ option_map fst (execute_trades_vectorized self df signals 0 0 0 long) = Some []
  /\ option_map (fun r => map (fun t => (entry_date t, exit_date t, shares t)) (fst r))
                (execute_trades self df signals 0 0 0 long)
     = Some [(ns_per_day, 3 * ns_per_day, 2)].
Proof.
  cbv zeta. repeat split; vm_compute; reflexivity.
Qed.

(** ** An Enter at the final bar *)

Lemma days_between_same (d : Z) : days_between d d = 0.
Proof. unfold days_between. now rewrite Z.sub_diag. Qed.

(** At the final bar no trigger can fire: the exit is the final bar
    itself, forced, for the end of the data. *)
Lemma vec_exit_final_bar (self : BacktestEngine) (df : DataFrame)
    (exit_candidates : list nat) (strategy_type : StrategyType)
    (entry_date : Z) (entry_price : Q) :
  StronglySorted lt exit_candidates ->
  (forall x, In x exit_candidates -> x < length (rows df))%nat ->
  (0 < length (rows df))%nat ->
  vec_exit self df exit_candidates strategy_type (length (rows df) - 1) entry_date
           entry_price
  = ((length (rows df) - 1)%nat, true, end_of_data).
Proof.
  intros S Hx Hn. unfold vec_exit.
  set (n := length (rows df)) in *.
  assert (V : skipn (searchsorted_right exit_candidates (n - 1)) exit_candidates = []).
  { destruct (skipn _ exit_candidates) as [|x rest] eqn:E; [reflexivity|].
    destruct (searchsorted_right_spec exit_candidates (n - 1)%nat S) as [In_skip _].
    assert (H : In x (skipn (searchsorted_right exit_candidates (n - 1)) exit_candidates))
      by (rewrite E; now left).
    apply In_skip in H. destruct H as [H1 H2]. apply Hx in H1. lia. }
  rewrite V.
  assert (T : forall highs lows prices,
             trailing_stop_index self strategy_type highs lows prices n (n - 1)
                                 entry_price = None).
  { intros. unfold trailing_stop_index.
    replace (n - 1 + 1 <? n)%nat with false
      by (symmetry; apply Nat.ltb_ge; lia).
    now rewrite andb_false_r. }
  rewrite T.
  assert (F : forced_exit_index self (map Date (rows df)) n (n - 1) entry_date = None).
  { unfold forced_exit_index.
    destruct (Z.ltb_spec (Z.of_nat (n - 1) + 1)
                (Z.min (Z.of_nat (n - 1) + max_holding_days self + 2) (Z.of_nat n)));
      [lia|reflexivity]. }
  rewrite F. unfold resolve_exit. now rewrite Nat.eqb_refl.
Qed.

(** An iteration at the final bar that buys at least one share appends
    the same-bar trade. *)
Lemma vec_body_final_bar (self : BacktestEngine) (df : DataFrame)
    (exit_candidates : list nat) (commission slippage lending_rate : Q)
    (strategy_type : StrategyType) (s : VecState) (last_bar : Bar) :
  StronglySorted lt exit_candidates ->
  (forall x, In x exit_candidates -> x < length (rows df))%nat ->
  nth_error (rows df) (length (rows df) - 1) = Some last_bar ->
  (v_current_pos s <= length (rows df) - 1)%nat ->
  vec_position (v_cash s) (Close last_bar * (1 + slippage))%Q <> 0 ->
  vec_body self df exit_candidates commission slippage lending_rate strategy_type s
           (length (rows df) - 1)
  = Some (mkVecState
            (v_trades s
             ++ [vec_trade self commission lending_rate strategy_type (Date last_bar)
                           (Date last_bar) (Close last_bar * (1 + slippage))%Q
                           (Close last_bar * (1 - slippage))%Q
                           (vec_position (v_cash s) (Close last_bar * (1 + slippage))%Q)
                           true end_of_data])
            (vec_cash_after commission lending_rate strategy_type (v_cash s)
                            (Date last_bar) (Date last_bar)
                            (Close last_bar * (1 + slippage))%Q
                            (Close last_bar * (1 - slippage))%Q
                            (vec_position (v_cash s) (Close last_bar * (1 + slippage))%Q))
            (length (rows df) - 1 + 1)).
Proof.
  intros S Hx E L P.
  assert (Hn : (0 < length (rows df))%nat).
  { destruct (rows df); [discriminate E|simpl; lia]. }
  unfold vec_body.
  destruct (Nat.ltb_spec (length (rows df) - 1) (v_current_pos s)) as [C|_]; [lia|].
  rewrite !nth_error_map, E. cbn [option_map bind].
  rewrite (vec_exit_final_bar self df exit_candidates strategy_type (Date last_bar)
             (Close last_bar * (1 + slippage))%Q S Hx Hn).
  rewrite !nth_error_map, E. cbn [option_map bind].
  destruct (Z.eqb_spec (vec_position (v_cash s) (Close last_bar * (1 + slippage))%Q) 0)
    as [Z|_]; [contradiction|reflexivity].
Qed.

(** When the Enter of the final bar is the only Enter of the series and it
    buys at least one share, the batch simulator emits exactly one trade,
    entered and exited on the final bar. *)
Lemma final_bar_entry_vectorized (self : BacktestEngine) (front : list Bar) (last_bar : Bar)
    (hh hl : bool) (signals : list Z) (commission slippage lending_rate : Q)
    (strategy_type : StrategyType) :
  let df := mkDataFrame (front ++ [last_bar]) hh hl in
  np_where_eq signals 1 = [length front] ->
  (length signals <= length (rows df))%nat ->
  vec_position (initial_capital self) (Close last_bar * (1 + slippage))%Q <> 0 ->
  exists t equity,
    execute_trades_vectorized self df signals commission slippage lending_rate
                              strategy_type = Some ([t], equity)
    /\ entry_date t = Date last_bar /\ exit_date t = Date last_bar
    /\ holding_days t = 0 /\ forced_exit t = true /\ exit_reason t = end_of_data
    /\ within_target_period t = (0 <=? target_holding_days self).
Proof.
  intros df W L P.
  assert (N : (length (rows df) - 1)%nat = length front)
    by (simpl; rewrite length_app; simpl; lia).
  assert (E : nth_error (rows df) (length (rows df) - 1) = Some last_bar).
  { rewrite N. simpl. rewrite nth_error_app2 by lia. now rewrite Nat.sub_diag. }
  unfold execute_trades_vectorized. rewrite W, <- N.
  replace (length (rows df) =? 0)%nat with false
    by (symmetry; apply Nat.eqb_neq; simpl; rewrite length_app; simpl; lia).
  cbn [vec_loop].
  rewrite (vec_body_final_bar self df (np_where_eq signals (-1)) commission slippage
             lending_rate strategy_type _ last_bar).
  - cbn [bind v_trades app]. eexists _, _. split; [reflexivity|].
    cbn [vec_trade entry_date exit_date holding_days forced_exit exit_reason
         within_target_period].
    rewrite days_between_same. auto 10.
  - apply np_where_eq_sorted.
  - intros x H. apply np_where_eq_lt in H. lia.
  - exact E.
  - simpl. lia.
  - exact P.
Qed.

(** C10 at an input where the batch simulator loses the final-bar trade:
    with a capital of 100 the Enter at bar 0 (close 150) buys no share, so
    the Enter of the final bar (close 50, two shares) is the only one that
    can open a position.  The per-bar scan emits the same-bar trade; the
    batch simulator, having jumped past the final bar, emits nothing. *)
Theorem final_bar_enter_lost_after_zero_shares :
  let self := engine_with 100 false in
  let df := daily_frame [150; 50]%Q in
  let signals := [1; 1] in
  vec_position 100 (150 * (1 + 0)) = 0
  /\ vec_position 100 (50 * (1 + 0)) = 2
  /\ option_map fst (execute_trades_vectorized self df signals 0 0 0 long) = Some []
  /\ option_map
       (fun r => map (fun t => (entry_date t, exit_date t, shares t, holding_days t,
                                forced_exit t, exit_reason t, within_target_period t))
                     (fst r))
       (execute_trades self df signals 0 0 0 long)
     = Some [(ns_per_day, ns_per_day, 2, 0, true, end_of_data, true)].
Proof.
  cbv zeta. repeat split; vm_compute; reflexivity.
Qed.

(** ** Share counts *)

Lemma Qltb_lt (x y : Q) : Qltb x y = true <-> (x < y)%Q.
Proof.
  unfold Qltb. rewrite negb_true_iff. split.
  - intro H. apply Qnot_le_lt. intro L. apply Qle_bool_iff in L. congruence.
  - intro H. destruct (Qle_bool y x) eqn:E; [|reflexivity].
    apply Qle_bool_iff in E. apply Qle_not_lt in E. contradiction.
Qed.

Lemma py_int_floor (q : Q) : (0 <= q)%Q -> py_int q = Qfloor q.
Proof.
  destruct q as [n d]. unfold Qle, py_int, Qfloor. simpl. intro H.
  apply Z.quot_div_nonneg; lia.
Qed.

Lemma py_int_bounds (q : Q) :
  (0 <= q)%Q -> 0 <= py_int q /\ (inject_Z (py_int q) <= q)%Q.
Proof.
  intro H. rewrite (py_int_floor q H). split; [|apply Qfloor_le].
  change 0 with (Qfloor 0). now apply Qfloor_resp_le.
Qed.

(** A share count other than 0 bought out of a cash of zero or more: the
    price is positive, the count is positive, and the cost is covered. *)
Lemma vec_position_affordable (cash entry_price : Q) :
  (0 <= cash)%Q ->
  vec_position cash entry_price <> 0 ->
  (0 < entry_price)%Q
  /\ 0 < vec_position cash entry_price
  /\ (inject_Z (vec_position cash entry_price) * entry_price <= cash)%Q.
Proof.
  intros C. unfold vec_position.
  destruct (Qltb 0 entry_price) eqn:E; [|congruence].
  apply Qltb_lt in E. intro NZ.
  assert (D : (0 <= cash / entry_price)%Q).
  { apply Qle_shift_div_l; [assumption|]. now rewrite Qmult_0_l. }
  destruct (py_int_bounds _ D) as [P1 P2].
  split; [assumption|]. split; [lia|].
  apply (Qmult_le_compat_r _ _ entry_price) in P2; [|now apply Qlt_le_weak].
  eapply Qle_trans; [exact P2|]. apply Qle_lteq. right. field.
  intro Z. rewrite Z in E. now apply Qlt_irrefl in E.
Qed.

(** ** Equity curves of funded trades *)

Lemma assign_from_Forall {A : Type} (P : A -> Prop) (f : nat -> A -> A) (lo hi : nat)
    (a : list A) (k : nat) :
  (forall i x, P (f i x)) -> Forall P a -> Forall P (assign_from f lo hi a k).
Proof.
  intros Hf F. revert k. induction F as [|x a Px F IH]; intro k; simpl; constructor.
  - destruct (_ && _); [apply Hf|assumption].
  - apply IH.
Qed.

Lemma assign_slice_Forall {A : Type} (P : A -> Prop) (a : list A) (lo hi : nat)
    (f : nat -> A -> A) :
  (forall i x, P (f i x)) -> Forall P a -> Forall P (assign_slice a lo hi f).
Proof. apply assign_from_Forall. Qed.

Lemma funded_compat (c c' : Q) (trades : list Trade) :
  (c == c')%Q -> funded c trades -> funded c' trades.
Proof.
  revert c c'. induction trades as [|t trades IH]; intros c c' E; simpl; [trivial|].
  intros (H1 & H2 & H3 & H4). repeat split; [assumption| | |].
  - now rewrite <- E.
  - now rewrite <- E.
  - apply (IH (c + profit t)%Q); [|assumption]. now rewrite E.
Qed.

Lemma funded_app_one (c : Q) (trades : list Trade) (t : Trade) :
  funded c trades ->
  (0 <= inject_Z (shares t))%Q ->
  (inject_Z (shares t) * entry_price t <= cash_after_trades c trades)%Q ->
  (0 <= cash_after_trades c trades + profit t)%Q ->
  funded c (trades ++ [t]).
Proof.
  revert c. induction trades as [|u trades IH]; intros c F H1 H2 H3; simpl in *.
  - auto.
  - destruct F as (F1 & F2 & F3 & F4). repeat split; try assumption.
    now apply IH.
Qed.

Lemma cash_after_trades_app (c : Q) (trades : list Trade) (t : Trade) :
  cash_after_trades c (trades ++ [t]) = (cash_after_trades c trades + profit t)%Q.
Proof.
  unfold cash_after_trades. now rewrite fold_left_app.
Qed.

Lemma equity_body_non_negative (n : nat) (dates : list Z) (prices : list Q)
    (t : Trade) (equity : list Q) (cash : Q) :
  (forall k, 0 <= nth k prices 0)%Q ->
  (0 <= cash)%Q ->
  Forall (fun v => 0 <= v)%Q equity ->
  (0 <= inject_Z (shares t))%Q ->
  (inject_Z (shares t) * entry_price t <= cash)%Q ->
  (0 <= cash + profit t)%Q ->
  Forall (fun v => 0 <= v)%Q (fst (equity_body n dates prices long (equity, cash) t))
  /\ snd (equity_body n dates prices long (equity, cash) t) = (cash + profit t)%Q.
Proof.
  intros Hp C F S1 S2 S3. unfold equity_body. split; [|reflexivity].
  cbn [fst].
  repeat match goal with
         | |- Forall _ (if ?c then _ else _) => destruct c
         | |- Forall _ (assign_slice _ _ _ _) => apply assign_slice_Forall
         end; try assumption; intros i x; try assumption.
  all: pose proof (Qmult_le_0_compat _ _ S1 (Hp i)) as H;
    revert S2 H;
    generalize (inject_Z (shares t) * entry_price t)%Q
               (inject_Z (shares t) * nth i prices 0)%Q;
    intros; Lqa.lra.
Qed.

(** Replaying funded long trades over closes of zero or more keeps every
    value of the curve at zero or more. *)
Lemma equity_fold_non_negative (n : nat) (dates : list Z) (prices : list Q)
    (trades : list Trade) (equity : list Q) (cash : Q) :
  (forall k, 0 <= nth k prices 0)%Q ->
  (0 <= cash)%Q ->
  Forall (fun v => 0 <= v)%Q equity ->
  funded cash trades ->
  Forall (fun v => 0 <= v)%Q
         (fst (fold_left (equity_body n dates prices long) trades (equity, cash))).
Proof.
  intros Hp. revert equity cash.
  induction trades as [|t trades IH]; intros equity cash C F Fu; [exact F|].
  cbn [fold_left]. destruct Fu as (S1 & S2 & S3 & S4).
  destruct (equity_body_non_negative n dates prices t equity cash Hp C F S1 S2 S3)
    as [B1 B2].
  destruct (equity_body n dates prices long (equity, cash) t) as [equity' cash'].
  simpl in B1, B2. subst cash'. apply IH; assumption.
Qed.

(** ** The batch simulator funds its long trades *)

(** With no commission, a long run keeps a cash of zero or more, its
    trades are funded, and its cash is the initial capital plus the
    realised profits. *)
Lemma vec_body_funded (self : BacktestEngine) (df : DataFrame)
    (exit_candidates : list nat) (commission slippage lending_rate : Q)
    (s s' : VecState) (entry_idx : nat) (capital : Q) :
  (commission == 0)%Q -> (0 <= slippage <= 1)%Q -> non_negative_closes df ->
  let P := fun s =>
    (0 <= v_cash s)%Q /\ funded capital (v_trades s)
    /\ (v_cash s == cash_after_trades capital (v_trades s))%Q in
  P s ->
  vec_body self df exit_candidates commission slippage lending_rate long s entry_idx
  = Some s' ->
  P s'.
Proof.
  intros Hc Hs Hp P (C & Fu & Eq) B.
  apply vec_body_Some in B. destruct B as [[_ ->]|[_ B]]; [now repeat split|].
  destruct B as (be & bx & exit_idx & forced & reason & E1 & E2 & _ & ->).
  cbv zeta.
  destruct (Z.eqb_spec (vec_position (v_cash s) (Close be * (1 + slippage))) 0)
    as [_|NZ]; [now repeat split|].
  destruct (vec_position_affordable _ _ C NZ) as (A1 & A2 & A3).
  set (pos := vec_position (v_cash s) (Close be * (1 + slippage))) in *.
  set (ep := (Close be * (1 + slippage))%Q) in *.
  assert (Xp : (0 <= Close bx * (1 - slippage))%Q).
  { apply Qmult_le_0_compat; [|Lqa.lra].
    unfold non_negative_closes in Hp. rewrite Forall_forall in Hp.
    apply Hp. now apply nth_error_In in E2. }
  set (xp := (Close bx * (1 - slippage))%Q) in *.
  assert (Ap : (0 <= inject_Z pos)%Q).
  { change 0%Q with (inject_Z 0). rewrite <- Zle_Qle. lia. }
  assert (Pr : (0 <= inject_Z pos * xp)%Q) by now apply Qmult_le_0_compat.
  assert (Cash' : (vec_cash_after commission lending_rate long (v_cash s) (Date be)
                     (Date bx) ep xp pos
                   == v_cash s - inject_Z pos * ep + inject_Z pos * xp)%Q).
  { unfold vec_cash_after, vec_lending_cost. rewrite Hc. ring. }
  assert (Profit : (v_cash s
                    + profit (vec_trade self commission lending_rate long (Date be)
                                (Date bx) ep xp pos forced reason)
                    == v_cash s - inject_Z pos * ep + inject_Z pos * xp)%Q).
  { unfold vec_trade. cbn [profit]. rewrite Hc. ring. }
  unfold P. cbn [v_cash v_trades]. split; [|split].
  - rewrite Cash'. revert A3 Pr. generalize (inject_Z pos * ep)%Q (inject_Z pos * xp)%Q.
    intros; Lqa.lra.
  - apply funded_app_one; try assumption.
    + cbn [vec_trade shares entry_price]. now rewrite <- Eq.
    + rewrite <- Eq, Profit. revert A3 Pr.
      generalize (inject_Z pos * ep)%Q (inject_Z pos * xp)%Q. intros; Lqa.lra.
  - rewrite cash_after_trades_app, <- Eq, Profit. exact Cash'.
Qed.

Lemma nth_non_negative (df : DataFrame) (k : nat) :
  non_negative_closes df -> (0 <= nth k (map Close (rows df)) 0)%Q.
Proof.
  unfold non_negative_closes. intro F.
  destruct (Nat.lt_ge_cases k (length (map Close (rows df)))) as [L|G].
  - rewrite Forall_forall in F.
    assert (I : In (nth k (map Close (rows df)) 0%Q) (map Close (rows df)))
      by now apply nth_In.
    apply in_map_iff in I. destruct I as (bar & <- & I). now apply F.
  - rewrite nth_overflow by assumption. apply Qle_refl.
Qed.

(** The equity curve of a long run of the batch simulator without
    commission never goes below zero. *)
Lemma vectorized_long_equity_non_negative (self : BacktestEngine) (df : DataFrame)
    (signals : list Z) (commission slippage lending_rate : Q)
    (trades : list Trade) (equity : list Q) :
  (0 <= initial_capital self)%Q ->
  (commission == 0)%Q -> (0 <= slippage <= 1)%Q -> non_negative_closes df ->
  execute_trades_vectorized self df signals commission slippage lending_rate long
  = Some (trades, equity) ->
  Forall (fun v => 0 <= v)%Q equity.
Proof.
  intros C0 Hc Hs Hp. unfold execute_trades_vectorized.
  destruct (length (rows df) =? 0)%nat.
  { intro H. injection H as _ <-. constructor. }
  destruct (vec_loop _ _ _) as [s|] eqn:E; [|discriminate]. simpl.
  intro H. injection H as _ <-.
  assert (I : (0 <= v_cash s)%Q /\ funded (initial_capital self) (v_trades s)
              /\ (v_cash s == cash_after_trades (initial_capital self) (v_trades s))%Q).
  { refine (vec_loop_invariant _
              (fun s => (0 <= v_cash s)%Q /\ funded (initial_capital self) (v_trades s)
                        /\ (v_cash s
                            == cash_after_trades (initial_capital self) (v_trades s))%Q)
              _ _ _ _ _ E).
    - intros s1 e s2 _ P1 B.
      apply (vec_body_funded self df (np_where_eq signals (-1)) commission slippage
               lending_rate s1 s2 e (initial_capital self) Hc Hs Hp P1 B).
    - simpl. split; [assumption|]. split; [constructor|apply Qeq_refl]. }
  destruct I as (_ & Fu & _).
  assert (R : Forall (fun v => 0 <= v)%Q
                (repeat (initial_capital self) (length (rows df)))).
  { apply Forall_forall. intros v Hv. apply repeat_spec in Hv. now subst. }
  unfold calculate_equity_from_trades_vectorized.
  destruct (v_trades s) as [|t ts] eqn:T; [exact R|]. rewrite <- T in *.
  apply equity_fold_non_negative; try assumption.
  intro k. now apply nth_non_negative.
Qed.

(** ** Invariants of the per-bar scan *)

Lemma run_steps_invariant (f : SimState -> Bar -> Z -> option SimState)
    (P : SimState -> Prop) (bars : list Bar) (signals : list Z) (s s' : SimState) :
  (forall s bar sig s', In bar bars -> P s -> f s bar sig = Some s' -> P s') ->
  P s -> run_steps f bars signals s = Some s' -> P s'.
Proof.
  revert signals s. induction bars as [|bar bars IH]; intros signals s Step Ps; simpl.
  - intro H. now injection H as <-.
  - destruct signals as [|sig signals]; [discriminate|].
    destruct (f s bar sig) as [s1|] eqn:E; [|discriminate]. simpl.
    apply IH.
    + intros s2 b2 sig2 s3 H. apply Step. now right.
    + apply (Step s bar sig s1); [now left|assumption|assumption].
Qed.

(** With no commission a long per-bar scan keeps a cash and a share count
    of zero or more, and appends equity values of zero or more. *)
Lemma step_long_non_negative (self : BacktestEngine) (commission slippage lending_rate : Q)
    (s s' : SimState) (bar : Bar) (sig : Z) :
  (commission == 0)%Q -> (0 <= slippage <= 1)%Q -> (0 <= Close bar)%Q ->
  let P := fun s =>
    (0 <= s_cash s)%Q /\ 0 <= s_position s
    /\ Forall (fun v => 0 <= v)%Q (s_equity s) in
  P s ->
  step self commission slippage lending_rate long s bar sig = Some s' ->
  P s'.
Proof.
  intros Hc Hs Hp P (C & Pos & F).
  assert (Ap : (0 <= inject_Z (s_position s))%Q).
  { change 0%Q with (inject_Z 0). now rewrite <- Zle_Qle. }
  assert (V : (0 <= inject_Z (s_position s) * Close bar)%Q)
    by now apply Qmult_le_0_compat.
  assert (F' : Forall (fun v => 0 <= v)%Q
                 (s_equity s
                  ++ [if s_position s =? 0 then s_cash s
                      else (s_cash s + inject_Z (s_position s) * Close bar)%Q])).
  { apply Forall_app. split; [assumption|]. repeat constructor.
    destruct (s_position s =? 0); [assumption|].
    revert V. generalize (inject_Z (s_position s) * Close bar)%Q. intros; Lqa.lra. }
  unfold step.
  destruct ((sig =? 1) && (s_position s =? 0)) eqn:Enter.
  - destruct (Qeq_bool (Close bar * (1 + slippage)) 0) eqn:Z; [discriminate|].
    apply Qeq_bool_neq in Z.
    assert (Ep : (0 < Close bar * (1 + slippage))%Q).
    { apply Qle_lteq in Hp. destruct Hp as [Hp|Hp].
      - apply Qmult_lt_0_compat; [assumption|Lqa.lra].
      - exfalso. apply Z. rewrite <- Hp. ring. }
    revert Z Ep. generalize (Close bar * (1 + slippage))%Q. intros ep Z Ep.
    assert (D : (0 <= s_cash s / ep)%Q).
    { apply Qle_shift_div_l; [assumption|]. now rewrite Qmult_0_l. }
    destruct (py_int_bounds _ D) as [B1 B2].
    destruct (Z.gtb_spec (py_int (s_cash s / ep)) 0) as [G|G];
      intro H; injection H as <-; unfold P; cbn [s_cash s_position s_equity];
      repeat split; try assumption.
    apply (Qmult_le_compat_r _ _ ep) in B2; [|now apply Qlt_le_weak].
    assert (E : (s_cash s / ep * ep == s_cash s)%Q) by (field; exact Z).
    rewrite E in B2. rewrite Hc. revert B2.
    generalize (inject_Z (py_int (s_cash s / ep)) * ep)%Q.
    intros; Lqa.lra.
  - destruct (((sig =? -1) || _) && (s_position s >? 0)).
    + destruct (if _ : bool then (forced_max, true) else (signal, false)) as [r fl].
      intro H; injection H as <-; unfold P; cbn [s_cash s_position s_equity].
      repeat split; try assumption; [|lia].
      assert (Xp : (0 <= inject_Z (s_position s) * (Close bar * (1 - slippage)))%Q).
      { apply Qmult_le_0_compat; [assumption|].
        apply Qmult_le_0_compat; [assumption|Lqa.lra]. }
      unfold per_bar_exit_cash, per_bar_lending_cost. rewrite Hc. revert Xp.
      generalize (inject_Z (s_position s) * (Close bar * (1 - slippage)))%Q.
      intros; Lqa.lra.
    + intro H; injection H as <-; unfold P; cbn [s_cash s_position s_equity].
      repeat split; assumption.
Qed.

(** The equity curve of a long per-bar scan without commission never goes
    below zero. *)
Lemma per_bar_long_equity_non_negative (self : BacktestEngine) (df : DataFrame)
    (signals : list Z) (commission slippage lending_rate : Q)
    (trades : list Trade) (equity : list Q) :
  (0 <= initial_capital self)%Q ->
  (commission == 0)%Q -> (0 <= slippage <= 1)%Q -> non_negative_closes df ->
  execute_trades self df signals commission slippage lending_rate long
  = Some (trades, equity) ->
  Forall (fun v => 0 <= v)%Q equity.
Proof.
  intros C0 Hc Hs Hp. unfold execute_trades.
  destruct (run_steps _ _ _ _) as [s|] eqn:E; [|discriminate]. simpl.
  intro H. injection H as _ <-.
  refine (proj2 (proj2 (run_steps_invariant _
            (fun s => (0 <= s_cash s)%Q /\ 0 <= s_position s
                      /\ Forall (fun v => 0 <= v)%Q (s_equity s))
            _ _ _ _ _ _ E))).
  - intros s1 bar sig s2 Hb P1 B.
    unfold non_negative_closes in Hp. rewrite Forall_forall in Hp.
    apply (step_long_non_negative self commission slippage lending_rate s1 s2 bar sig
             Hc Hs (Hp bar Hb) P1 B).
  - simpl. repeat split; [assumption|lia|constructor].
Qed.

(** ** Equity curves below zero *)


(** A long run with a 1% commission: the share count ignores the
    commission, and after a collapse of the close the cash left after the
    exit is below zero. *)
Lemma long_equity_negative_with_commission :
  exists trades equity,
    execute_trades_vectorized (engine_with 1000 false)
                              (daily_frame [100; 1 # 2; 1 # 2]%Q) [1; -1; 0]
                              (1 # 100) 0 0 long = Some (trades, equity)
    /\ (nth 2 equity 0 < 0)%Q.
Proof.
  eexists _, _. split; [vm_compute; reflexivity|]. reflexivity.
Qed.

(** The reconstructor replays a valid trade with the cash of the valid
    trades only.  Here the first trade (held 20 days, excluded) multiplied
    the capital by ten and the second one (valid) was sized on that cash:
    replayed alone on the initial capital it shows -400. *)
Lemma reconstructed_equity_goes_negative :
  let self := engine_with 100 false in
  let df := daily_frame (100 :: repeat 100 19 ++ [1000; 100; 50; 50])%Q in
  let signals := 1 :: repeat 0 19 ++ [-1; 1; -1; 0] in
  exists trades equity valid forced excluded,
    execute_trades_vectorized self df signals 0 0 0 long = Some (trades, equity)
    /\ classify_trades self trades = (valid, forced, excluded)
    /\ length valid = 1%nat /\ length excluded = 1%nat
    /\ (nth 22 (calculate_valid_equity_curve self df valid 0 0 0 long) 0 == -400)%Q.
Proof.
  cbv zeta. eexists _, _, _, _, _.
  split; [vm_compute; reflexivity|].
  split; [vm_compute; reflexivity|].
  repeat split.
Qed.



(** ** The two simulators *)


(** ** Steps of the per-bar scan *)

Lemma py_int_opp (q : Q) : py_int (- q) = - py_int q.
Proof.
  destruct q as [n d]. unfold py_int. simpl. apply Z.quot_opp_l. discriminate.
Qed.

Lemma py_int_comp (q q' : Q) : (q == q')%Q -> py_int q = py_int q'.
Proof.
  intro E. destruct (Qlt_le_dec q 0) as [N|P].
  - assert (N' : (q' < 0)%Q) by now rewrite <- E.
    assert (H : py_int (- q) = py_int (- q')).
    { rewrite !py_int_floor by Lqa.lra. apply Qfloor_comp. now rewrite E. }
    rewrite !py_int_opp in H. lia.
  - assert (P' : (0 <= q')%Q) by now rewrite <- E.
    rewrite !py_int_floor by assumption. now apply Qfloor_comp.
Qed.

Lemma step_idle (self : BacktestEngine) (commission slippage lending_rate : Q)
    (strategy_type : StrategyType) (s : SimState) (bar : Bar) (sig : Z) :
  flat s -> sig <> 1 ->
  exists s',
    step self commission slippage lending_rate strategy_type s bar sig = Some s'
    /\ flat s' /\ s_cash s' = s_cash s /\ s_trades s' = s_trades s.
Proof.
  intros [P D] N. unfold step, force_exit_now. rewrite P, D.
  destruct (Z.eqb_spec sig 1) as [E|_]; [contradiction|]. simpl.
  rewrite andb_false_r. eexists. split; [reflexivity|].
  unfold flat. simpl. auto.
Qed.

Lemma step_enter (self : BacktestEngine) (commission slippage lending_rate : Q)
    (strategy_type : StrategyType) (s : SimState) (bar : Bar) :
  flat s ->
  ~ (Close bar * (1 + slippage) == 0)%Q ->
  0 < py_int (s_cash s / (Close bar * (1 + slippage))) ->
  exists s',
    step self commission slippage lending_rate strategy_type s bar 1 = Some s'
    /\ holding s' (py_int (s_cash s / (Close bar * (1 + slippage))))
               (Close bar * (1 + slippage))%Q (Date bar)
    /\ s_cash s'
       = (s_cash s
          - (inject_Z (py_int (s_cash s / (Close bar * (1 + slippage))))
             * (Close bar * (1 + slippage))
             + inject_Z (py_int (s_cash s / (Close bar * (1 + slippage))))
               * (Close bar * (1 + slippage)) * commission))%Q
    /\ s_trades s' = s_trades s.
Proof.
  intros [P D] NZ Pos. unfold step. rewrite P. simpl.
  destruct (Qeq_bool (Close bar * (1 + slippage)) 0) eqn:Z.
  - apply Qeq_bool_iff in Z. contradiction.
  - destruct (Z.gtb_spec (py_int (s_cash s / (Close bar * (1 + slippage)))) 0) as [_|G];
      [|lia].
    eexists. split; [reflexivity|]. unfold holding. simpl. auto 10.
Qed.

Lemma step_hold (self : BacktestEngine) (commission slippage lending_rate : Q)
    (strategy_type : StrategyType) (s : SimState) (bar : Bar) (sig : Z)
    (position : Z) (price : Q) (date : Z) :
  holding s position price date ->
  sig <> -1 ->
  days_between (Date bar) date < max_holding_days self ->
  exists s',
    step self commission slippage lending_rate strategy_type s bar sig = Some s'
    /\ holding s' position price date
    /\ s_cash s' = s_cash s /\ s_trades s' = s_trades s.
Proof.
  intros (P & Pos & Pr & D) N Days. unfold step, force_exit_now. rewrite P, D.
  destruct (Z.eqb_spec position 0) as [E|_]; [lia|]. rewrite andb_false_r.
  destruct (Z.eqb_spec sig (-1)) as [E|_]; [contradiction|].
  destruct (Z.geb_spec (days_between (Date bar) date) (max_holding_days self)) as [G|_];
    [lia|].
  rewrite andb_false_r. simpl.
  eexists. split; [reflexivity|]. unfold holding. simpl. auto 10.
Qed.

Lemma step_exit (self : BacktestEngine) (commission slippage lending_rate : Q)
    (strategy_type : StrategyType) (s : SimState) (bar : Bar) (sig : Z)
    (position : Z) (price : Q) (date : Z) :
  holding s position price date ->
  sig = -1 \/ max_holding_days self <= days_between (Date bar) date ->
  let forced := days_between (Date bar) date >=? max_holding_days self in
  exists s',
    step self commission slippage lending_rate strategy_type s bar sig = Some s'
    /\ flat s'
    /\ s_cash s'
       = per_bar_exit_cash commission slippage lending_rate strategy_type s bar
    /\ s_trades s'
       = s_trades s
           ++ [per_bar_trade self commission lending_rate strategy_type s (Date bar)
                             (Close bar * (1 - slippage))%Q forced
                             (if forced then forced_max else signal)].
Proof.
  intros (P & Pos & Pr & D) Ex forced. unfold step, force_exit_now. rewrite P, D.
  destruct (Z.eqb_spec position 0) as [E|_]; [lia|]. rewrite andb_false_r.
  destruct (Z.gtb_spec position 0) as [_|G]; [|lia]. rewrite andb_true_r.
  cbn [andb]. fold forced.
  assert (C : (sig =? -1) || forced = true).
  { destruct Ex as [->|Ex]; [reflexivity|]. apply orb_true_iff. right.
    unfold forced. destruct (Z.geb_spec (days_between (Date bar) date)
                               (max_holding_days self)); [reflexivity|lia]. }
  rewrite C. destruct forced; eexists; (split; [reflexivity|]);
    unfold flat; simpl; auto.
Qed.

(** ** Runs of the per-bar scan *)

Lemma skipn_nth_error_cons {A : Type} (l : list A) (k : nat) (x : A) :
  nth_error l k = Some x -> skipn k l = x :: skipn (S k) l.
Proof.
  revert l. induction k as [|k IH]; intros [|y l] H; try discriminate.
  - now injection H as ->.
  - simpl in H. apply IH in H. exact H.
Qed.

Section PerBarRuns.

Variables (self : BacktestEngine) (df : DataFrame) (signals : list Z).
Variables (commission slippage lending_rate : Q) (strategy_type : StrategyType).

Hypothesis same_length : length signals = length (rows df).

Local Notation "'reach'" :=
  (reached self df signals commission slippage lending_rate strategy_type).
Local Notation "'per_bar_step'" :=
  (step self commission slippage lending_rate strategy_type).

(** A reached state is where the loop stands: running the rest of the
    rows from it is running all the rows from the start. *)
Lemma reached_run (k : nat) (s : SimState) :
  reach k s ->
  run_steps per_bar_step (skipn k (rows df)) (skipn k signals) s
  = run_steps per_bar_step (rows df) signals
              (mkSimState (initial_capital self) 0 0 None [] []).
Proof.
  induction 1 as [|k s s' bar sig R IH Hb Hs St]; [reflexivity|].
  rewrite <- IH.
  rewrite (skipn_nth_error_cons _ _ _ Hb), (skipn_nth_error_cons _ _ _ Hs).
  cbn [run_steps]. rewrite St. reflexivity.
Qed.

Lemma reached_end (s : SimState) :
  reach (length (rows df)) s ->
  run_steps per_bar_step (rows df) signals
            (mkSimState (initial_capital self) 0 0 None [] []) = Some s.
Proof.
  intro R. rewrite <- (reached_run _ _ R). now rewrite skipn_all.
Qed.

Lemma bar_and_signal (k : nat) :
  (k < length (rows df))%nat ->
  exists bar sig, nth_error (rows df) k = Some bar /\ nth_error signals k = Some sig.
Proof.
  intro L.
  destruct (nth_error (rows df) k) as [bar|] eqn:B.
  2:{ apply nth_error_None in B. lia. }
  destruct (nth_error signals k) as [sig|] eqn:S.
  2:{ apply nth_error_None in S. lia. }
  eauto.
Qed.

(** Without a position, the scan idles over bars that carry no Enter. *)
Lemma flat_scan (d i : nat) (s : SimState) :
  reach i s -> flat s -> (i + d <= length (rows df))%nat ->
  (forall k, (i <= k < i + d)%nat -> nth_error signals k <> Some 1) ->
  exists s',
    reach (i + d) s' /\ flat s' /\ s_cash s' = s_cash s /\ s_trades s' = s_trades s.
Proof.
  induction d as [|d IH]; intros R F L N.
  - rewrite Nat.add_0_r. eauto.
  - destruct IH as (s1 & R1 & F1 & C1 & T1); try assumption; [lia| |].
    { intros k Hk. apply N. lia. }
    destruct (bar_and_signal (i + d)) as (bar & sig & Hb & Hs); [lia|].
    destruct (step_idle self commission slippage lending_rate strategy_type s1 bar sig F1)
      as (s2 & St & F2 & C2 & T2).
    { intros ->. apply (N (i + d)%nat); [lia|assumption]. }
    exists s2. replace (i + S d)%nat with (S (i + d)) by lia.
    repeat split; try apply F2; try congruence.
    now apply (reached_step _ _ _ _ _ _ _ _ s1 s2 bar sig).
Qed.

(** With a position, the scan holds it over bars that carry no Exit and
    are short of the maximum holding period. *)
Lemma hold_scan (d i : nat) (s : SimState) (position : Z) (price : Q) (date : Z) :
  reach i s -> holding s position price date -> (i + d <= length (rows df))%nat ->
  (forall k bar, (i <= k < i + d)%nat -> nth_error (rows df) k = Some bar ->
                 nth_error signals k <> Some (-1)
                 /\ days_between (Date bar) date < max_holding_days self) ->
  exists s',
    reach (i + d) s' /\ holding s' position price date
    /\ s_cash s' = s_cash s /\ s_trades s' = s_trades s.
Proof.
  induction d as [|d IH]; intros R H L N.
  - rewrite Nat.add_0_r. eauto.
  - destruct IH as (s1 & R1 & H1 & C1 & T1); try assumption; [lia| |].
    { intros k bar Hk. apply N. lia. }
    destruct (bar_and_signal (i + d)) as (bar & sig & Hb & Hs); [lia|].
    destruct (N (i + d)%nat bar ltac:(lia) Hb) as [NS ND].
    destruct (step_hold self commission slippage lending_rate strategy_type s1 bar sig
                position price date H1) as (s2 & St & H2 & C2 & T2);
      [congruence|assumption|].
    exists s2. replace (i + S d)%nat with (S (i + d)) by lia.
    repeat split; try apply H2; try congruence.
    now apply (reached_step _ _ _ _ _ _ _ _ s1 s2 bar sig).
Qed.

End PerBarRuns.

(** ** The exit triggers of the batch simulator, bar by bar *)

Lemma nth_error_slice {A : Type} (a : list A) (lo hi i : nat) :
  nth_error (slice a lo hi) i
  = if (i <? hi - lo)%nat then nth_error a (lo + i) else None.
Proof.
  unfold slice. destruct (Nat.ltb_spec i (hi - lo)) as [L|G].
  - rewrite nth_error_firstn.
    destruct (Nat.ltb_spec i (hi - lo)); [|lia]. apply nth_error_skipn.
  - apply nth_error_None. rewrite length_firstn. lia.
Qed.

Lemma nth_true_nth_error (mask : list bool) (i : nat) :
  nth i mask false = true -> nth_error mask i = Some true.
Proof.
  revert i. induction mask as [|b mask IH]; intros [|i] H; simpl in *;
    try discriminate; [now subst|now apply IH].
Qed.

Lemma nth_false_nth_error (mask : list bool) (i : nat) (b : bool) :
  nth i mask false = false -> nth_error mask i = Some b -> b = false.
Proof.
  revert i. induction mask as [|c mask IH]; intros [|i] H E; simpl in *;
    try discriminate; [congruence|now apply (IH i)].
Qed.

(** The mask of the forced exit, read at the bar [entry_idx + 1 + i]. *)
Lemma forced_mask_nth_error (self : BacktestEngine) (df : DataFrame)
    (entry_idx hi i : nat) (entry_ns : Z) (b : bool) :
  nth_error
    (map (fun d => d >=? max_holding_days self)
         (map (fun d => (d - entry_ns) / ns_per_day)
              (slice (map Date (rows df)) (entry_idx + 1) hi))) i = Some b ->
  (entry_idx + 1 + i < hi)%nat
  /\ exists bar, nth_error (rows df) (entry_idx + 1 + i) = Some bar
                 /\ b = (days_between (Date bar) entry_ns >=? max_holding_days self).
Proof.
  rewrite !nth_error_map, nth_error_slice.
  destruct (Nat.ltb_spec i (hi - (entry_idx + 1))) as [L|G]; [|discriminate].
  rewrite nth_error_map.
  destruct (nth_error (rows df) (entry_idx + 1 + i)) as [bar|]; [|discriminate].
  simpl. intro H. injection H as <-. split; [lia|]. now exists bar.
Qed.

Lemma forced_exit_index_Some (self : BacktestEngine) (df : DataFrame)
    (entry_idx : nat) (entry_ns : Z) (f : nat) :
  forced_exit_index self (map Date (rows df)) (length (rows df)) entry_idx entry_ns
  = Some f ->
  (entry_idx < f)%nat
  /\ (exists bar, nth_error (rows df) f = Some bar
                  /\ max_holding_days self <= days_between (Date bar) entry_ns)
  /\ (forall k bar, (entry_idx < k < f)%nat -> nth_error (rows df) k = Some bar ->
                    days_between (Date bar) entry_ns < max_holding_days self).
Proof.
  unfold forced_exit_index.
  set (hi := Z.to_nat (Z.min (Z.of_nat entry_idx + max_holding_days self + 2)
                             (Z.of_nat (length (rows df))))).
  destruct (Z.of_nat entry_idx + 1 <? _); [|discriminate].
  match goal with
  | |- context [any ?m] => set (mask := m); destruct (any mask) eqn:A; [|discriminate]
  end.
  apply any_argmax in A. destruct A as (A1 & A2 & A3).
  intro H. injection H as <-.
  apply nth_true_nth_error in A2.
  apply forced_mask_nth_error in A2. destruct A2 as (L & bar & Hb & E).
  split; [lia|]. split.
  - exists bar. split; [assumption|].
    symmetry in E. destruct (Z.geb_spec (days_between (Date bar) entry_ns)
                               (max_holding_days self)); [lia|discriminate].
  - intros k bk Hk Hbk.
    assert (Ek : k = (entry_idx + 1 + (k - entry_idx - 1))%nat) by lia.
    specialize (A3 (k - entry_idx - 1)%nat ltac:(lia)).
    destruct (nth_error mask (k - entry_idx - 1)) as [b|] eqn:N.
    + pose proof (nth_false_nth_error _ _ _ A3 N) as ->.
      apply forced_mask_nth_error in N. destruct N as (_ & bar' & Hb' & E').
      rewrite <- Ek, Hbk in Hb'. injection Hb' as <-.
      destruct (Z.geb_spec (days_between (Date bk) entry_ns)
                  (max_holding_days self)); [discriminate|lia].
    + apply nth_error_None in N. lia.
Qed.

Lemma forced_exit_index_None (self : BacktestEngine) (df : DataFrame)
    (entry_idx : nat) (entry_ns : Z) (k : nat) (bar : Bar) :
  forced_exit_index self (map Date (rows df)) (length (rows df)) entry_idx entry_ns
  = None ->
  (entry_idx < k)%nat ->
  Z.of_nat k < Z.of_nat entry_idx + max_holding_days self + 2 ->
  nth_error (rows df) k = Some bar ->
  days_between (Date bar) entry_ns < max_holding_days self.
Proof.
  unfold forced_exit_index. intros H Hk Hw Hb.
  assert (Kn : (k < length (rows df))%nat) by (apply nth_error_Some; congruence).
  set (hi := Z.to_nat (Z.min (Z.of_nat entry_idx + max_holding_days self + 2)
                             (Z.of_nat (length (rows df))))) in *.
  destruct (Z.ltb_spec (Z.of_nat entry_idx + 1)
              (Z.min (Z.of_nat entry_idx + max_holding_days self + 2)
                     (Z.of_nat (length (rows df))))) as [W|W]; [|lia].
  match type of H with
  | context [any ?m] => set (mask := m) in *; destruct (any mask) eqn:A; [discriminate|]
  end.
  pose proof (any_false _ A (k - entry_idx - 1)%nat) as F.
  destruct (nth_error mask (k - entry_idx - 1)) as [b|] eqn:N.
  - pose proof (nth_false_nth_error _ _ _ F N) as ->.
    apply forced_mask_nth_error in N. destruct N as (_ & bar' & Hb' & E').
    replace (entry_idx + 1 + (k - entry_idx - 1))%nat with k in Hb' by lia.
    rewrite Hb in Hb'. injection Hb' as <-.
    destruct (Z.geb_spec (days_between (Date bar) entry_ns)
                (max_holding_days self)); [discriminate|lia].
  - apply nth_error_None in N. unfold mask in N. rewrite !length_map in N.
    unfold slice in N. rewrite length_firstn, length_skipn, length_map in N.
    unfold hi in N. lia.
Qed.

(** What follows the insertion point among the positions of the Exit
    signals: nothing when no Exit follows the entry, otherwise the first
    Exit after it. *)
Lemma valid_exits_spec (signals : list Z) (entry_idx : nat) :
  match skipn (searchsorted_right (np_where_eq signals (-1)) entry_idx)
              (np_where_eq signals (-1)) with
  | [] => forall k, (entry_idx < k)%nat -> nth_error signals k <> Some (-1)
  | x :: _ =>
      (entry_idx < x)%nat /\ nth_error signals x = Some (-1)
      /\ forall k, (entry_idx < k < x)%nat -> nth_error signals k <> Some (-1)
  end.
Proof.
  destruct (searchsorted_right_spec (np_where_eq signals (-1)) entry_idx
              (np_where_eq_sorted signals (-1))) as [In_skip First].
  destruct (skipn _ (np_where_eq signals (-1))) as [|x rest] eqn:E.
  - intros k Hk N. apply np_where_eq_In in N.
    assert (H : In k []) by (apply In_skip; tauto). contradiction.
  - assert (H : In x (x :: rest)) by now left.
    apply In_skip in H. destruct H as [H1 H2]. apply np_where_eq_In in H1.
    repeat split; try assumption.
    intros k Hk N. apply np_where_eq_In in N.
    specialize (First x rest eq_refl k N). lia.
Qed.

(** On bars at least one day apart, [k] bars later is at least [k] days
    later. *)
Lemma spaced_days (df : DataFrame) (d e : nat) (entry_bar bar : Bar) :
  daily_spaced df ->
  nth_error (rows df) e = Some entry_bar ->
  nth_error (rows df) (e + d) = Some bar ->
  Date entry_bar + Z.of_nat d * ns_per_day <= Date bar
  /\ Z.of_nat d <= days_between (Date bar) (Date entry_bar).
Proof.
  intros Sp He. revert bar.
  assert (Step : forall d bar, nth_error (rows df) (e + d) = Some bar ->
                   Date entry_bar + Z.of_nat d * ns_per_day <= Date bar).
  { clear d. induction d as [|d IH]; intros bar Hb.
    - rewrite Nat.add_0_r, He in Hb. injection Hb as <-. lia.
    - destruct (nth_error (rows df) (e + d)) as [prev|] eqn:Hp.
      2:{ apply nth_error_None in Hp.
          assert (e + S d < length (rows df))%nat by (apply nth_error_Some; congruence).
          lia. }
      specialize (IH prev eq_refl).
      replace (e + S d)%nat with (S (e + d)) in Hb by lia.
      pose proof (Sp (e + d)%nat prev bar Hp Hb). lia. }
  intros bar Hb. specialize (Step d bar Hb). split; [exact Step|].
  unfold days_between. apply Z.div_le_lower_bound; [reflexivity|]. lia.
Qed.

(** ** Agreement of the two simulators *)

Section Agreement.

Variables (self : BacktestEngine) (df : DataFrame) (signals : list Z).
Variables (commission slippage lending_rate : Q) (strategy_type : StrategyType).

Hypothesis trailing_off : trailing_stop_enabled self = false.
Hypothesis no_commission : (commission == 0)%Q.
Hypothesis no_slippage : (slippage == 0)%Q.
Hypothesis same_length : length signals = length (rows df).
Hypothesis closes_positive : positive_closes df.
Hypothesis max_days_non_negative : 0 <= max_holding_days self.
Hypothesis spaced : daily_spaced df.
Hypothesis buys :
  every_flat_enter_buys self df signals commission slippage lending_rate strategy_type.
Hypothesis final_bar : no_exit_signal_on_final_bar signals.
Hypothesis untied : forced_exit_untied self df signals.

Local Notation "'reach'" :=
  (reached self df signals commission slippage lending_rate strategy_type).
Local Notation "'exit_candidates'" := (np_where_eq signals (-1)).
Local Notation "'batch_body'" :=
  (vec_body self df exit_candidates commission slippage lending_rate strategy_type).

(** When no forced exit is found in the search window, no later bar at
    all has reached the maximum holding period. *)
Lemma no_forced_exit_anywhere (e : nat) (entry_bar : Bar) (k : nat) (bar : Bar) :
  nth_error (rows df) e = Some entry_bar ->
  forced_exit_index self (map Date (rows df)) (length (rows df)) e (Date entry_bar)
  = None ->
  (e < k)%nat -> nth_error (rows df) k = Some bar ->
  days_between (Date bar) (Date entry_bar) < max_holding_days self.
Proof.
  intros He N Hk Hb.
  destruct (Z.lt_ge_cases (Z.of_nat k) (Z.of_nat e + max_holding_days self + 2))
    as [W|W].
  - now apply (forced_exit_index_None self df e (Date entry_bar) k bar).
  - exfalso.
    set (d := (Z.to_nat (max_holding_days self) + 1)%nat).
    assert (Kn : (k < length (rows df))%nat) by (apply nth_error_Some; congruence).
    destruct (nth_error (rows df) (e + d)) as [mid|] eqn:Hm.
    2:{ apply nth_error_None in Hm. unfold d in Hm. lia. }
    pose proof (forced_exit_index_None self df e (Date entry_bar) (e + d) mid N
                  ltac:(unfold d; lia) ltac:(unfold d; lia) Hm) as Short.
    destruct (spaced_days df d e entry_bar mid spaced He Hm) as [_ Long].
    unfold d in Long. lia.
Qed.

(** The exit chosen by the batch simulator for a position entered at an
    Enter bar, read bar by bar: before the exit bar no bar carries an Exit
    or reaches the maximum holding period; the exit bar is the first Exit
    (short of the maximum), or the first bar at the maximum, or the final
    bar when neither happens. *)
Lemma vec_exit_spec (e : nat) (entry_bar : Bar) (entry_price : Q)
    (j : nat) (forced : bool) (reason : ExitReason) :
  nth_error signals e = Some 1 ->
  nth_error (rows df) e = Some entry_bar ->
  vec_exit self df exit_candidates strategy_type e (Date entry_bar) entry_price
  = (j, forced, reason) ->
  (forall k bar, (e < k < j)%nat -> nth_error (rows df) k = Some bar ->
                 nth_error signals k <> Some (-1)
                 /\ days_between (Date bar) (Date entry_bar) < max_holding_days self)
  /\ ((reason = signal /\ forced = false /\ (e < j)%nat
       /\ nth_error signals j = Some (-1)
       /\ forall bar, nth_error (rows df) j = Some bar ->
                      days_between (Date bar) (Date entry_bar) < max_holding_days self)
      \/ (reason = forced_max /\ forced = true /\ (e < j)%nat
          /\ forall bar, nth_error (rows df) j = Some bar ->
                         max_holding_days self
                         <= days_between (Date bar) (Date entry_bar))
      \/ (reason = end_of_data /\ forced = true /\ S j = length (rows df)
          /\ forall bar, (e < j)%nat -> nth_error (rows df) j = Some bar ->
                         nth_error signals j <> Some (-1)
                         /\ days_between (Date bar) (Date entry_bar)
                            < max_holding_days self)).
Proof.
  intros Hs He. unfold vec_exit.
  assert (En : (e < length (rows df))%nat) by (apply nth_error_Some; congruence).
  assert (T : forall highs lows prices,
             trailing_stop_index self strategy_type highs lows prices
                                 (length (rows df)) e entry_price = None).
  { intros. unfold trailing_stop_index. now rewrite trailing_off. }
  rewrite T. clear T.
  pose proof (valid_exits_spec signals e) as V.
  destruct (forced_exit_index self (map Date (rows df)) (length (rows df)) e
              (Date entry_bar)) as [f|] eqn:Fo.
  - destruct (forced_exit_index_Some self df e (Date entry_bar) f Fo)
      as (Hf & (bf & Hbf & Dbf) & Before).
    destruct (untied e f entry_bar bf Hs He Hbf Hf Dbf Before) as [U1 U2].
    destruct (skipn _ exit_candidates) as [|x rest].
    + unfold resolve_exit.
      destruct (Nat.ltb_spec f (length (rows df) - 1)) as [L|L]; [|lia].
      destruct (Nat.eqb_spec f (length (rows df) - 1)) as [L'|_]; [lia|].
      cbn [andb]. intro H. injection H as <- <- <-. split.
      * intros k bar Hk Hb. split; [apply V; lia|now apply (Before k bar)].
      * right. left. repeat split; [assumption|].
        intros bar Hb. rewrite Hbf in Hb. now injection Hb as <-.
    + destruct V as (V1 & V2 & V3). unfold resolve_exit.
      destruct (Nat.ltb_spec f x) as [L|L].
      * destruct (Nat.eqb_spec f (length (rows df) - 1)) as [L'|_]; [lia|].
        cbn [andb]. intro H. injection H as <- <- <-. split.
        -- intros k bar Hk Hb. split; [apply V3; lia|now apply (Before k bar)].
        -- right. left. repeat split; [assumption|].
           intros bar Hb. rewrite Hbf in Hb. now injection Hb as <-.
      * assert (Nxf : x <> f) by congruence.
        destruct (Nat.eqb_spec x (length (rows df) - 1)) as [L'|_]; [lia|].
        cbn [andb]. intro H. injection H as <- <- <-. split.
        -- intros k bar Hk Hb. split; [apply V3; lia|apply (Before k bar); [lia|exact Hb]].
        -- left. repeat split; try assumption.
           intros bar Hb. apply (Before x bar); [lia|exact Hb].
  - pose proof (fun k bar => no_forced_exit_anywhere e entry_bar k bar He Fo) as All.
    destruct (skipn _ exit_candidates) as [|x rest].
    + unfold resolve_exit. rewrite Nat.eqb_refl. cbn [andb ExitReason_eqb].
      intro H. injection H as <- <- <-. split.
      * intros k bar Hk Hb. split; [apply V; lia|apply (All k bar); [lia|exact Hb]].
      * right. right. split; [reflexivity|]. split; [reflexivity|]. split; [lia|].
        intros bar Hj Hb. split; [apply V; lia|].
        apply (All (length (rows df) - 1)%nat bar); [lia|exact Hb].
    + destruct V as (V1 & V2 & V3). unfold resolve_exit.
      assert (Xn : (x < length signals)%nat) by (apply nth_error_Some; congruence).
      destruct (Nat.eqb_spec x (length (rows df) - 1)) as [L'|_].
      { exfalso. apply final_bar. rewrite same_length, <- L'. exact V2. }
      cbn [andb]. intro H. injection H as <- <- <-. split.
      * intros k bar Hk Hb. split; [apply V3; lia|apply (All k bar); [lia|exact Hb]].
      * left. repeat split; try assumption.
        intros bar Hb. now apply (All x bar).
Qed.

Lemma entry_price_positive (bar : Bar) :
  In bar (rows df) -> (0 < Close bar * (1 + slippage))%Q.
Proof.
  intro H. unfold positive_closes in closes_positive.
  rewrite Forall_forall in closes_positive. specialize (closes_positive bar H).
  rewrite no_slippage. Lqa.lra.
Qed.

(** An iteration that buys shares appends the trade and moves past its
    exit bar. *)
Lemma vec_body_trade (v : VecState) (e j : nat) (entry_bar exit_bar : Bar)
    (forced : bool) (reason : ExitReason) :
  (v_current_pos v <= e)%nat ->
  nth_error (rows df) e = Some entry_bar ->
  vec_exit self df exit_candidates strategy_type e (Date entry_bar)
           (Close entry_bar * (1 + slippage))%Q = (j, forced, reason) ->
  nth_error (rows df) j = Some exit_bar ->
  vec_position (v_cash v) (Close entry_bar * (1 + slippage))%Q <> 0 ->
  batch_body v e
  = Some (mkVecState
            (v_trades v
             ++ [vec_trade self commission lending_rate strategy_type (Date entry_bar)
                           (Date exit_bar) (Close entry_bar * (1 + slippage))%Q
                           (Close exit_bar * (1 - slippage))%Q
                           (vec_position (v_cash v)
                                         (Close entry_bar * (1 + slippage))%Q)
                           forced reason])
            (vec_cash_after commission lending_rate strategy_type (v_cash v)
                            (Date entry_bar) (Date exit_bar)
                            (Close entry_bar * (1 + slippage))%Q
                            (Close exit_bar * (1 - slippage))%Q
                            (vec_position (v_cash v)
                                          (Close entry_bar * (1 + slippage))%Q))
            (j + 1)).
Proof.
  intros L He X Hj P. unfold vec_body.
  destruct (Nat.ltb_spec e (v_current_pos v)) as [C|_]; [lia|].
  rewrite !nth_error_map, He. cbn [option_map bind]. rewrite X.
  rewrite !nth_error_map, Hj. cbn [option_map bind].
  destruct (Z.eqb_spec (vec_position (v_cash v) (Close entry_bar * (1 + slippage))%Q) 0)
    as [Z|_]; [contradiction|reflexivity].
Qed.

(** Candidates before [current_pos] are all skipped. *)
Lemma vec_loop_skip_all (rest : list nat) (v : VecState) :
  (forall e, In e rest -> (e < v_current_pos v)%nat) ->
  vec_loop batch_body rest v = Some v.
Proof.
  induction rest as [|e rest IH]; intro H; [reflexivity|].
  cbn [vec_loop]. unfold vec_body at 1.
  destruct (Nat.ltb_spec e (v_current_pos v)) as [_|C].
  - cbn [bind]. apply IH. intros e' He'. apply H. now right.
  - specialize (H e (or_introl eq_refl)). lia.
Qed.

(** The record of the per-bar scan and the record of the batch simulator
    for the same position closed at the same bar. *)
Lemma per_bar_trade_equiv (s : SimState) (position : Z) (price : Q) (date closed_on : Z)
    (exit_price1 exit_price2 : Q) (forced : bool) (reason : ExitReason) :
  holding s position price date -> (0 < price)%Q ->
  (exit_price1 == exit_price2)%Q ->
  trade_equiv
    (per_bar_trade self commission lending_rate strategy_type s closed_on exit_price1
                   forced reason)
    (vec_trade self commission lending_rate strategy_type date closed_on price
               exit_price2 position forced reason).
Proof.
  intros (P & Pos & Pr & D) Pp X.
  assert (HD : per_bar_holding_days s closed_on = days_between closed_on date)
    by (unfold per_bar_holding_days; now rewrite D).
  assert (LC : (per_bar_lending_cost strategy_type s lending_rate closed_on
                == vec_lending_cost strategy_type position price lending_rate
                     (days_between closed_on date))%Q).
  { unfold per_bar_lending_cost, vec_lending_cost. rewrite D, HD, P, Pr.
    destruct strategy_type; reflexivity. }
  assert (Cost : Qltb 0 (inject_Z position * price) = true).
  { apply Qltb_lt. apply Qmult_lt_0_compat; [|assumption].
    change 0%Q with (inject_Z 0). rewrite <- Zlt_Qlt. exact Pos. }
  unfold trade_equiv, per_bar_trade, vec_trade.
  cbn [entry_date exit_date entry_price exit_price shares profit profit_pct
       holding_days forced_exit within_target_period exit_reason].
  rewrite Cost, HD, D, P, Pr.
  assert (Epf : (match strategy_type with
                 | long =>
                     (exit_price1 - price) * inject_Z position
                     - inject_Z position * exit_price1 * commission * 2
                 | short =>
                     (price - exit_price1) * inject_Z position
                     - inject_Z position * exit_price1 * commission * 2
                     - per_bar_lending_cost strategy_type s lending_rate closed_on
                 end
                 == match strategy_type with
                    | long =>
                        (exit_price2 - price) * inject_Z position
                        - (inject_Z position * price * commission
                           + inject_Z position * exit_price2 * commission)
                    | short =>
                        (price - exit_price2) * inject_Z position
                        - (inject_Z position * price * commission
                           + inject_Z position * exit_price2 * commission)
                        - vec_lending_cost strategy_type position price lending_rate
                            (days_between closed_on date)
                    end)%Q).
  { destruct strategy_type; rewrite ?LC, X, no_commission; ring. }
  repeat split; try reflexivity; try assumption.
  now rewrite Epf.
Qed.

(** The cash after the same trade in the two simulators. *)
Lemma exit_cash_equiv (s : SimState) (position : Z) (price : Q) (date : Z) (bar : Bar)
    (cash1 cash2 : Q) :
  holding s position price date ->
  s_cash s = (cash1 - (inject_Z position * price
                       + inject_Z position * price * commission))%Q ->
  (cash1 == cash2)%Q ->
  (per_bar_exit_cash commission slippage lending_rate strategy_type s bar
   == vec_cash_after commission lending_rate strategy_type cash2 date (Date bar) price
        (Close bar * (1 - slippage)) position)%Q.
Proof.
  intros (P & Pos & Pr & D) C E.
  unfold per_bar_exit_cash, vec_cash_after, per_bar_lending_cost, vec_lending_cost,
    per_bar_holding_days.
  rewrite C, D, P, Pr, E. destruct strategy_type; ring.
Qed.

Lemma last_nth_error {A : Type} (l : list A) (d x : A) :
  nth_error l (length l - 1) = Some x -> last l d = x.
Proof.
  induction l as [|y l IH]; [discriminate|].
  destruct l as [|z l].
  - simpl. intro H. now injection H as ->.
  - intro H. change (last (y :: z :: l) d) with (last (z :: l) d). apply IH.
    replace (length (z :: l) - 1)%nat with (length l) by (simpl; lia).
    replace (length (y :: z :: l) - 1)%nat with (S (length l)) in H by (simpl; lia).
    exact H.
Qed.

(** The simulation lemma: with the batch loop at [current_pos] and the
    per-bar scan flat after as many bars, with the same cash and the same
    trades so far, the rest of the two runs yields the same trades. *)
Lemma agree_from (rest : list nat) :
  forall (v : VecState) (s : SimState),
    StronglySorted lt rest ->
    (forall e, In e rest -> nth_error signals e = Some 1) ->
    (forall k, (v_current_pos v <= k)%nat -> nth_error signals k = Some 1 -> In k rest) ->
    reach (v_current_pos v) s -> flat s ->
    (v_current_pos v <= length (rows df))%nat ->
    (s_cash s == v_cash v)%Q ->
    Forall2 trade_equiv (s_trades s) (v_trades v) ->
    exists v' s',
      vec_loop batch_body rest v = Some v'
      /\ reach (length (rows df)) s'
      /\ Forall2 trade_equiv
           (close_at_end self commission lending_rate strategy_type df s')
           (v_trades v').
Proof.
  induction rest as [|e rest IH]; intros v s Sorted Enters Complete R F L Cash Trades.
  - (* no candidate left: the scan idles to the end *)
    destruct (flat_scan self df signals commission slippage lending_rate strategy_type
                same_length (length (rows df) - v_current_pos v) (v_current_pos v) s
                R F ltac:(lia)) as (s' & R' & F' & C' & T').
    { intros k Hk N. apply (Complete k) in N; [contradiction|lia]. }
    replace (v_current_pos v + (length (rows df) - v_current_pos v))%nat
      with (length (rows df)) in R' by lia.
    exists v, s'. split; [reflexivity|]. split; [exact R'|].
    unfold close_at_end. destruct F' as [P' _]. rewrite P'. cbn [Z.gtb Z.compare].
    now rewrite T'.
  - inversion Sorted as [|? ? Sorted' Above]; subst.
    rewrite Forall_forall in Above.
    destruct (Nat.lt_ge_cases e (v_current_pos v)) as [Skip|Here].
    + (* a candidate inside the previous trade *)
      cbn [vec_loop]. unfold vec_body at 1.
      destruct (Nat.ltb_spec e (v_current_pos v)) as [_|C]; [|lia].
      cbn [bind]. apply (IH v s); try assumption.
      * intros e' He'. apply Enters. now right.
      * intros k Hk N. destruct (Complete k Hk N) as [<-|I]; [lia|exact I].
    + (* the next entry *)
      assert (He : nth_error signals e = Some 1) by (apply Enters; now left).
      assert (En : (e < length (rows df))%nat).
      { rewrite <- same_length. apply nth_error_Some. congruence. }
      destruct (nth_error (rows df) e) as [entry_bar|] eqn:Hb.
      2:{ apply nth_error_None in Hb. lia. }
      (* the scan idles up to the entry bar *)
      destruct (flat_scan self df signals commission slippage lending_rate strategy_type
                  same_length (e - v_current_pos v) (v_current_pos v) s
                  R F ltac:(lia)) as (s0 & R0 & F0 & C0 & T0).
      { intros k Hk N. destruct (Complete k ltac:(lia) N) as [<-|I]; [lia|].
        specialize (Above k I). lia. }
      replace (v_current_pos v + (e - v_current_pos v))%nat with e in R0 by lia.
      (* and enters *)
      pose proof (entry_price_positive entry_bar (nth_error_In _ _ Hb)) as Ep.
      set (ep := (Close entry_bar * (1 + slippage))%Q) in *.
      pose proof (buys e s0 entry_bar R0 (proj1 F0) Hb He) as Buy. fold ep in Buy.
      set (p := py_int (s_cash s0 / ep)) in *.
      destruct (step_enter self commission slippage lending_rate strategy_type s0
                  entry_bar F0) as (s1 & St1 & H1 & C1 & T1).
      { fold ep. intro Z. rewrite Z in Ep. now apply Qlt_irrefl in Ep. }
      { exact Buy. }
      fold ep in H1, C1. fold p in H1, C1.
      assert (R1 : reach (S e) s1)
        by now apply (reached_step _ _ _ _ _ _ _ _ s0 s1 entry_bar 1).
      (* the batch simulator buys the same share count *)
      assert (Pv : vec_position (v_cash v) ep = p).
      { unfold vec_position. replace (Qltb 0 ep) with true
          by (symmetry; now apply Qltb_lt).
        unfold p. apply py_int_comp. now rewrite C0, Cash. }
      destruct (vec_exit self df exit_candidates strategy_type e (Date entry_bar) ep)
        as [[j forced] reason] eqn:X.
      assert (Jn : (j < length (rows df))%nat).
      { apply (vec_exit_range self df strategy_type exit_candidates e (Date entry_bar)
                 ep j forced reason En); [|exact X].
        intros x Hx. apply np_where_eq_lt in Hx. lia. }
      destruct (nth_error (rows df) j) as [exit_bar|] eqn:Hj.
      2:{ apply nth_error_None in Hj. lia. }
      pose proof (vec_body_trade v e j entry_bar exit_bar forced reason Here Hb X Hj)
        as Body.
      fold ep in Body. rewrite Pv in Body. specialize (Body ltac:(lia)).
      destruct (vec_exit_spec e entry_bar ep j forced reason He Hb X) as [Before Cases].
      cbn [vec_loop]. rewrite Body. cbn [bind].
      destruct Cases as [(-> & -> & Ej & Sj & Dj)|[(-> & -> & Ej & Dj)
                                                  |(-> & -> & Jlast & Last)]].
      * (* exit on the signal *)
        destruct (hold_scan self df signals commission slippage lending_rate
                    strategy_type same_length (j - S e) (S e) s1 p ep (Date entry_bar)
                    R1 H1 ltac:(lia)) as (s2 & R2 & H2 & C2 & T2).
        { intros k bar Hk Hbk. apply (Before k bar); [lia|exact Hbk]. }
        replace (S e + (j - S e))%nat with j in R2 by lia.
        destruct (step_exit self commission slippage lending_rate strategy_type s2
                    exit_bar (-1) p ep (Date entry_bar) H2 (or_introl eq_refl))
          as (s3 & St3 & F3 & C3 & T3).
        assert (R3 : reach (S j) s3)
          by now apply (reached_step _ _ _ _ _ _ _ _ s2 s3 exit_bar (-1)).
        replace (days_between (Date exit_bar) (Date entry_bar)
                 >=? max_holding_days self) with false in T3.
        2:{ symmetry. specialize (Dj exit_bar Hj).
            destruct (Z.geb_spec (days_between (Date exit_bar) (Date entry_bar))
                        (max_holding_days self)); [lia|reflexivity]. }
        apply (IH _ s3); try assumption.
        -- intros e' He'. apply Enters. now right.
        -- cbn [v_current_pos]. intros k Hk N.
           destruct (Complete k ltac:(lia) N) as [<-|I]; [lia|exact I].
        -- cbn [v_current_pos]. now rewrite Nat.add_1_r.
        -- cbn [v_current_pos]. lia.
        -- cbn [v_cash]. rewrite C3.
           apply (exit_cash_equiv s2 p ep (Date entry_bar) exit_bar (s_cash s0)
                    (v_cash v) H2); [congruence|now rewrite C0].
        -- cbn [v_trades]. rewrite T3, T2, T1, T0.
           apply Forall2_app; [exact Trades|]. constructor; [|constructor].
           apply (per_bar_trade_equiv s2 p ep (Date entry_bar)); [exact H2|exact Ep|].
           reflexivity.
      * (* exit at the maximum holding period *)
        destruct (hold_scan self df signals commission slippage lending_rate
                    strategy_type same_length (j - S e) (S e) s1 p ep (Date entry_bar)
                    R1 H1 ltac:(lia)) as (s2 & R2 & H2 & C2 & T2).
        { intros k bar Hk Hbk. apply (Before k bar); [lia|exact Hbk]. }
        replace (S e + (j - S e))%nat with j in R2 by lia.
        destruct (bar_and_signal df signals same_length j Jn) as (bj & sj & Hbj & Hsj).
        rewrite Hj in Hbj. injection Hbj as <-.
        destruct (step_exit self commission slippage lending_rate strategy_type s2
                    exit_bar sj p ep (Date entry_bar) H2 (or_intror (Dj exit_bar Hj)))
          as (s3 & St3 & F3 & C3 & T3).
        assert (R3 : reach (S j) s3)
          by now apply (reached_step _ _ _ _ _ _ _ _ s2 s3 exit_bar sj).
        replace (days_between (Date exit_bar) (Date entry_bar)
                 >=? max_holding_days self) with true in T3.
        2:{ symmetry. specialize (Dj exit_bar Hj).
            destruct (Z.geb_spec (days_between (Date exit_bar) (Date entry_bar))
                        (max_holding_days self)); [reflexivity|lia]. }
        apply (IH _ s3); try assumption.
        -- intros e' He'. apply Enters. now right.
        -- cbn [v_current_pos]. intros k Hk N.
           destruct (Complete k ltac:(lia) N) as [<-|I]; [lia|exact I].
        -- cbn [v_current_pos]. now rewrite Nat.add_1_r.
        -- cbn [v_current_pos]. lia.
        -- cbn [v_cash]. rewrite C3.
           apply (exit_cash_equiv s2 p ep (Date entry_bar) exit_bar (s_cash s0)
                    (v_cash v) H2); [congruence|now rewrite C0].
        -- cbn [v_trades]. rewrite T3, T2, T1, T0.
           apply Forall2_app; [exact Trades|]. constructor; [|constructor].
           apply (per_bar_trade_equiv s2 p ep (Date entry_bar)); [exact H2|exact Ep|].
           reflexivity.
      * (* the position is still open at the end of the data *)
        destruct (hold_scan self df signals commission slippage lending_rate
                    strategy_type same_length (length (rows df) - S e) (S e) s1 p ep
                    (Date entry_bar) R1 H1 ltac:(lia)) as (s2 & R2 & H2 & C2 & T2).
        { intros k bar Hk Hbk. destruct (Nat.eq_dec k j) as [->|Nk].
          - apply (Last bar); [lia|exact Hbk].
          - apply (Before k bar); [lia|exact Hbk]. }
        replace (S e + (length (rows df) - S e))%nat with (length (rows df)) in R2 by lia.
        eexists _, s2. split; [|split; [exact R2|]].
        -- apply vec_loop_skip_all. cbn [v_current_pos]. intros e' He'.
           assert (Se : nth_error signals e' = Some 1) by (apply Enters; now right).
           assert (e' < length signals)%nat by (apply nth_error_Some; congruence).
           lia.
        -- cbn [v_trades]. unfold close_at_end.
           destruct H2 as (P2 & Pos2 & Pr2 & D2).
           destruct (Z.gtb_spec (s_position s2) 0) as [_|G]; [|lia].
           rewrite T2, T1, T0.
           apply Forall2_app; [exact Trades|]. constructor; [|constructor].
           rewrite (last_nth_error (rows df) (mkBar 0 0 0 0) exit_bar).
           2:{ replace (length (rows df) - 1)%nat with j by lia. exact Hj. }
           apply (per_bar_trade_equiv s2 p ep (Date entry_bar));
             [repeat split; assumption|exact Ep|].
           rewrite no_slippage. ring.
Qed.

End Agreement.



(** ** Slippage *)

(** A short trade is priced like a long one: entered at bar 0 (close 100)
    with 1% slippage it pays 101, not 99, and it is exited at 99, not
    101. *)
Lemma short_slippage_counterexample :
  exists t equity,
    execute_trades_vectorized (engine_with 1000 false) (daily_frame [100; 100; 100]%Q)
                              [1; 0; -1] 0 (1 # 100) 0 short = Some ([t], equity)
    /\ entry_date t = 0 /\ exit_date t = 2 * ns_per_day
    /\ (entry_price t == 101)%Q /\ (exit_price t == 99)%Q
    /\ ~ slippage_per_direction short (1 # 100) 100 100 t.
Proof.
  eexists _, _. split; [vm_compute; reflexivity|].
  repeat split; try reflexivity.
  intros [H _]. vm_compute in H. discriminate.
Qed.

(** Every trade of the batch simulator is priced the same way. *)
Lemma vectorized_slippage_as_coded (self : BacktestEngine) (df : DataFrame)
    (signals : list Z) (commission slippage lending_rate : Q)
    (strategy_type : StrategyType) (trades : list Trade) (equity : list Q) :
  execute_trades_vectorized self df signals commission slippage lending_rate
                            strategy_type = Some (trades, equity) ->
  forall t, In t trades -> slippage_as_coded df slippage t.
Proof.
  unfold execute_trades_vectorized.
  destruct (length (rows df) =? 0)%nat.
  - intro H. injection H as <- _. contradiction.
  - destruct (vec_loop _ _ _) as [s|] eqn:E; [|discriminate]. simpl.
    intro H. injection H as <- _.
    refine (vec_loop_invariant _
              (fun s => forall t, In t (v_trades s) -> slippage_as_coded df slippage t)
              _ _ _ _ _ E); [|contradiction].
    clear. intros s e s' _ IH B t Ht.
    apply vec_body_Some in B. destruct B as [[_ ->]|[_ B]]; [now apply IH|].
    destruct B as (be & bx & exit_idx & forced & reason & E1 & E2 & _ & ->).
    cbv zeta in Ht.
    destruct (vec_position (v_cash s) (Close be * (1 + slippage)) =? 0);
      simpl in Ht; [now apply IH|].
    apply in_app_or in Ht. destruct Ht as [Ht|[<-|[]]]; [now apply IH|].
    exists be, bx. apply nth_error_In in E1, E2. repeat split; assumption.
Qed.

(** In the per-bar scan a held position was entered at the adjusted close
    of a bar of the frame, and every trade recorded inside the loop, on a
    signal or at the maximum holding period, is priced the same way. *)
Lemma step_slippage_as_coded (self : BacktestEngine) (df : DataFrame)
    (commission slippage lending_rate : Q) (strategy_type : StrategyType)
    (s s' : SimState) (bar : Bar) (sig : Z) :
  In bar (rows df) ->
  let P := fun s =>
    (forall t, In t (s_trades s) ->
               exit_reason t <> end_of_data /\ slippage_as_coded df slippage t)
    /\ (0 < s_position s ->
        exists entry_bar,
          In entry_bar (rows df) /\ s_entry_date s = Some (Date entry_bar)
          /\ s_entry_price s = (Close entry_bar * (1 + slippage))%Q) in
  P s ->
  step self commission slippage lending_rate strategy_type s bar sig = Some s' ->
  P s'.
Proof.
  intros Hb P [Tr Held]. unfold step.
  destruct ((sig =? 1) && (s_position s =? 0)) eqn:Enter.
  - apply andb_true_iff in Enter. destruct Enter as [_ Z]. apply Z.eqb_eq in Z.
    destruct (Qeq_bool (Close bar * (1 + slippage)) 0); [discriminate|].
    destruct (Z.gtb_spec (py_int (s_cash s / (Close bar * (1 + slippage)))) 0) as [G|G];
      intro H; injection H as <-; unfold P; cbn [s_trades s_position s_entry_date
                                                   s_entry_price];
      (split; [exact Tr|]).
    + intros _. now exists bar.
    + intro Pos. lia.
  - destruct (((sig =? -1) || force_exit_now self s bar) && (s_position s >? 0))
      eqn:Exit.
    + apply andb_true_iff in Exit. destruct Exit as [_ G].
      assert (Pos : 0 < s_position s)
        by (destruct (Z.gtb_spec (s_position s) 0); [assumption|discriminate]).
      destruct (Held Pos) as (entry_bar & He & Hd & Hp).
      destruct (force_exit_now self s bar);
        intro H; injection H as <-; unfold P;
        cbn [s_trades s_position s_entry_date s_entry_price];
        (split; [|intro C; lia]);
        intros t Ht; apply in_app_or in Ht;
        (destruct Ht as [Ht|[<-|[]]]; [now apply Tr|]);
        (split; [discriminate|]);
        exists entry_bar, bar; unfold per_bar_trade;
        cbn [entry_date exit_date entry_price exit_price]; rewrite Hd;
        repeat split; assumption.
    + intro H; injection H as <-; unfold P;
        cbn [s_trades s_position s_entry_date s_entry_price]. now split.
Qed.

Lemma per_bar_slippage_as_coded (self : BacktestEngine) (df : DataFrame)
    (signals : list Z) (commission slippage lending_rate : Q)
    (strategy_type : StrategyType) (trades : list Trade) (equity : list Q) :
  execute_trades self df signals commission slippage lending_rate strategy_type
  = Some (trades, equity) ->
  forall t, In t trades -> exit_reason t <> end_of_data ->
            slippage_as_coded df slippage t.
Proof.
  unfold execute_trades.
  destruct (run_steps _ _ _ _) as [s|] eqn:E; [|discriminate]. simpl.
  intro H. injection H as <- _.
  assert (I : forall t, In t (s_trades s) ->
                exit_reason t <> end_of_data /\ slippage_as_coded df slippage t).
  { refine (proj1 (run_steps_invariant _
              (fun s =>
                 (forall t, In t (s_trades s) ->
                            exit_reason t <> end_of_data
                            /\ slippage_as_coded df slippage t)
                 /\ (0 < s_position s ->
                     exists entry_bar,
                       In entry_bar (rows df) /\ s_entry_date s = Some (Date entry_bar)
                       /\ s_entry_price s = (Close entry_bar * (1 + slippage))%Q))
              _ _ _ _ _ _ E)).
    - intros s1 bar sig s2 Hb P1 B.
      apply (step_slippage_as_coded self df commission slippage lending_rate
               strategy_type s1 s2 bar sig Hb P1 B).
    - simpl. split; [contradiction|lia]. }
  intros t Ht Nt. unfold close_at_end in Ht.
  destruct (s_position s >? 0); [|now apply I].
  apply in_app_or in Ht. destruct Ht as [Ht|[<-|[]]]; [now apply I|].
  now contradiction Nt.
Qed.

(** C7, as the code has it: the slippage adjustment does not depend on
    the direction.  Every trade of the batch simulator, long or short, is
    entered at the close of its entry bar times (1 + slippage) and exited
    at the close of its exit bar times (1 - slippage); so is every trade
    that the per-bar scan closes on a signal or at the maximum holding
    period. *)
Theorem slippage_same_in_both_directions (self : BacktestEngine) (df : DataFrame)
    (signals : list Z) (commission slippage lending_rate : Q)
    (strategy_type : StrategyType) :
  (forall trades equity,
      execute_trades_vectorized self df signals commission slippage lending_rate
                                strategy_type = Some (trades, equity) ->
      forall t, In t trades -> slippage_as_coded df slippage t)
  /\ (forall trades equity,
         execute_trades self df signals commission slippage lending_rate strategy_type
         = Some (trades, equity) ->
         forall t, In t trades -> exit_reason t <> end_of_data ->
                   slippage_as_coded df slippage t).
Proof.
  split; intros trades equity E t Ht.
  - now apply (vectorized_slippage_as_coded self df signals commission slippage
                 lending_rate strategy_type trades equity).
  - now apply (per_bar_slippage_as_coded self df signals commission slippage
                 lending_rate strategy_type trades equity).
Qed.

Lemma slippage_same_in_both_directions_witness :
  match execute_trades_vectorized (engine_with 1000 false)
          (daily_frame [100; 100; 100]%Q) [1; -1; 0] 0 (1 # 100) 0 short,
        execute_trades (engine_with 1000 false)
          (daily_frame [100; 100; 100]%Q) [1; -1; 0] 0 (1 # 100) 0 short with
  | Some (t1 :: _, _), Some (t2 :: _, _) =>
      slippage_as_coded (daily_frame [100; 100; 100]%Q) (1 # 100) t1
      /\ slippage_as_coded (daily_frame [100; 100; 100]%Q) (1 # 100) t2
  | _, _ => False
  end.
Proof.
  destruct (slippage_same_in_both_directions (engine_with 1000 false)
              (daily_frame [100; 100; 100]%Q) [1; -1; 0] 0 (1 # 100) 0 short)
    as [V L].
  destruct (execute_trades_vectorized _ _ _ _ _ _ _) as [[[|t1 ts1] eq1]|] eqn:E1;
    try (vm_compute in E1; discriminate).
  destruct (execute_trades _ _ _ _ _ _ _) as [[[|t2 ts2] eq2]|] eqn:E2;
    try (vm_compute in E2; discriminate).
  split.
  - apply (V _ _ eq_refl). now left.
  - apply (L _ _ eq_refl); [now left|].
    vm_compute in E2. injection E2 as <- _ _. discriminate.
Defined.

(** * Further properties of the engine *)

(** ** Trade records of the batch simulator *)

Lemma resolve_exit_flag (n : nat) (valid_exits : list nat)
    (trailing_stop_idx forced_exit_idx : option nat) :
  let '(exit_idx, forced, reason) :=
    resolve_exit n valid_exits trailing_stop_idx forced_exit_idx in
  (forced = true <-> reason = forced_max \/ reason = end_of_data)
  /\ (reason = forced_max -> forced_exit_idx = Some exit_idx)
  /\ (reason = trailing_stop -> trailing_stop_idx = Some exit_idx).
Proof.
  unfold resolve_exit.
  destruct valid_exits as [|x valid_exits];
    destruct trailing_stop_idx as [t|], forced_exit_idx as [f|]; simpl;
    repeat match goal with
           | |- context [(?a <? ?b)%nat] => destruct (Nat.ltb_spec a b); simpl
           | |- context [(?a =? ?b)%nat] => destruct (Nat.eqb_spec a b); simpl
           end;
    repeat split; intros;
    repeat match goal with
           | H : _ \/ _ |- _ => destruct H
           end;
    try discriminate; try reflexivity; auto.
Qed.

Lemma vec_trade_consistent (self : BacktestEngine) (commission lending_rate : Q)
    (strategy_type : StrategyType) (d1 d2 : Z) (p1 p2 : Q) (position : Z)
    (forced : bool) (reason : ExitReason) :
  position <> 0 ->
  (forced = true <-> reason = forced_max \/ reason = end_of_data) ->
  consistent_record self
    (vec_trade self commission lending_rate strategy_type d1 d2 p1 p2 position forced
               reason).
Proof.
  intros P F. unfold consistent_record, vec_trade. simpl. auto.
Qed.

(** Every record of the batch simulator is consistent, and its trade was
    entered on an Enter bar and exited on the same bar or later. *)
Theorem vectorized_records_consistent (self : BacktestEngine) (df : DataFrame)
    (signals : list Z) (commission slippage lending_rate : Q)
    (strategy_type : StrategyType) (trades : list Trade) (equity : list Q) :
  execute_trades_vectorized self df signals commission slippage lending_rate
                            strategy_type = Some (trades, equity) ->
  forall t, In t trades ->
            consistent_record self t /\ entered_on_enter_bar df signals t.
Proof.
  unfold execute_trades_vectorized.
  destruct (length (rows df) =? 0)%nat.
  { intro H. injection H as <- _. contradiction. }
  destruct (vec_loop _ _ _) as [s|] eqn:E; [|discriminate]. simpl.
  intro H. injection H as <- _.
  refine (vec_loop_invariant _
            (fun s => forall t, In t (v_trades s) ->
                        consistent_record self t /\ entered_on_enter_bar df signals t)
            _ _ _ _ _ E); [|contradiction].
  clear. intros s e s' Cand IH B t Ht.
  apply vec_body_Some in B. destruct B as [[_ ->]|[_ B]]; [now apply IH|].
  destruct B as (be & bx & exit_idx & forced & reason & E1 & E2 & X & ->).
  cbv zeta in Ht.
  destruct (Z.eqb_spec (vec_position (v_cash s) (Close be * (1 + slippage))) 0)
    as [_|NZ]; simpl in Ht; [now apply IH|].
  apply in_app_or in Ht. destruct Ht as [Ht|[<-|[]]]; [now apply IH|].
  split.
  - apply vec_trade_consistent; [exact NZ|].
    pose proof X as X'. unfold vec_exit in X'.
    match type of X' with
    | resolve_exit ?n ?v ?tr ?fo = _ => pose proof (resolve_exit_flag n v tr fo) as F
    end.
    rewrite X' in F. apply F.
  - exists e, exit_idx, be, bx. repeat split; try assumption.
    + apply (vec_exit_after_entry self df strategy_type (np_where_eq signals (-1)) e
               (Date be) (Close be * (1 + slippage))%Q exit_idx forced reason);
        [apply np_where_eq_sorted| |exact X].
      apply nth_error_Some. congruence.
    + now apply np_where_eq_In.
Qed.

Lemma vectorized_records_consistent_witness :
  match execute_trades_vectorized (engine_with 1000 true)
          (daily_frame [100; 80; 80; 80]%Q) [1; 0; 0; -1] 0 0 0 long with
  | Some (t :: _, _) =>
      consistent_record (engine_with 1000 true) t
      /\ entered_on_enter_bar (daily_frame [100; 80; 80; 80]%Q) [1; 0; 0; -1] t
  | _ => False
  end.
Proof.
  destruct (execute_trades_vectorized (engine_with 1000 true)
              (daily_frame [100; 80; 80; 80]%Q) [1; 0; 0; -1] 0 0 0 long)
    as [[[|t ts] equity]|] eqn:E.
  - vm_compute in E. discriminate.
  - apply (vectorized_records_consistent _ _ _ _ _ _ _ _ _ E). now left.
  - vm_compute in E. discriminate.
Defined.

(** The batch simulator closes a trade for the maximum holding period
    only once it has been held that long. *)
Theorem vectorized_forced_max_held_long (self : BacktestEngine) (df : DataFrame)
    (signals : list Z) (commission slippage lending_rate : Q)
    (strategy_type : StrategyType) (trades : list Trade) (equity : list Q) :
  execute_trades_vectorized self df signals commission slippage lending_rate
                            strategy_type = Some (trades, equity) ->
  forall t, In t trades -> exit_reason t = forced_max ->
            max_holding_days self <= holding_days t.
Proof.
  unfold execute_trades_vectorized.
  destruct (length (rows df) =? 0)%nat.
  { intro H. injection H as <- _. contradiction. }
  destruct (vec_loop _ _ _) as [s|] eqn:E; [|discriminate]. simpl.
  intro H. injection H as <- _.
  refine (vec_loop_invariant _
            (fun s => forall t, In t (v_trades s) -> exit_reason t = forced_max ->
                                max_holding_days self <= holding_days t)
            _ _ _ _ _ E); [|contradiction].
  clear. intros s e s' _ IH B t Ht.
  apply vec_body_Some in B. destruct B as [[_ ->]|[_ B]]; [now apply IH|].
  destruct B as (be & bx & exit_idx & forced & reason & E1 & E2 & X & ->).
  cbv zeta in Ht.
  destruct (vec_position (v_cash s) (Close be * (1 + slippage)) =? 0);
    simpl in Ht; [now apply IH|].
  apply in_app_or in Ht. destruct Ht as [Ht|[<-|[]]]; [now apply IH|].
  cbn [vec_trade exit_reason holding_days]. intros ->.
  unfold vec_exit in X.
  match type of X with
  | resolve_exit ?n ?v ?tr ?fo = _ => pose proof (resolve_exit_flag n v tr fo) as F
  end.
  rewrite X in F. destruct F as (_ & F & _). specialize (F eq_refl).
  apply forced_exit_index_Some in F. destruct F as (_ & (bar & Hb & D) & _).
  rewrite E2 in Hb. now injection Hb as <-.
Qed.

Lemma vectorized_forced_max_held_long_witness :
  match execute_trades_vectorized (engine_with 1000 false)
          (daily_frame (repeat 100%Q 40)) (1 :: repeat 0 39) 0 0 0 long with
  | Some (t :: _, _) => exit_reason t = forced_max /\ 30 <= holding_days t
  | _ => False
  end.
Proof.
  destruct (execute_trades_vectorized (engine_with 1000 false)
              (daily_frame (repeat 100%Q 40)) (1 :: repeat 0 39) 0 0 0 long)
    as [[[|t ts] equity]|] eqn:E.
  - vm_compute in E. discriminate.
  - assert (R : exit_reason t = forced_max)
      by (vm_compute in E; injection E as <- _ _; reflexivity).
    split; [exact R|].
    apply (vectorized_forced_max_held_long _ _ _ _ _ _ _ _ _ E t); [now left|exact R].
  - vm_compute in E. discriminate.
Defined.

(** ** Trade records of the per-bar scan *)

(** What the loop keeps: the records so far have the property [Q], and a
    held position has its entry date. *)
Lemma step_records (self : BacktestEngine) (commission slippage lending_rate : Q)
    (strategy_type : StrategyType) (Q : Trade -> Prop)
    (s s' : SimState) (bar : Bar) (sig : Z) :
  (forall d forced reason,
      s_entry_date s = Some d -> 0 < s_position s ->
      (forced, reason)
      = (if force_exit_now self s bar then (true, forced_max) else (false, signal)) ->
      Q (per_bar_trade self commission lending_rate strategy_type s (Date bar)
                       (Close bar * (1 - slippage))%Q forced reason)) ->
  let P := fun s =>
    (forall t, In t (s_trades s) -> Q t)
    /\ (0 < s_position s -> exists d, s_entry_date s = Some d) in
  P s ->
  step self commission slippage lending_rate strategy_type s bar sig = Some s' ->
  P s'.
Proof.
  intros New P [Tr Held]. unfold step.
  destruct ((sig =? 1) && (s_position s =? 0)) eqn:Enter.
  - destruct (Qeq_bool (Close bar * (1 + slippage)) 0); [discriminate|].
    destruct (Z.gtb_spec (py_int (s_cash s / (Close bar * (1 + slippage)))) 0) as [G|G];
      intro H; injection H as <-; unfold P;
      cbn [s_trades s_position s_entry_date]; (split; [exact Tr|]).
    + intros _. eauto.
    + intro Pos. lia.
  - destruct (((sig =? -1) || force_exit_now self s bar) && (s_position s >? 0))
      eqn:Exit.
    + apply andb_true_iff in Exit. destruct Exit as [_ G].
      assert (Pos : 0 < s_position s)
        by (destruct (Z.gtb_spec (s_position s) 0); [assumption|discriminate]).
      destruct (Held Pos) as (d & Hd).
      specialize (New d).
      destruct (force_exit_now self s bar);
        intro H; injection H as <-; unfold P;
        cbn [s_trades s_position s_entry_date];
        (split; [|intro C; lia]);
        intros t Ht; apply in_app_or in Ht;
        (destruct Ht as [Ht|[<-|[]]]; [now apply Tr|]);
        now apply New.
    + intro H; injection H as <-; unfold P; cbn [s_trades s_position s_entry_date].
      now split.
Qed.

(** Every record of the per-bar scan is consistent and holds at least one
    share; the scan never reports a trailing stop; a trade closed for the
    maximum holding period was held that long, and a trade closed on a
    signal was held for less. *)
Theorem per_bar_records_consistent (self : BacktestEngine) (df : DataFrame)
    (signals : list Z) (commission slippage lending_rate : Q)
    (strategy_type : StrategyType) (trades : list Trade) (equity : list Q) :
  execute_trades self df signals commission slippage lending_rate strategy_type
  = Some (trades, equity) ->
  forall t, In t trades ->
            consistent_record self t /\ 0 < shares t
            /\ exit_reason t <> trailing_stop
            /\ (exit_reason t = forced_max -> max_holding_days self <= holding_days t)
            /\ (exit_reason t = signal -> holding_days t < max_holding_days self).
Proof.
  unfold execute_trades.
  destruct (run_steps _ _ _ _) as [s|] eqn:E; [|discriminate]. simpl.
  intro H. injection H as <- _.
  set (Q := fun t =>
              consistent_record self t /\ 0 < shares t
              /\ exit_reason t <> trailing_stop
              /\ (exit_reason t = forced_max -> max_holding_days self <= holding_days t)
              /\ (exit_reason t = signal -> holding_days t < max_holding_days self)).
  assert (I : (forall t, In t (s_trades s) -> Q t)
              /\ (0 < s_position s -> exists d, s_entry_date s = Some d)).
  { refine (run_steps_invariant _
              (fun s => (forall t, In t (s_trades s) -> Q t)
                        /\ (0 < s_position s -> exists d, s_entry_date s = Some d))
              _ _ _ _ _ _ E).
    - intros s1 bar sig s2 _ P1 B.
      refine (step_records self commission slippage lending_rate strategy_type Q
                s1 s2 bar sig _ P1 B).
      intros d forced reason Hd Pos FR.
      unfold Q, consistent_record, per_bar_trade, per_bar_holding_days.
      cbn [shares holding_days within_target_period forced_exit exit_reason
           entry_date exit_date].
      rewrite Hd.
      unfold force_exit_now in FR. rewrite Hd in FR.
      destruct (Z.gtb_spec (s_position s1) 0) as [_|G]; [|lia]. cbn [andb] in FR.
      destruct (Z.geb_spec (days_between (Date bar) d) (max_holding_days self));
        injection FR as -> ->;
        repeat split; try discriminate; try lia; auto.
      intros [C|C]; discriminate C.
    - simpl. split; [contradiction|lia]. }
  destruct I as [Tr Held].
  intros t Ht. unfold close_at_end in Ht.
  destruct (Z.gtb_spec (s_position s) 0) as [Pos|_]; [|now apply Tr].
  apply in_app_or in Ht. destruct Ht as [Ht|[<-|[]]]; [now apply Tr|].
  destruct (Held Pos) as (d & Hd).
  unfold consistent_record, per_bar_trade, per_bar_holding_days.
  cbn [shares holding_days within_target_period forced_exit exit_reason
       entry_date exit_date].
  rewrite Hd. repeat split; try discriminate; try lia; auto.
Qed.

Lemma per_bar_records_consistent_witness :
  match execute_trades (engine_with 1000 true)
          (daily_frame [100; 80; 80; 80]%Q) [1; 0; 0; -1] 0 0 0 long with
  | Some (t :: _, _) =>
      consistent_record (engine_with 1000 true) t /\ exit_reason t <> trailing_stop
  | _ => False
  end.
Proof.
  destruct (execute_trades (engine_with 1000 true)
              (daily_frame [100; 80; 80; 80]%Q) [1; 0; 0; -1] 0 0 0 long)
    as [[[|t ts] equity]|] eqn:E.
  - vm_compute in E. discriminate.
  - destruct (per_bar_records_consistent _ _ _ _ _ _ _ _ _ E t (or_introl eq_refl))
      as (C & _ & N & _).
    now split.
  - vm_compute in E. discriminate.
Defined.

(** ** Classifying the trades of a run *)

(** A property of every record that the batch simulator can build holds
    for every trade of a run. *)
Lemma vectorized_records (self : BacktestEngine) (df : DataFrame)
    (signals : list Z) (commission slippage lending_rate : Q)
    (strategy_type : StrategyType) (P : Trade -> Prop)
    (trades : list Trade) (equity : list Q) :
  (forall d1 d2 p1 p2 position forced reason,
      position <> 0 ->
      (forced = true <-> reason = forced_max \/ reason = end_of_data) ->
      P (vec_trade self commission lending_rate strategy_type d1 d2 p1 p2 position
                   forced reason)) ->
  execute_trades_vectorized self df signals commission slippage lending_rate
                            strategy_type = Some (trades, equity) ->
  forall t, In t trades -> P t.
Proof.
  intro New. unfold execute_trades_vectorized.
  destruct (length (rows df) =? 0)%nat.
  { intro H. injection H as <- _. contradiction. }
  destruct (vec_loop _ _ _) as [s|] eqn:E; [|discriminate]. simpl.
  intro H. injection H as <- _.
  refine (vec_loop_invariant _ (fun s => forall t, In t (v_trades s) -> P t)
            _ _ _ _ _ E); [|contradiction].
  intros s0 e s' _ IH B t Ht.
  apply vec_body_Some in B. destruct B as [[_ ->]|[_ B]]; [now apply IH|].
  destruct B as (be & bx & exit_idx & forced & reason & _ & _ & X & ->).
  cbv zeta in Ht.
  destruct (Z.eqb_spec (vec_position (v_cash s0) (Close be * (1 + slippage))) 0)
    as [_|NZ]; simpl in Ht; [now apply IH|].
  apply in_app_or in Ht. destruct Ht as [Ht|[<-|[]]]; [now apply IH|].
  apply New; [exact NZ|].
  unfold vec_exit in X.
  match type of X with
  | resolve_exit ?n ?v ?tr ?fo = _ => pose proof (resolve_exit_flag n v tr fo) as F
  end.
  rewrite X in F. apply F.
Qed.

(** The same for the per-bar scan. *)
Lemma per_bar_records (self : BacktestEngine) (df : DataFrame)
    (signals : list Z) (commission slippage lending_rate : Q)
    (strategy_type : StrategyType) (P : Trade -> Prop)
    (trades : list Trade) (equity : list Q) :
  (forall s date price forced reason,
      0 < s_position s ->
      (forced = true <-> reason = forced_max \/ reason = end_of_data) ->
      P (per_bar_trade self commission lending_rate strategy_type s date price forced
                       reason)) ->
  execute_trades self df signals commission slippage lending_rate strategy_type
  = Some (trades, equity) ->
  forall t, In t trades -> P t.
Proof.
  intro New. unfold execute_trades.
  destruct (run_steps _ _ _ _) as [s|] eqn:E; [|discriminate]. simpl.
  intro H. injection H as <- _.
  assert (I : (forall t, In t (s_trades s) -> P t)
              /\ (0 < s_position s -> exists d, s_entry_date s = Some d)).
  { refine (run_steps_invariant _
              (fun s => (forall t, In t (s_trades s) -> P t)
                        /\ (0 < s_position s -> exists d, s_entry_date s = Some d))
              _ _ _ _ _ _ E).
    - intros s1 bar sig s2 _ P1 B.
      refine (step_records self commission slippage lending_rate strategy_type P
                s1 s2 bar sig _ P1 B).
      intros d forced reason _ Pos FR. apply New; [exact Pos|].
      destruct (force_exit_now self s1 bar); injection FR as -> ->;
        split; intro H; try discriminate; auto.
      destruct H; discriminate.
    - simpl. split; [contradiction|lia]. }
  destruct I as [Tr _].
  intros t Ht. unfold close_at_end in Ht.
  destruct (Z.gtb_spec (s_position s) 0) as [Pos|_]; [|now apply Tr].
  apply in_app_or in Ht. destruct Ht as [Ht|[<-|[]]]; [now apply Tr|].
  apply New; [exact Pos|]. split; auto.
Qed.

(** On records whose flags follow from their holding days and their exit
    reason, the buckets can be read off the records. *)
Lemma classify_by_flags (self : BacktestEngine) (trades : list Trade) :
  (forall t, In t trades ->
             within_target_period t = (holding_days t <=? target_holding_days self)
             /\ (forced_exit t = true <->
                 exit_reason t = forced_max \/ exit_reason t = end_of_data)) ->
  let '(valid, forced, excluded) := classify_trades self trades in
  (forall t, In t valid <-> In t trades /\ within_target_period t = true)
  /\ (forall t, In t forced <->
                In t trades /\ within_target_period t = false
                /\ (exit_reason t = forced_max \/ exit_reason t = end_of_data))
  /\ (forall t, In t excluded <->
                In t trades /\ within_target_period t = false
                /\ (exit_reason t = signal \/ exit_reason t = trailing_stop)).
Proof.
  intro C.
  assert (R : forall t, exit_reason t = signal \/ exit_reason t = trailing_stop
                        <-> ~ (exit_reason t = forced_max \/ exit_reason t = end_of_data)).
  { intro t. destruct (exit_reason t); split; intro H;
      try (intros [X|X]; discriminate X);
      try (destruct H as [X|X]; discriminate X);
      auto; exfalso; apply H; auto. }
  assert (M : forall t, In t trades ->
              (valid_mask self t = true <-> within_target_period t = true)
              /\ (forced_mask self t = true <->
                  within_target_period t = false
                  /\ (exit_reason t = forced_max \/ exit_reason t = end_of_data))
              /\ (excluded_mask self t = true <->
                  within_target_period t = false
                  /\ (exit_reason t = signal \/ exit_reason t = trailing_stop))).
  { intros t I. destruct (C t I) as [W F].
    unfold forced_mask, excluded_mask, valid_mask. rewrite <- W.
    rewrite !andb_true_iff, !negb_true_iff, R, <- F.
    destruct (within_target_period t), (forced_exit t); intuition congruence. }
  destruct trades as [|t0 trades].
  - simpl. repeat split; intros; try tauto; contradiction.
  - unfold classify_trades. set (l := t0 :: trades) in *.
    split; [|split]; intro t; rewrite filter_In;
      (split; intros [I H]; (split; [exact I|]); now apply (M t I)).
Qed.

(** The buckets of a run, of either simulator: the valid trades are the
    trades within the target period; of the others, the forced trades are
    the forced-max and end-of-data exits, and the excluded trades are the
    signal and trailing-stop exits. *)
Theorem run_classified_by_flags (self : BacktestEngine) (df : DataFrame)
    (signals : list Z) (commission slippage lending_rate : Q)
    (strategy_type : StrategyType) (trades : list Trade) (equity : list Q) :
  execute_trades_vectorized self df signals commission slippage lending_rate
                            strategy_type = Some (trades, equity)
  \/ execute_trades self df signals commission slippage lending_rate strategy_type
     = Some (trades, equity) ->
  let '(valid, forced, excluded) := classify_trades self trades in
  (forall t, In t valid <-> In t trades /\ within_target_period t = true)
  /\ (forall t, In t forced <->
                In t trades /\ within_target_period t = false
                /\ (exit_reason t = forced_max \/ exit_reason t = end_of_data))
  /\ (forall t, In t excluded <->
                In t trades /\ within_target_period t = false
                /\ (exit_reason t = signal \/ exit_reason t = trailing_stop)).
Proof.
  intro Run. apply classify_by_flags.
  destruct Run as [Run|Run].
  - apply (vectorized_records self df signals commission slippage lending_rate
             strategy_type _ trades equity); [|exact Run].
    intros. unfold vec_trade. cbn. now split.
  - apply (per_bar_records self df signals commission slippage lending_rate
             strategy_type _ trades equity); [|exact Run].
    intros. unfold per_bar_trade. cbn. now split.
Qed.

Lemma run_classified_by_flags_witness :
  match execute_trades_vectorized (engine_with 1000 false)
          (daily_frame (repeat 100%Q 40)) (1 :: repeat 0 39) 0 0 0 long with
  | Some (trades, _) =>
      let '(valid, forced, excluded) :=
        classify_trades (engine_with 1000 false) trades in
      forall t, In t forced <->
                In t trades /\ within_target_period t = false
                /\ (exit_reason t = forced_max \/ exit_reason t = end_of_data)
  | None => False
  end.
Proof.
  destruct (execute_trades_vectorized (engine_with 1000 false)
              (daily_frame (repeat 100%Q 40)) (1 :: repeat 0 39) 0 0 0 long)
    as [[trades equity]|] eqn:E; [|vm_compute in E; discriminate].
  pose proof (run_classified_by_flags _ _ _ _ _ _ _ trades equity (or_introl E)) as H.
  destruct (classify_trades (engine_with 1000 false) trades) as [[valid forced] excluded].
  apply H.
Defined.

(** ** The equity curves of a run *)

Lemma step_equity_length (self : BacktestEngine) (commission slippage lending_rate : Q)
    (strategy_type : StrategyType) (s s' : SimState) (bar : Bar) (sig : Z) :
  step self commission slippage lending_rate strategy_type s bar sig = Some s' ->
  length (s_equity s') = S (length (s_equity s)).
Proof.
  unfold step.
  repeat match goal with
         | |- context [if ?c then _ else _] => destruct c
         end;
    try discriminate; intro H; injection H as <-; simpl;
    rewrite length_app; simpl; lia.
Qed.

Lemma run_steps_equity_length (self : BacktestEngine)
    (commission slippage lending_rate : Q) (strategy_type : StrategyType)
    (bars : list Bar) (signals : list Z) (s s' : SimState) :
  run_steps (step self commission slippage lending_rate strategy_type) bars signals s
  = Some s' ->
  length (s_equity s') = (length (s_equity s) + length bars)%nat.
Proof.
  revert signals s. induction bars as [|bar bars IH]; intros signals s; simpl.
  - intro H. injection H as <-. lia.
  - destruct signals as [|sig signals]; [discriminate|].
    destruct (step _ _ _ _ _ s bar sig) as [s1|] eqn:E; [|discriminate]. simpl.
    intro H. apply IH in H. apply step_equity_length in E. lia.
Qed.

Lemma valid_equity_body_length (self : BacktestEngine) (n : nat) (dates : list Z)
    (prices : list Q) (commission lending_rate : Q) (strategy_type : StrategyType)
    (acc : list Q * Q) (trade : Trade) :
  length (fst (valid_equity_body self n dates prices commission lending_rate
                                 strategy_type acc trade))
  = length (fst acc).
Proof.
  destruct acc as [equity cash]. unfold valid_equity_body. simpl.
  repeat match goal with
         | |- context [if ?c then _ else _] => destruct c
         end; rewrite ?assign_slice_length; reflexivity.
Qed.

Lemma calculate_valid_equity_length (self : BacktestEngine) (df : DataFrame)
    (valid_trades : list Trade) (commission slippage lending_rate : Q)
    (strategy_type : StrategyType) :
  length (calculate_valid_equity_curve self df valid_trades commission slippage
                                       lending_rate strategy_type)
  = length (rows df).
Proof.
  unfold calculate_valid_equity_curve.
  destruct valid_trades as [|t0 rest]; [apply repeat_length|].
  generalize (sorted_by_entry_date (t0 :: rest)). intro l.
  assert (H : forall acc,
             length (fst (fold_left
                            (valid_equity_body self (length (rows df))
                               (map Date (rows df)) (map Close (rows df)) commission
                               lending_rate strategy_type) l acc))
             = length (fst acc)).
  { induction l as [|t l IH]; intro acc; simpl; [reflexivity|].
    rewrite IH. apply valid_equity_body_length. }
  rewrite H. apply repeat_length.
Qed.

(** After a run of either simulator, the equity curve has one value for
    each bar of the frame, and so has the curve that the reconstructor
    builds from the valid bucket of the run. *)
Theorem equity_curves_cover_the_frame (self : BacktestEngine) (df : DataFrame)
    (signals : list Z) (commission slippage lending_rate : Q)
    (strategy_type : StrategyType) (trades : list Trade) (equity : list Q) :
  execute_trades_vectorized self df signals commission slippage lending_rate
                            strategy_type = Some (trades, equity)
  \/ execute_trades self df signals commission slippage lending_rate strategy_type
     = Some (trades, equity) ->
  let '(valid_trades, _, _) := classify_trades self trades in
  length equity = length (rows df)
  /\ length (calculate_valid_equity_curve self df valid_trades commission slippage
                                          lending_rate strategy_type)
     = length (rows df).
Proof.
  intro Run.
  destruct (classify_trades self trades) as [[valid_trades forced] excluded].
  split; [|apply calculate_valid_equity_length].
  destruct Run as [Run|Run].
  - unfold execute_trades_vectorized in Run.
    destruct (Nat.eqb_spec (length (rows df)) 0) as [Z|_].
    + injection Run as _ <-. now rewrite Z.
    + destruct (vec_loop _ _ _) as [s|]; [|discriminate]. simpl in Run.
      injection Run as _ <-. apply calculate_equity_length.
  - unfold execute_trades in Run.
    destruct (run_steps _ _ _ _) as [s|] eqn:E; [|discriminate]. simpl in Run.
    injection Run as _ <-. now apply run_steps_equity_length in E.
Qed.

Lemma equity_curves_cover_the_frame_witness :
  match execute_trades (engine_with 1000 false)
          (daily_frame [100; 110; 120; 90]%Q) [1; 0; -1; 1] (1 # 100) (1 # 100) 0 long with
  | Some (trades, equity) =>
      let '(valid_trades, _, _) := classify_trades (engine_with 1000 false) trades in
      length equity = 4%nat
      /\ length (calculate_valid_equity_curve (engine_with 1000 false)
                   (daily_frame [100; 110; 120; 90]%Q) valid_trades (1 # 100) (1 # 100)
                   0 long) = 4%nat
  | None => False
  end.
Proof.
  destruct (execute_trades (engine_with 1000 false)
              (daily_frame [100; 110; 120; 90]%Q) [1; 0; -1; 1] (1 # 100) (1 # 100) 0 long)
    as [[trades equity]|] eqn:E; [|vm_compute in E; discriminate].
  exact (equity_curves_cover_the_frame _ _ _ _ _ _ _ trades equity (or_intror E)).
Defined.

(** ** Where the simulators raise *)

Lemma run_steps_short_of_signals (f : SimState -> Bar -> Z -> option SimState)
    (bars : list Bar) (signals : list Z) (s : SimState) :
  (length signals < length bars)%nat -> run_steps f bars signals s = None.
Proof.
  revert signals s. induction bars as [|bar bars IH]; intros signals s; simpl; [lia|].
  destruct signals as [|sig signals]; [reflexivity|]. simpl. intro L.
  destruct (f s bar sig) as [s1|]; [|reflexivity]. simpl. apply IH. lia.
Qed.

Lemma step_total (self : BacktestEngine) (commission slippage lending_rate : Q)
    (strategy_type : StrategyType) (s : SimState) (bar : Bar) (sig : Z) :
  ~ (Close bar * (1 + slippage) == 0)%Q ->
  exists s', step self commission slippage lending_rate strategy_type s bar sig = Some s'.
Proof.
  intro NZ. unfold step.
  destruct (Qeq_bool (Close bar * (1 + slippage)) 0) eqn:E;
    [apply Qeq_bool_iff in E; contradiction|].
  repeat match goal with
         | |- context [if ?c then _ else _] => destruct c
         end; eauto.
Qed.



Lemma vec_loop_beyond_the_frame (self : BacktestEngine) (df : DataFrame)
    (exit_candidates : list nat) (commission slippage lending_rate : Q)
    (strategy_type : StrategyType) (entry_candidates : list nat) (e : nat)
    (s : VecState) :
  In e entry_candidates ->
  (length (rows df) <= e)%nat ->
  (v_current_pos s <= length (rows df))%nat ->
  vec_loop (vec_body self df exit_candidates commission slippage lending_rate
                     strategy_type) entry_candidates s = None.
Proof.
  intros I Far. revert s I.
  induction entry_candidates as [|e0 rest IH]; intros s I Pos; [contradiction|].
  simpl.
  destruct (vec_body _ _ _ _ _ _ _ s e0) as [s1|] eqn:B; [|reflexivity]. simpl.
  pose proof (vec_body_Some _ _ _ _ _ _ _ _ _ _ B) as S.
  destruct I as [E0|I].
  - subst e0. exfalso. destruct S as [[L _]|[_ S]]; [lia|].
    destruct S as (be & bx & x & forced & reason & E & _).
    assert (e < length (rows df))%nat by (apply nth_error_Some; congruence). lia.
  - apply IH; [exact I|].
    destruct S as [[_ ->]|[_ S]]; [exact Pos|].
    destruct S as (be & bx & x & forced & reason & _ & X & _ & ->).
    assert (x < length (rows df))%nat by (apply nth_error_Some; congruence).
    cbv zeta. destruct (_ =? 0); simpl; lia.
Qed.

(** The batch simulator raises when an Enter signal sits at a position
    past the last bar of a frame that is not empty. *)
Theorem enter_beyond_the_frame_raises (self : BacktestEngine) (df : DataFrame)
    (signals : list Z) (commission slippage lending_rate : Q)
    (strategy_type : StrategyType) (e : nat) :
  rows df <> [] ->
  nth_error signals e = Some 1 ->
  (length (rows df) <= e)%nat ->
  execute_trades_vectorized self df signals commission slippage lending_rate
                            strategy_type = None.
Proof.
  intros NE Sig Far. unfold execute_trades_vectorized.
  destruct (Nat.eqb_spec (length (rows df)) 0) as [Z|_].
  { destruct (rows df); [contradiction|discriminate]. }
  rewrite (vec_loop_beyond_the_frame self df _ commission slippage lending_rate
             strategy_type _ e); [reflexivity| |exact Far|simpl; lia].
  now apply np_where_eq_In.
Qed.

Lemma enter_beyond_the_frame_raises_witness :
  execute_trades_vectorized (engine_with 1000 false) (daily_frame [100; 110]%Q)
                            [0; 0; 1] 0 0 0 long = None.
Proof.
  apply (enter_beyond_the_frame_raises _ _ _ _ _ _ _ 2%nat);
    [discriminate|reflexivity|simpl; lia].
Defined.

(** ** A run without an Enter signal *)

Lemma where_from_none (v : Z) (a : list Z) (k : nat) :
  Forall (fun x => x <> v) a -> where_from v a k = [].
Proof.
  intro H. revert k. induction H as [|x a N _ IH]; intro k; simpl; [reflexivity|].
  destruct (Z.eqb_spec x v); [contradiction|apply IH].
Qed.

Lemma run_steps_idle (self : BacktestEngine) (commission slippage lending_rate : Q)
    (strategy_type : StrategyType) (bars : list Bar) (signals : list Z)
    (s : SimState) :
  flat s ->
  Forall (fun sig => sig <> 1) signals ->
  (length bars <= length signals)%nat ->
  exists s',
    run_steps (step self commission slippage lending_rate strategy_type) bars signals s
    = Some s'
    /\ s_position s' = 0 /\ s_trades s' = s_trades s
    /\ s_equity s' = s_equity s ++ repeat (s_cash s) (length bars).
Proof.
  intros F N. revert bars s F.
  induction N as [|sig signals N1 _ IH]; intros bars s F L.
  - destruct bars; [|simpl in L; lia]. simpl. eexists. split; [reflexivity|].
    destruct F as [F _]. rewrite app_nil_r. auto.
  - destruct bars as [|bar bars].
    { simpl. eexists. split; [reflexivity|].
      destruct F as [F _]. rewrite app_nil_r. auto. }
    simpl.
    assert (St : step self commission slippage lending_rate strategy_type s bar sig
                 = Some (mkSimState (s_cash s) 0 (s_entry_price s) None (s_trades s)
                                    (s_equity s ++ [s_cash s]))).
    { destruct F as [P D]. unfold step, force_exit_now. rewrite P, D.
      destruct (Z.eqb_spec sig 1) as [E|_]; [contradiction|]. simpl.
      now rewrite andb_false_r. }
    rewrite St. simpl.
    destruct (IH bars (mkSimState (s_cash s) 0 (s_entry_price s) None (s_trades s)
                                  (s_equity s ++ [s_cash s])))
      as (s' & R & P' & T' & E'); [split; reflexivity|simpl in L; lia|].
    exists s'. split; [exact R|]. split; [exact P'|]. split; [exact T'|].
    rewrite E'. simpl. now rewrite <- app_assoc.
Qed.

(** When no signal is an Enter, both simulators return no trade and an
    equity curve that stays at the initial capital on every bar (the
    per-bar scan provided there is a signal for every bar). *)
Theorem no_enter_signal_no_trade (self : BacktestEngine) (df : DataFrame)
    (signals : list Z) (commission slippage lending_rate : Q)
    (strategy_type : StrategyType) :
  Forall (fun sig => sig <> 1) signals ->
  execute_trades_vectorized self df signals commission slippage lending_rate
                            strategy_type
  = Some ([], repeat (initial_capital self) (length (rows df)))
  /\ ((length (rows df) <= length signals)%nat ->
      execute_trades self df signals commission slippage lending_rate strategy_type
      = Some ([], repeat (initial_capital self) (length (rows df)))).
Proof.
  intro N. split.
  - unfold execute_trades_vectorized.
    destruct (Nat.eqb_spec (length (rows df)) 0) as [Z|_]; [now rewrite Z|].
    replace (np_where_eq signals 1) with (@nil nat)
      by (symmetry; now apply where_from_none).
    reflexivity.
  - intro L. unfold execute_trades.
    destruct (run_steps_idle self commission slippage lending_rate strategy_type
                (rows df) signals (mkSimState (initial_capital self) 0 0 None [] []))
      as (s' & -> & P & T & E); [split; reflexivity|exact N|exact L|].
    simpl. unfold close_at_end. rewrite P, T, E. reflexivity.
Qed.

Lemma no_enter_signal_no_trade_witness :
  execute_trades_vectorized (engine_with 1000 true) (daily_frame [100; 50; 200]%Q)
                            [0; -1; 0] (1 # 100) (1 # 100) 0 short
  = Some ([], [1000; 1000; 1000]%Q)
  /\ ((3 <= 3)%nat ->
      execute_trades (engine_with 1000 true) (daily_frame [100; 50; 200]%Q)
                     [0; -1; 0] (1 # 100) (1 # 100) 0 short
      = Some ([], [1000; 1000; 1000]%Q)).
Proof.
  apply (no_enter_signal_no_trade (engine_with 1000 true)
           (daily_frame [100; 50; 200]%Q) [0; -1; 0] (1 # 100) (1 # 100) 0 short).
  repeat constructor; discriminate.
Defined.

(** ** Position sizing of the batch simulator *)

Lemma sized_app_one (c : Q) (trades : list Trade) (t : Trade) :
  sized c trades ->
  shares t = py_int (cash_after_trades c trades / entry_price t) ->
  sized c (trades ++ [t]).
Proof.
  revert c. induction trades as [|u trades IH]; intros c S H; simpl in *.
  - auto.
  - destruct S as [S1 S2]. split; [exact S1|]. now apply IH.
Qed.

Lemma vec_cash_after_long (self : BacktestEngine) (commission lending_rate cash : Q)
    (d1 d2 : Z) (p1 p2 : Q) (position : Z) (forced : bool) (reason : ExitReason) :
  (vec_cash_after commission lending_rate long cash d1 d2 p1 p2 position
   == cash + profit (vec_trade self commission lending_rate long d1 d2 p1 p2 position
                               forced reason))%Q.
Proof. unfold vec_cash_after, vec_trade. simpl. ring. Qed.

(** Every Long trade of the batch simulator buys the whole number of
    shares that the initial capital plus the profits of the trades before
    it pays for at its entry price, whatever the commission and the
    slippage are. *)
Theorem long_trades_sized_by_running_cash (self : BacktestEngine) (df : DataFrame)
    (signals : list Z) (commission slippage lending_rate : Q)
    (trades : list Trade) (equity : list Q) :
  execute_trades_vectorized self df signals commission slippage lending_rate long
  = Some (trades, equity) ->
  sized (initial_capital self) trades.
Proof.
  unfold execute_trades_vectorized.
  destruct (length (rows df) =? 0)%nat.
  { intro H. injection H as <- _. exact I. }
  destruct (vec_loop _ _ _) as [s|] eqn:E; [|discriminate]. simpl.
  intro H. injection H as <- _.
  assert (Inv : sized (initial_capital self) (v_trades s)
                /\ (v_cash s == cash_after_trades (initial_capital self) (v_trades s))%Q).
  { refine (vec_loop_invariant _
              (fun s => sized (initial_capital self) (v_trades s)
                        /\ (v_cash s
                            == cash_after_trades (initial_capital self) (v_trades s))%Q)
              _ _ _ _ _ E); [|split; [exact I|apply Qeq_refl]].
    intros s0 e s' _ [Sz Eq] B.
    apply vec_body_Some in B. destruct B as [[_ ->]|[_ B]]; [now split|].
    destruct B as (be & bx & exit_idx & forced & reason & _ & _ & _ & ->).
    cbv zeta.
    destruct (Z.eqb_spec (vec_position (v_cash s0) (Close be * (1 + slippage))) 0)
      as [_|NZ]; simpl; [now split|].
    split.
    - apply sized_app_one; [exact Sz|]. simpl.
      unfold vec_position in *.
      destruct (Qltb 0 (Close be * (1 + slippage))); [|congruence].
      apply py_int_comp. now rewrite Eq.
    - rewrite cash_after_trades_app, <- Eq.
      apply vec_cash_after_long. }
  apply Inv.
Qed.

Lemma long_trades_sized_by_running_cash_witness :
  match execute_trades_vectorized (engine_with 1000 false)
          (daily_frame [100; 130; 70; 90]%Q) [1; -1; 1; -1] (1 # 100) (1 # 100) 0 long with
  | Some (t1 :: t2 :: _, _) =>
      shares t1 = py_int (1000 / entry_price t1)
      /\ shares t2 = py_int ((1000 + profit t1) / entry_price t2)
  | _ => False
  end.
Proof.
  destruct (execute_trades_vectorized (engine_with 1000 false)
              (daily_frame [100; 130; 70; 90]%Q) [1; -1; 1; -1] (1 # 100) (1 # 100) 0 long)
    as [[[|t1 [|t2 ts]] equity]|] eqn:E; try (vm_compute in E; discriminate).
  pose proof (long_trades_sized_by_running_cash _ _ _ _ _ _ _ _ E) as (S1 & S2 & _).
  split; assumption.
Defined.

(** ** The performance measures *)

Module PerformanceMetricsFacts.
Import PerformanceMetrics.
Local Open Scope Q_scope.

(** The total return of a curve that starts above zero: growing the
    first value by the return gives the last value; the return is
    positive exactly when the curve ends above its start; and it is -100
    or more when the curve ends at zero or above. *)
Theorem total_return_of_positive_start (initial : Q) (rest : list Q) :
  0 < initial ->
  let curve := initial :: rest in
  let final := last curve 0 in
  initial * (1 + calculate_total_return curve / 100) == final
  /\ (0 < calculate_total_return curve <-> initial < final)
  /\ (0 <= final -> -100 <= calculate_total_return curve).
Proof.
  intros P curve final. unfold calculate_total_return. fold curve. fold final.
  simpl. destruct (Qeq_bool initial 0) eqn:E.
  { apply Qeq_bool_iff in E. rewrite E in P. discriminate. }
  assert (NZ : ~ initial == 0) by (intro H; rewrite H in P; discriminate).
  assert (X : (final - initial) / initial * initial == final - initial)
    by (field; exact NZ).
  revert X. generalize ((final - initial) / initial). intros x X.
  split; [|split].
  - setoid_replace (initial * (1 + x * 100 / 100)) with (initial + x * initial)
      by (field; discriminate).
    rewrite X. ring.
  - split; intro H.
    + assert (0 < x) by Lqa.lra.
      assert (0 < x * initial) by now apply Qmult_lt_0_compat.
      Lqa.lra.
    + destruct (Qlt_le_dec 0 x) as [G|G]; [Lqa.lra|].
      assert (0 <= (- x) * initial)
        by (apply Qmult_le_0_compat; Lqa.lra).
      assert ((- x) * initial == - (x * initial)) by ring.
      Lqa.lra.
  - intro F. destruct (Qlt_le_dec x (-1)) as [G|G]; [|Lqa.lra].
    assert (0 < (-1 - x) * initial) by (apply Qmult_lt_0_compat; Lqa.lra).
    assert ((-1 - x) * initial == - initial - x * initial) by ring.
    Lqa.lra.
Qed.

Lemma total_return_of_positive_start_witness :
  1000 * (1 + calculate_total_return [1000; 900; 1250] / 100) == 1250
  /\ (0 < calculate_total_return [1000; 900; 1250] <-> 1000 < 1250)
  /\ (0 <= 1250 -> -100 <= calculate_total_return [1000; 900; 1250]).
Proof.
  apply (total_return_of_positive_start 1000 [900; 1250]). reflexivity.
Defined.

(** *** The win rate *)

Lemma filter_length_le {A : Type} (f : A -> bool) (l : list A) :
  (length (filter f l) <= length l)%nat.
Proof.
  induction l as [|x l IH]; simpl; [lia|]. destruct (f x); simpl; lia.
Qed.

Lemma filter_length_all {A : Type} (f : A -> bool) (l : list A) :
  length (filter f l) = length l <-> Forall (fun x => f x = true) l.
Proof.
  induction l as [|x l IH]; simpl.
  - split; [constructor|reflexivity].
  - pose proof (filter_length_le f l) as L.
    destruct (f x) eqn:E; simpl; split; intro H.
    + constructor; [exact E|]. apply IH. lia.
    + inversion H; subst. f_equal. now apply IH.
    + lia.
    + inversion H; subst. congruence.
Qed.

Lemma filter_length_none {A : Type} (f : A -> bool) (l : list A) :
  length (filter f l) = 0%nat <-> Forall (fun x => f x = false) l.
Proof.
  induction l as [|x l IH]; simpl.
  - split; [constructor|reflexivity].
  - destruct (f x) eqn:E; simpl; split; intro H.
    + discriminate.
    + inversion H; subst. congruence.
    + constructor; [exact E|]. now apply IH.
    + inversion H; subst. now apply IH.
Qed.

Lemma Qltb_false (x y : Q) : Qltb x y = false <-> y <= x.
Proof.
  unfold Qltb. rewrite negb_false_iff. apply Qle_bool_iff.
Qed.

(** The win rate lies between 0 and 100; it is 100 exactly when there is
    a trade and every trade made a profit above zero, and 0 exactly when
    no trade did: a trade that breaks even is not a win. *)
Theorem win_rate_bounds (trades : list Trade) :
  0 <= calculate_win_rate trades <= 100
  /\ (calculate_win_rate trades == 100 <->
      trades <> [] /\ Forall (fun trade => 0 < profit trade) trades)
  /\ (calculate_win_rate trades == 0 <->
      Forall (fun trade => profit trade <= 0) trades).
Proof.
  destruct trades as [|t0 rest].
  { simpl. split; [split; [apply Qle_refl|discriminate]|]. split.
    - split; [intro H; vm_compute in H; discriminate H|].
      intros [H _]. now contradiction H.
    - split; [constructor|reflexivity]. }
  unfold calculate_win_rate.
  set (trades := t0 :: rest).
  set (win := fun trade => Qltb 0 (profit trade)).
  pose proof (filter_length_le win trades) as L.
  assert (N : (0 < length trades)%nat) by (simpl; lia).
  set (w := length (filter win trades)) in *.
  set (n := length trades) in *.
  assert (Hn : 0 < inject_Z (Z.of_nat n))
    by (rewrite <- (Zlt_Qlt 0); lia).
  assert (Hw : 0 <= inject_Z (Z.of_nat w))
    by (rewrite <- (Zle_Qle 0); lia).
  assert (Hwn : inject_Z (Z.of_nat w) <= inject_Z (Z.of_nat n))
    by (rewrite <- Zle_Qle; lia).
  assert (X : inject_Z (Z.of_nat w) / inject_Z (Z.of_nat n) * inject_Z (Z.of_nat n)
              == inject_Z (Z.of_nat w))
    by (field; intro H; rewrite H in Hn; discriminate).
  assert (B : 0 <= inject_Z (Z.of_nat w) / inject_Z (Z.of_nat n) <= 1).
  { split.
    - apply Qle_shift_div_l; [exact Hn|]. now rewrite Qmult_0_l.
    - apply Qle_shift_div_r; [exact Hn|]. now rewrite Qmult_1_l. }
  revert X B. generalize (inject_Z (Z.of_nat w) / inject_Z (Z.of_nat n)).
  intros x X B.
  split; [Lqa.lra|]. split.
  - transitivity (w = n).
    + split; intro H.
      * assert (E : x == 1) by Lqa.lra. rewrite E, Qmult_1_l in X.
        rewrite inject_Z_injective in X. lia.
      * rewrite H in X.
        assert (E : (x - 1) * inject_Z (Z.of_nat n) == 0).
        { setoid_replace ((x - 1) * inject_Z (Z.of_nat n))
            with (x * inject_Z (Z.of_nat n) - inject_Z (Z.of_nat n)) by ring.
          rewrite X. ring. }
        apply Qmult_integral in E. destruct E as [E|E]; [Lqa.lra|].
        rewrite E in Hn. discriminate.
    + unfold w, n. rewrite filter_length_all. split.
      * intro F. split; [discriminate|].
        eapply Forall_impl; [|exact F]. intros t. unfold win. apply Qltb_lt.
      * intros [_ F]. eapply Forall_impl; [|exact F]. intros t. unfold win.
        apply Qltb_lt.
  - transitivity (w = 0%nat).
    + split; intro H.
      * assert (E : x == 0) by Lqa.lra. rewrite E, Qmult_0_l in X.
        rewrite (inject_Z_injective 0) in X. lia.
      * rewrite H in X. apply Qmult_integral in X.
        destruct X as [E|E]; [Lqa.lra|]. rewrite E in Hn. discriminate.
    + unfold w. rewrite filter_length_none. split; intro F;
        (eapply Forall_impl; [|exact F]); intros t; unfold win; apply Qltb_false.
Qed.

(** *** The profit factor *)

Lemma total_acc (l : list Q) (a : Q) : fold_left Qplus l a == a + total l.
Proof.
  unfold total. revert a. induction l as [|x l IH]; intro a; simpl; [ring|].
  rewrite (IH (a + x)), (IH (0 + x)). ring.
Qed.

Lemma total_cons (x : Q) (l : list Q) : total (x :: l) == x + total l.
Proof.
  unfold total at 1. simpl. rewrite total_acc. ring.
Qed.

Lemma total_positive (l : list Q) :
  Forall (fun x => 0 < x) l -> 0 <= total l /\ (l <> [] -> 0 < total l).
Proof.
  induction 1 as [|x l P _ [IH _]].
  - split; [apply Qle_refl|congruence].
  - rewrite total_cons. split; [|intros _]; Lqa.lra.
Qed.

Lemma total_negative (l : list Q) :
  Forall (fun x => x < 0) l -> total l <= 0 /\ (l <> [] -> total l < 0).
Proof.
  induction 1 as [|x l P _ [IH _]].
  - split; [apply Qle_refl|congruence].
  - rewrite total_cons. split; [|intros _]; Lqa.lra.
Qed.

Lemma filter_nonempty {A : Type} (f : A -> bool) (l : list A) :
  filter f l <> [] <-> exists x, In x l /\ f x = true.
Proof.
  split.
  - destruct (filter f l) as [|x r] eqn:E; [congruence|]. intros _.
    exists x. apply filter_In. rewrite E. now left.
  - intros [x H] E. apply filter_In in H. rewrite E in H. contradiction.
Qed.

(** The profits split into the gains and the losses. *)
Lemma total_gains_and_losses (trades : list Trade) :
  total (map profit trades)
  == total (map profit (filter (fun trade => Qltb 0 (profit trade)) trades))
     + total (map profit (filter (fun trade => Qltb (profit trade) 0) trades)).
Proof.
  induction trades as [|t trades IH]; simpl; [reflexivity|].
  rewrite total_cons, IH.
  destruct (Qltb 0 (profit t)) eqn:W, (Qltb (profit t) 0) eqn:L; simpl;
    rewrite ?total_cons;
    try apply Qltb_lt in W; try apply Qltb_lt in L;
    try apply Qltb_false in W; try apply Qltb_false in L;
    try ring.
  - Lqa.lra.
  - assert (E : profit t == 0) by Lqa.lra. rewrite E. ring.
Qed.

(** The profit factor is infinite exactly when some trade gained and no
    trade lost.  Otherwise it is a finite number, zero or more, and it
    is above 1 exactly when some trade lost and the profits of all the
    trades add up to more than zero. *)
Theorem profit_factor_reading (trades : list Trade) :
  let gains := exists trade, In trade trades /\ 0 < profit trade in
  let losses := exists trade, In trade trades /\ profit trade < 0 in
  (calculate_profit_factor trades = inf <-> gains /\ ~ losses)
  /\ (calculate_profit_factor trades = inf
      \/ exists q, calculate_profit_factor trades = finite q
                   /\ 0 <= q
                   /\ (1 < q <-> losses /\ 0 < total (map profit trades))).
Proof.
  intros gains losses.
  destruct trades as [|t0 rest].
  { simpl. split.
    - split; [discriminate|]. intros [[t [[] _]] _].
    - right. exists 0. split; [reflexivity|]. split; [apply Qle_refl|].
      split; [discriminate|]. intros [[t [[] _]] _]. }
  unfold calculate_profit_factor.
  set (trades := t0 :: rest) in *.
  pose proof (total_gains_and_losses trades) as Net.
  set (W := filter (fun trade => Qltb 0 (profit trade)) trades) in *.
  set (L := filter (fun trade => Qltb (profit trade) 0) trades) in *.
  assert (PW : Forall (fun x => 0 < x) (map profit W)).
  { apply Forall_map, Forall_forall. intros t H. apply filter_In in H.
    now apply Qltb_lt. }
  assert (PL : Forall (fun x => x < 0) (map profit L)).
  { apply Forall_map, Forall_forall. intros t H. apply filter_In in H.
    now apply Qltb_lt. }
  destruct (total_positive _ PW) as [G0 G1].
  destruct (total_negative _ PL) as [L0 L1].
  assert (HG : gains <-> 0 < total (map profit W)).
  { split.
    - intros (t & I & P). apply G1. intro E. apply map_eq_nil in E.
      revert E. apply filter_nonempty. exists t. split; [exact I|now apply Qltb_lt].
    - intro P. destruct W as [|t W'] eqn:E.
      + discriminate P.
      + assert (I : In t (filter (fun trade => Qltb 0 (profit trade)) trades))
          by (fold W; rewrite E; now left).
        apply filter_In in I. exists t. split; [tauto|]. now apply Qltb_lt. }
  assert (HL : losses <-> total (map profit L) < 0).
  { split.
    - intros (t & I & P). apply L1. intro E. apply map_eq_nil in E.
      revert E. apply filter_nonempty. exists t. split; [exact I|now apply Qltb_lt].
    - intro P. destruct L as [|t L'] eqn:E.
      + discriminate P.
      + assert (I : In t (filter (fun trade => Qltb (profit trade) 0) trades))
          by (fold L; rewrite E; now left).
        apply filter_In in I. exists t. split; [tauto|]. now apply Qltb_lt. }
  pose proof (Qabs_neg _ L0) as A.
  revert Net G0 L0 HG HL A.
  generalize (total (map profit trades)) (total (map profit W))
             (total (map profit L)).
  intros net gp nl Net G0 L0 HG HL A.
  revert A. generalize (Qabs nl). intros gl A.
  destruct (Qeq_bool gl 0) eqn:Z.
  - apply Qeq_bool_iff in Z.
    assert (NL : ~ losses) by (rewrite HL; Lqa.lra).
    destruct (Qltb 0 gp) eqn:P.
    + apply Qltb_lt in P. split; [|now left].
      split; [|reflexivity]. intros _. split; [now apply HG|exact NL].
    + apply Qltb_false in P. split.
      * split; [discriminate|]. intros [H _]. apply HG in H. Lqa.lra.
      * right. exists 0. split; [reflexivity|]. split; [apply Qle_refl|].
        split; [discriminate|]. intros [H _]. contradiction.
  - assert (NZ : ~ gl == 0) by (intro H; apply Qeq_bool_iff in H; congruence).
    assert (GL : 0 < gl) by Lqa.lra.
    assert (HL' : losses) by (apply HL; Lqa.lra).
    split.
    + split; [discriminate|]. intros [_ H]. contradiction.
    + right. exists (gp / gl). split; [reflexivity|].
      assert (X : gp / gl * gl == gp) by (field; exact NZ).
      revert X. generalize (gp / gl). intros q X.
      split.
      * destruct (Qlt_le_dec q 0) as [N|N]; [|exact N].
        assert (0 < (- q) * gl) by (apply Qmult_lt_0_compat; Lqa.lra).
        assert ((- q) * gl == - (q * gl)) by ring. Lqa.lra.
      * split.
        -- intro H. split; [exact HL'|].
           assert (0 < (q - 1) * gl) by (apply Qmult_lt_0_compat; Lqa.lra).
           assert ((q - 1) * gl == q * gl - gl) by ring. Lqa.lra.
        -- intros [_ H]. destruct (Qlt_le_dec 1 q) as [N|N]; [exact N|].
           assert (0 <= (1 - q) * gl) by (apply Qmult_le_0_compat; Lqa.lra).
           assert ((1 - q) * gl == gl - q * gl) by ring. Lqa.lra.
Qed.

(** *** The maximum drawdown *)

(** The drawdown of one value below a peak above zero. *)
Lemma drawdown_at (e c : Q) :
  0 < c -> e <= c ->
  exists v, scale (divide (e - c) c) 100 = finite v
            /\ v <= 0 /\ (v == 0 <-> c <= e) /\ (0 <= e -> -100 <= v).
Proof.
  intros P L. unfold divide.
  destruct (Qeq_bool c 0) eqn:Z.
  { apply Qeq_bool_iff in Z. rewrite Z in P. discriminate. }
  assert (NZ : ~ c == 0) by (intro H; rewrite H in P; discriminate).
  simpl. eexists. split; [reflexivity|].
  assert (X : (e - c) / c * c == e - c) by (field; exact NZ).
  revert X. generalize ((e - c) / c). intros x X.
  assert (N : x <= 0).
  { destruct (Qlt_le_dec 0 x) as [G|G]; [|exact G].
    assert (0 < x * c) by now apply Qmult_lt_0_compat. Lqa.lra. }
  split; [Lqa.lra|]. split; [split|].
  - intro H. assert (E : x == 0) by Lqa.lra. rewrite E, Qmult_0_l in X. Lqa.lra.
  - intro H. assert (E : x * c == 0) by Lqa.lra.
    apply Qmult_integral in E. destruct E as [E|E]; [Lqa.lra|contradiction].
  - intro H. destruct (Qlt_le_dec x (-1)) as [G|G]; [|Lqa.lra].
    assert (0 < (-1 - x) * c) by (apply Qmult_lt_0_compat; Lqa.lra).
    assert ((-1 - x) * c == - c - x * c) by ring. Lqa.lra.
Qed.

Lemma Sorted_head_compat (a b : Q) (r : list Q) :
  a == b -> Sorted Qle (a :: r) -> Sorted Qle (b :: r).
Proof.
  intros E S. inversion S as [|? ? S' H]; subst. constructor; [exact S'|].
  inversion H; subst; constructor. now rewrite <- E.
Qed.

Lemma Sorted_cons2 (a b : Q) (r : list Q) :
  Sorted Qle (a :: b :: r) <-> a <= b /\ Sorted Qle (b :: r).
Proof.
  split.
  - intro S. inversion S as [|? ? S' H]; subst. inversion H; subst. now split.
  - intros [L S]. constructor; [exact S|now constructor].
Qed.

(** The drawdowns after a running peak above zero. *)
Lemma drawdown_from (run : Q) (rest : list Q) :
  0 < run ->
  exists vs,
    zip_with (fun e c => scale (divide (e - c) c) 100) rest
             (accumulate_from Qmax run rest)
    = map finite vs
    /\ Forall (fun v => v <= 0) vs
    /\ (Forall (fun v => v == 0) vs <-> Sorted Qle (run :: rest))
    /\ (Forall (fun e => 0 <= e) rest -> Forall (fun v => -100 <= v) vs).
Proof.
  revert run. induction rest as [|e r IH]; intros run P.
  - exists []. simpl. repeat split; try constructor; constructor.
  - simpl.
    assert (P' : 0 < Qmax run e)
      by (eapply Qlt_le_trans; [exact P|apply Q.le_max_l]).
    destruct (drawdown_at e (Qmax run e) P' (Q.le_max_r _ _))
      as (v & -> & V1 & V2 & V3).
    destruct (IH (Qmax run e) P') as (vs & -> & F1 & F2 & F3).
    exists (v :: vs). split; [reflexivity|]. split; [now constructor|].
    assert (M : Qmax run e <= e <-> run <= e).
    { split; intro H.
      - eapply Qle_trans; [apply Q.le_max_l|exact H].
      - rewrite (Q.max_r _ _ H). apply Qle_refl. }
    split; [split|].
    + intro F. inversion F as [|? ? Fv Fvs]; subst.
      assert (L : run <= e) by now apply M, V2.
      apply Sorted_cons2. split; [exact L|].
      apply (Sorted_head_compat (Qmax run e)); [now apply Q.max_r|now apply F2].
    + intro S. apply Sorted_cons2 in S. destruct S as [L S].
      constructor; [now apply V2, M|].
      apply F2. apply (Sorted_head_compat e); [|exact S].
      symmetry. now apply Q.max_r.
    + intro F. inversion F; subst. constructor; auto.
Qed.

Lemma filter_finite (vs : list Q) :
  filter (fun x => negb (is_nan x)) (map finite vs) = map finite vs.
Proof.
  induction vs as [|v vs IH]; simpl; [reflexivity|]. now rewrite IH.
Qed.

(** The running minimum of finite values is one of them, and none is
    below it. *)
Lemma fold_min_finite (vs : list Q) (x : Q) :
  exists m,
    fold_left (fun m y => if le y m then y else m) (map finite vs) (finite x)
    = finite m
    /\ In m (x :: vs) /\ m <= x /\ Forall (fun v => m <= v) vs.
Proof.
  revert x. induction vs as [|y r IH]; intro x; simpl.
  - exists x. repeat split; [now left|apply Qle_refl|constructor].
  - destruct (Qle_bool y x) eqn:E.
    + apply Qle_bool_iff in E.
      destruct (IH y) as (m & -> & I & L & F).
      exists m. split; [reflexivity|]. split; [now right|].
      split; [Lqa.lra|]. now constructor.
    + assert (G : x < y).
      { apply Qnot_le_lt. intro H. apply Qle_bool_iff in H. congruence. }
      destruct (IH x) as (m & -> & I & L & F).
      exists m. split; [reflexivity|]. split.
      * destruct I as [I|I]; [now left|now right; right].
      * split; [exact L|]. constructor; [Lqa.lra|exact F].
Qed.

(** On a curve that starts above zero the maximum drawdown is a finite
    number, zero or more; it is zero exactly when the curve never
    falls, and it is 100 or less when the curve never goes below zero. *)
Theorem max_drawdown_of_positive_start (initial : Q) (rest : list Q) :
  0 < initial ->
  let curve := initial :: rest in
  exists d,
    calculate_max_drawdown curve = finite d
    /\ 0 <= d
    /\ (d == 0 <-> Sorted Qle curve)
    /\ (Forall (fun e => 0 <= e) curve -> d <= 100).
Proof.
  intros P curve. unfold calculate_max_drawdown, curve. simpl accumulate.
  cbn [zip_with].
  destruct (drawdown_at initial initial P (Qle_refl _)) as (v0 & -> & V1 & V2 & V3).
  destruct (drawdown_from initial rest P) as (vs & -> & F1 & F2 & F3).
  unfold series_min. cbn [filter is_nan negb]. rewrite filter_finite.
  destruct (fold_min_finite vs v0) as (m & -> & I & L & F).
  assert (Z0 : v0 == 0) by (apply V2, Qle_refl).
  assert (N : m <= 0) by Lqa.lra.
  exists (Qabs m). split; [reflexivity|].
  rewrite (Qabs_neg _ N).
  split; [Lqa.lra|]. split; [split|].
  - intro H. apply F2.
    rewrite Forall_forall in *. intros v Hv.
    specialize (F v Hv). specialize (F1 v Hv). Lqa.lra.
  - intro S. apply F2 in S.
    destruct I as [<-|I]; [Lqa.lra|].
    rewrite Forall_forall in S. specialize (S m I). Lqa.lra.
  - intro A. inversion A as [|? ? A0 A1]; subst.
    destruct I as [<-|I]; [Lqa.lra|].
    specialize (F3 A1). rewrite Forall_forall in F3. specialize (F3 m I). Lqa.lra.
Qed.

Lemma max_drawdown_of_positive_start_witness :
  exists d,
    calculate_max_drawdown [1000; 1200; 900; 1500] = finite d
    /\ 0 <= d
    /\ (d == 0 <-> Sorted Qle [1000; 1200; 900; 1500])
    /\ (Forall (fun e => 0 <= e) [1000; 1200; 900; 1500] -> d <= 100).
Proof.
  apply (max_drawdown_of_positive_start 1000 [1200; 900; 1500]). reflexivity.
Defined.

(** *** The measures of a run without an Enter signal *)

Lemma vectorized_without_enter (self : BacktestEngine) (df : DataFrame)
    (signals : list Z) (commission slippage lending_rate : Q)
    (strategy_type : StrategyType) :
  Forall (fun sig => sig <> 1%Z) signals ->
  execute_trades_vectorized self df signals commission slippage lending_rate
                            strategy_type
  = Some ([], repeat (initial_capital self) (length (rows df))).
Proof.
  intro N. unfold execute_trades_vectorized.
  destruct (Nat.eqb_spec (length (rows df)) 0) as [Z|_]; [now rewrite Z|].
  replace (np_where_eq signals 1) with (@nil nat)
    by (symmetry; now apply where_from_none).
  reflexivity.
Qed.

Lemma last_repeat (c d : Q) (n : nat) : last (c :: repeat c n) d = c.
Proof.
  induction n as [|n IH]; [reflexivity|]. exact IH.
Qed.

Lemma Sorted_repeat (c : Q) (n : nat) : Sorted Qle (repeat c n).
Proof.
  induction n as [|n IH]; simpl; [constructor|].
  constructor; [exact IH|]. destruct n; simpl; constructor. apply Qle_refl.
Qed.

(** A run of the batch simulator without an Enter signal, on a capital
    above zero, measured as [run_backtest] measures it, from the valid
    bucket and the curve rebuilt from it: the total return, the maximum
    drawdown, the win rate and the profit factor are all zero. *)
Theorem no_enter_signal_flat_measures (self : BacktestEngine) (df : DataFrame)
    (signals : list Z) (commission slippage lending_rate : Q)
    (strategy_type : StrategyType) :
  0 < initial_capital self ->
  Forall (fun sig => sig <> 1%Z) signals ->
  match execute_trades_vectorized self df signals commission slippage lending_rate
                                  strategy_type with
  | Some (trades, _) =>
      let '(valid_trades, _, _) := classify_trades self trades in
      let valid_equity_curve :=
        calculate_valid_equity_curve self df valid_trades commission slippage
                                     lending_rate strategy_type in
      calculate_total_return valid_equity_curve == 0
      /\ (exists d, calculate_max_drawdown valid_equity_curve = finite d /\ d == 0)
      /\ calculate_win_rate valid_trades == 0
      /\ calculate_profit_factor valid_trades = finite 0
  | None => False
  end.
Proof.
  intros P N. rewrite (vectorized_without_enter _ _ _ _ _ _ _ N).
  cbn [classify_trades calculate_valid_equity_curve].
  destruct (length (rows df)) as [|n]; simpl repeat.
  - simpl. repeat split; try reflexivity. exists 0. now split.
  - split; [|split; [|split; reflexivity]].
    + unfold calculate_total_return. rewrite last_repeat.
      destruct (Qeq_bool (initial_capital self) 0) eqn:E; [reflexivity|].
      field. intro H. rewrite H in P. discriminate.
    + unfold calculate_max_drawdown. simpl accumulate. cbn [zip_with].
      destruct (drawdown_at _ _ P (Qle_refl (initial_capital self)))
        as (v0 & -> & V1 & V2 & _).
      destruct (drawdown_from (initial_capital self)
                  (repeat (initial_capital self) n) P) as (vs & -> & F1 & F2 & _).
      unfold series_min. cbn [filter is_nan negb]. rewrite filter_finite.
      destruct (fold_min_finite vs v0) as (m & -> & I & L & F).
      assert (Z0 : v0 == 0) by (apply V2, Qle_refl).
      assert (S : Forall (fun v => v == 0) vs)
        by (apply F2; apply (Sorted_repeat (initial_capital self) (S n))).
      exists (Qabs m). split; [reflexivity|].
      assert (Zm : m == 0).
      { destruct I as [<-|I]; [exact Z0|].
        rewrite Forall_forall in S. now apply S. }
      rewrite Zm. reflexivity.
Qed.

Lemma no_enter_signal_flat_measures_witness :
  match execute_trades_vectorized (engine_with 1000 true)
          (daily_frame [100; 50; 200]) [0; -1; 0]%Z (1 # 100) (1 # 100) 0 long with
  | Some (trades, _) =>
      let '(valid_trades, _, _) := classify_trades (engine_with 1000 true) trades in
      let valid_equity_curve :=
        calculate_valid_equity_curve (engine_with 1000 true)
          (daily_frame [100; 50; 200]) valid_trades (1 # 100) (1 # 100) 0 long in
      calculate_total_return valid_equity_curve == 0
      /\ (exists d, calculate_max_drawdown valid_equity_curve = finite d /\ d == 0)
      /\ calculate_win_rate valid_trades == 0
      /\ calculate_profit_factor valid_trades = finite 0
  | None => False
  end.
Proof.
  apply (no_enter_signal_flat_measures (engine_with 1000 true)
           (daily_frame [100; 50; 200]) [0; -1; 0]%Z (1 # 100) (1 # 100) 0 long).
  - reflexivity.
  - repeat constructor; discriminate.
Defined.

End PerformanceMetricsFacts.

(** ** The sign of the Sharpe ratio *)

Module SharpeRatioFacts.
Import Metrics.
Local Open Scope R_scope.

(** On two returns or more the Sharpe ratio is a number, not NaN; it is
    above zero only when the annualised mean return is above the
    risk-free rate, and below zero only when it is below that rate. *)
Theorem sharpe_ratio_sign (returns : list R) (risk_free_rate : R) :
  (2 <= length returns)%nat ->
  let annual_return := total returns / INR (length returns) * 252 in
  exists r,
    calculate_sharpe_ratio returns risk_free_rate = Some r
    /\ (0 < r -> risk_free_rate < annual_return)
    /\ (r < 0 -> annual_return < risk_free_rate).
Proof.
  intros L annual_return.
  assert (M : mean returns = Some (total returns / INR (length returns)))
    by (destruct returns; [simpl in L; lia|reflexivity]).
  assert (S : exists s, std returns = Some s /\ 0 <= s).
  { unfold std. rewrite M.
    destruct (Nat.leb_spec (length returns) 1) as [H|_]; [lia|].
    eexists. split; [reflexivity|]. apply sqrt_pos. }
  destruct S as (s & S & Pos).
  unfold calculate_sharpe_ratio. rewrite M, S.
  destruct (Nat.eqb_spec (length returns) 0) as [H|_]; [lia|].
  cbn [orb is_zero fmul fsub fdiv].
  destruct (Req_dec_T s 0) as [Z|NZ].
  { exists 0. split; [reflexivity|]. split; intro H; lra. }
  destruct (Req_dec_T (s * sqrt 252) 0) as [Z|NZ'].
  { exists 0. split; [reflexivity|]. split; intro H; lra. }
  eexists. split; [reflexivity|].
  fold annual_return.
  assert (D : 0 < s * sqrt 252).
  { apply Rmult_lt_0_compat; [lra|].
    pose proof (sqrt_pos 252). pose proof MetricsFacts.sqrt_252_nonzero. lra. }
  assert (X : (annual_return - risk_free_rate) / (s * sqrt 252) * (s * sqrt 252)
              = annual_return - risk_free_rate)
    by (field; split; [apply MetricsFacts.sqrt_252_nonzero|exact NZ]).
  revert X. generalize ((annual_return - risk_free_rate) / (s * sqrt 252)).
  generalize (s * sqrt 252) D. intros d D' q X.
  split; intro H.
  - assert (0 < q * d) by now apply Rmult_lt_0_compat. lra.
  - assert (0 < (- q) * d) by (apply Rmult_lt_0_compat; lra).
    assert ((- q) * d = - (q * d)) by ring. lra.
Qed.

Lemma sharpe_ratio_sign_witness :
  exists r,
    calculate_sharpe_ratio [1; 2; 3] 0 = Some r
    /\ (0 < r -> 0 < total [1; 2; 3] / INR (length [1; 2; 3]) * 252)
    /\ (r < 0 -> total [1; 2; 3] / INR (length [1; 2; 3]) * 252 < 0).
Proof.
  apply (sharpe_ratio_sign [1; 2; 3] 0). simpl. lia.
Defined.

End SharpeRatioFacts.


(** * The signals of the strategies *)

Lemma nonzero_from_where (mask : list bool) (k : nat) :
  nonzero_from mask k
  = where_from 1 (map (fun b : bool => if b then 1 else 0) mask) k.
Proof.
  revert k. induction mask as [|b mask IH]; intro k; simpl; [reflexivity|].
  destruct b; simpl; now rewrite IH.
Qed.

Lemma np_where_In (mask : list bool) (i : nat) :
  In i (np_where mask) <-> nth_error mask i = Some true.
Proof.
  unfold np_where. rewrite nonzero_from_where.
  fold (np_where_eq (map (fun b : bool => if b then 1 else 0) mask) 1).
  rewrite np_where_eq_In, nth_error_map.
  destruct (nth_error mask i) as [[|]|]; simpl; split; congruence.
Qed.

Lemma np_where_sorted (mask : list bool) : StronglySorted lt (np_where mask).
Proof.
  unfold np_where. rewrite nonzero_from_where. apply where_from_sorted.
Qed.

Lemma nth_error_assign_from {A : Type} (f : nat -> A -> A) (lo hi : nat) (a : list A)
    (j k : nat) :
  nth_error (assign_from f lo hi a j) k
  = option_map (fun x => if (lo <=? j + k)%nat && (j + k <? hi)%nat
                         then f (j + k)%nat x else x)
               (nth_error a k).
Proof.
  revert j k. induction a as [|x a IH]; intros j k; simpl.
  - now destruct k.
  - destruct k as [|k]; simpl.
    + now rewrite Nat.add_0_r.
    + rewrite IH. now replace (S j + k)%nat with (j + S k)%nat by lia.
Qed.

Lemma nth_error_assign_slice {A : Type} (a : list A) (lo hi : nat) (f : nat -> A -> A)
    (k : nat) :
  nth_error (assign_slice a lo hi f) k
  = option_map (fun x => if (lo <=? k)%nat && (k <? hi)%nat then f k x else x)
               (nth_error a k).
Proof. unfold assign_slice. now rewrite nth_error_assign_from. Qed.

(** The first element that a filter keeps of an increasing list is the
    least element that passes. *)
Lemma filter_head_sorted (f : nat -> bool) (l : list nat) (x : nat) (r : list nat) :
  StronglySorted lt l ->
  filter f l = x :: r ->
  In x l /\ f x = true /\ forall y, In y l -> f y = true -> (x <= y)%nat.
Proof.
  induction 1 as [|z l S IH F]; simpl; [discriminate|].
  destruct (f z) eqn:E.
  - intro H. injection H as -> _. split; [now left|]. split; [exact E|].
    intros y [<-|I] _; [lia|]. rewrite Forall_forall in F. specialize (F y I). lia.
  - intro H. destruct (IH H) as (I & Fx & Min). split; [now right|].
    split; [exact Fx|]. intros y [<-|Iy] Fy; [congruence|now apply Min].
Qed.

(** One turn of the loop at an entry position keeps what the signals
    say, and does not raise when the two conditions are equally long. *)
Lemma signal_body_written (entry_condition exit_condition : list bool)
    (s : SignalState) (entry_idx : nat) :
  length exit_condition = length entry_condition ->
  nth_error entry_condition entry_idx = Some true ->
  signals_written entry_condition exit_condition s ->
  exists s',
    signal_body (length entry_condition) exit_condition (np_where exit_condition)
                s entry_idx = Some s'
    /\ signals_written entry_condition exit_condition s'.
Proof.
  intros Len En [LenA W]. unfold signal_body.
  set (n := length entry_condition) in *.
  destruct (Nat.ltb_spec entry_idx (g_current_pos s)) as [_|Pos].
  { exists s. split; [reflexivity|now split]. }
  assert (En_lt : (entry_idx < n)%nat) by (apply nth_error_Some; congruence).
  set (valid_exits := filter (fun x => (entry_idx <? x)%nat) (np_where exit_condition)).
  set (exit_idx := match valid_exits with x :: _ => x | [] => (n - 1)%nat end).
  assert (X : (entry_idx <= exit_idx < n)%nat
              /\ forall j, (entry_idx < j < exit_idx)%nat ->
                           nth_error exit_condition j = Some false).
  { assert (Known : forall j, (j < n)%nat ->
                              (nth_error exit_condition j = Some true -> False) ->
                              nth_error exit_condition j = Some false).
    { intros j Hj Not.
      destruct (nth_error exit_condition j) as [[|]|] eqn:E; try reflexivity.
      - now contradiction Not.
      - apply nth_error_None in E. lia. }
    unfold exit_idx. destruct valid_exits as [|x r] eqn:V.
    - split; [lia|]. intros j Hj. apply Known; [lia|]. intro T.
      assert (I : In j valid_exits).
      { apply filter_In. split; [now apply np_where_In|].
        apply Nat.ltb_lt. lia. }
      rewrite V in I. contradiction.
    - destruct (filter_head_sorted _ _ _ _ (np_where_sorted exit_condition) V)
        as (I & F & Min).
      apply np_where_In in I. apply Nat.ltb_lt in F.
      assert (x < n)%nat by (rewrite <- Len; apply nth_error_Some; congruence).
      split; [lia|]. intros j Hj. apply Known; [lia|]. intro T.
      assert (x <= j)%nat; [|lia].
      apply Min; [now apply np_where_In|apply Nat.ltb_lt; lia]. }
  destruct X as [Range Quiet].
  destruct (Nat.ltb_spec exit_idx n) as [_|]; [|lia].
  destruct (nth_error exit_condition exit_idx) as [exit_here|] eqn:Ex;
    [|apply nth_error_None in Ex; lia].
  simpl. eexists. split; [reflexivity|].
  set (arr' := if exit_here
               then assign_slice
                      (assign_slice (g_signal_arr s) entry_idx exit_idx (fun _ _ => 1))
                      exit_idx (exit_idx + 1) (fun _ _ => -1)
               else assign_slice (g_signal_arr s) entry_idx exit_idx (fun _ _ => 1)).
  assert (New : forall k,
             nth_error arr' k
             = option_map
                 (fun v => if exit_here && (k =? exit_idx)%nat then -1
                           else if (entry_idx <=? k)%nat && (k <? exit_idx)%nat then 1
                                else v)
                 (nth_error (g_signal_arr s) k)).
  { intro k. unfold arr'. destruct exit_here; simpl;
      rewrite ?nth_error_assign_slice;
      destruct (nth_error (g_signal_arr s) k) as [v|]; simpl; try reflexivity.
    f_equal.
    destruct (Nat.eqb_spec k exit_idx) as [->|NE].
    - destruct (Nat.leb_spec exit_idx exit_idx); [|lia].
      destruct (Nat.ltb_spec exit_idx (exit_idx + 1)); [|lia]. reflexivity.
    - destruct (Nat.leb_spec exit_idx k), (Nat.ltb_spec k (exit_idx + 1));
        simpl; try reflexivity. lia. }
  assert (LenA' : length arr' = n).
  { unfold arr'. destruct exit_here; now rewrite ?assign_slice_length. }
  split; [exact LenA'|]. cbn [g_signal_arr g_current_pos].
  intros k v' Hk. rewrite New in Hk.
  destruct (nth_error (g_signal_arr s) k) as [v|] eqn:Old; [|discriminate].
  simpl in Hk. injection Hk as Hv.
  destruct (W k v Old) as (V1 & V2 & V3 & V4).
  assert (Kn : (k < n)%nat) by (rewrite <- LenA; apply nth_error_Some; congruence).
  destruct (Nat.eqb_spec k exit_idx) as [Kx|Kx].
  - (* the exit position *)
    subst k. rewrite andb_true_r in Hv.
    destruct (Nat.ltb_spec exit_idx exit_idx); [lia|]. rewrite andb_false_r in Hv.
    assert (v = 0) by (apply V2; lia). subst v.
    destruct exit_here; simpl in Hv; subst v'.
    + split; [auto|]. split; [lia|]. split; [discriminate|]. intros _. exact Ex.
    + split; [auto|]. split; [reflexivity|]. split; discriminate.
  - rewrite andb_false_r in Hv.
    destruct (Nat.leb_spec entry_idx k) as [Ge|Lt];
      [destruct (Nat.ltb_spec k exit_idx) as [In_run|After]|]; simpl in Hv; subst v'.
    + (* inside the run *)
      split; [auto|]. split; [lia|]. split; [|discriminate].
      intros _. split; [lia|].
      destruct (Nat.eq_dec k entry_idx) as [->|Later]; [now left|].
      right. split; [lia|]. split; [|apply Quiet; lia].
      rewrite New.
      destruct (nth_error (g_signal_arr s) (k - 1)) as [u|] eqn:U;
        [|apply nth_error_None in U; lia].
      simpl. destruct (Nat.eqb_spec (k - 1) exit_idx); [lia|].
      rewrite andb_false_r.
      destruct (Nat.leb_spec entry_idx (k - 1)); [|lia].
      destruct (Nat.ltb_spec (k - 1) exit_idx); [|lia]. reflexivity.
    + (* after the exit position *)
      assert (v = 0) by (apply V2; lia). subst v.
      split; [auto|]. split; [reflexivity|]. split; discriminate.
    + (* before the run *)
      split; [exact V1|]. split; [intro; apply V2; lia|]. split; [|exact V4].
      intro Is1. destruct (V3 Is1) as [B [E|(K0 & Prev & Q)]]; split; auto.
      right. split; [exact K0|]. split; [|exact Q].
      rewrite New, Prev. simpl.
      destruct (Nat.eqb_spec (k - 1) exit_idx); [lia|]. rewrite andb_false_r.
      destruct (Nat.leb_spec entry_idx (k - 1)); [lia|]. reflexivity.
Qed.

Lemma signal_loop_written (entry_condition exit_condition : list bool)
    (entry_indices : list nat) (s : SignalState) :
  length exit_condition = length entry_condition ->
  (forall e, In e entry_indices -> nth_error entry_condition e = Some true) ->
  signals_written entry_condition exit_condition s ->
  exists s',
    signal_loop (signal_body (length entry_condition) exit_condition
                             (np_where exit_condition)) entry_indices s = Some s'
    /\ signals_written entry_condition exit_condition s'.
Proof.
  intros Len. revert s. induction entry_indices as [|e rest IH]; intros s En W; simpl.
  - eauto.
  - destruct (signal_body_written entry_condition exit_condition s e Len)
      as (s1 & -> & W1); [apply En; now left|exact W|].
    simpl. apply IH; [|exact W1]. intros e' I. apply En. now right.
Qed.

Lemma nothing_written (entry_condition exit_condition : list bool) :
  signals_written entry_condition exit_condition
    (mkSignalState (repeat 0 (length entry_condition)) 0).
Proof.
  split; [apply repeat_length|]. simpl. intros k v H.
  apply nth_error_In, repeat_spec in H. subst v.
  split; [auto|]. split; [reflexivity|]. split; discriminate.
Qed.

Lemma generated_signals_written (entry_condition exit_condition : list bool) :
  length exit_condition = length entry_condition ->
  exists s,
    generate_position_signals_vectorized entry_condition exit_condition
    = Some (g_signal_arr s)
    /\ signals_written entry_condition exit_condition s.
Proof.
  intro Len. unfold generate_position_signals_vectorized.
  pose proof (nothing_written entry_condition exit_condition) as W0.
  destruct (length entry_condition =? 0)%nat; [eexists; split; [|exact W0]; reflexivity|].
  destruct (np_where entry_condition) as [|e rest] eqn:E;
    [eexists; split; [|exact W0]; reflexivity|].
  destruct (signal_loop_written entry_condition exit_condition (e :: rest)
              (mkSignalState (repeat 0 (length entry_condition)) 0) Len)
    as (s & -> & W); [|exact W0|].
  - intros e' I. apply np_where_In. now rewrite E.
  - exists s. split; [reflexivity|exact W].
Qed.

(** For an entry and an exit condition of the same length the generator
    does not raise, and returns one signal per bar, each of them 0, 1 or
    -1. *)
Theorem generated_signals_shape (entry_condition exit_condition : list bool) :
  length exit_condition = length entry_condition ->
  exists signals,
    generate_position_signals_vectorized entry_condition exit_condition = Some signals
    /\ length signals = length entry_condition
    /\ Forall (fun v => v = 0 \/ v = 1 \/ v = -1) signals.
Proof.
  intro Len.
  destruct (generated_signals_written entry_condition exit_condition Len)
    as (s & -> & LenA & W).
  exists (g_signal_arr s). split; [reflexivity|]. split; [exact LenA|].
  apply Forall_forall. intros v I. apply In_nth_error in I. destruct I as [k Hk].
  now apply (W k v Hk).
Qed.

Lemma generated_signals_shape_witness :
  exists signals,
    generate_position_signals_vectorized [false; true; false; false; true]
                                         [false; false; false; true; true]
    = Some signals
    /\ length signals = 5%nat
    /\ Forall (fun v => v = 0 \/ v = 1 \/ v = -1) signals.
Proof.
  apply (generated_signals_shape [false; true; false; false; true]
                                 [false; false; false; true; true]).
  reflexivity.
Defined.

(** What the generated signals say.  A 1 is never on the last bar; it
    stands on a bar where the entry condition holds, or it continues the
    1 of the bar before on a bar where the exit condition does not hold.
    A -1 stands only on a bar where the exit condition holds. *)
Theorem generated_signals_reading (entry_condition exit_condition : list bool)
    (signals : list Z) :
  length exit_condition = length entry_condition ->
  generate_position_signals_vectorized entry_condition exit_condition = Some signals ->
  forall k,
    (nth_error signals k = Some 1 ->
     (k + 1 < length entry_condition)%nat
     /\ (nth_error entry_condition k = Some true
         \/ (0 < k)%nat
            /\ nth_error signals (k - 1) = Some 1
            /\ nth_error exit_condition k = Some false))
    /\ (nth_error signals k = Some (-1) -> nth_error exit_condition k = Some true).
Proof.
  intros Len Gen k.
  destruct (generated_signals_written entry_condition exit_condition Len)
    as (s & Gen' & _ & W).
  rewrite Gen in Gen'. injection Gen' as ->.
  split; intro H; now apply (W k _ H).
Qed.

Lemma generated_signals_reading_witness :
  match generate_position_signals_vectorized [false; true; false; false; true]
                                             [false; false; false; true; true] with
  | Some signals =>
      nth_error signals 3 = Some (-1) ->
      nth_error [false; false; false; true; true] 3 = Some true
  | None => False
  end.
Proof.
  destruct (generate_position_signals_vectorized [false; true; false; false; true]
                                                 [false; false; false; true; true])
    as [signals|] eqn:E; [|vm_compute in E; discriminate].
  apply (generated_signals_reading [false; true; false; false; true]
           [false; false; false; true; true] signals eq_refl E 3%nat).
Defined.




(** * The compatibility score *)

Module CompatibilityAnalyzerFacts.
Import CompatibilityAnalyzer.
Local Open Scope Q_scope.

Lemma Qle_bool_false (x y : Q) : Qle_bool x y = false -> y < x.
Proof.
  intro E. apply Qnot_le_lt. intro H. apply Qle_bool_iff in H. congruence.
Qed.

(** The branches of the two functions, with the conditions as facts. *)
Ltac score_branches :=
  repeat match goal with
    | |- context [if (?a =? ?b)%Z then _ else _] => destruct (Z.eqb_spec a b)
    | |- context [if (?a <? ?b)%Z then _ else _] => destruct (Z.ltb_spec a b)
    | |- context [Qltb ?a ?b] =>
        let E := fresh "E" in
        destruct (Qltb a b) eqn:E;
        [apply Qltb_lt in E|apply PerformanceMetricsFacts.Qltb_false in E];
        cbn [andb]
    | |- context [Qle_bool ?a ?b] =>
        let E := fresh "E" in
        destruct (Qle_bool a b) eqn:E;
        [apply Qle_bool_iff in E|apply Qle_bool_false in E]
    end.

(** Each minimum and maximum becomes a number with its two cases. *)
Ltac name_min_max :=
  repeat match goal with
    | |- context [Qmin ?a ?b] =>
        let m := fresh "m" in
        pose proof (Q.min_spec a b); set (m := Qmin a b) in *; clearbody m
    | |- context [Qmax ?a ?b] =>
        let m := fresh "m" in
        pose proof (Q.max_spec a b); set (m := Qmax a b) in *; clearbody m
    | _ : context [Qmin ?a ?b] |- _ =>
        let m := fresh "m" in
        pose proof (Q.min_spec a b); set (m := Qmin a b) in *; clearbody m
    | _ : context [Qmax ?a ?b] |- _ =>
        let m := fresh "m" in
        pose proof (Q.max_spec a b); set (m := Qmax a b) in *; clearbody m
    end.

Lemma trade_score_shape (n : Z) :
  inject_Z (n * 3) == inject_Z n * 3.
Proof. now rewrite inject_Z_mult. Qed.

(** For a result with a trade count of zero or more and a win rate
    between 0 and 100, the score lies between 0 and 100. *)
Theorem score_between_0_and_100 (result : BacktestResult) :
  (0 <= num_trades result)%Z ->
  0 <= win_rate result <= 100 ->
  0 <= calculate_score result <= 100.
Proof.
  intros N W. unfold calculate_score, calculate_base_score.
  pose proof (trade_score_shape (num_trades result)) as T.
  assert (N' : 0 <= inject_Z (num_trades result)) by now rewrite <- (Zle_Qle 0).
  set (t := inject_Z (num_trades result * 3)) in *. clearbody t.
  set (n := inject_Z (num_trades result)) in *. clearbody n.
  score_branches; name_min_max; Lqa.lra.
Qed.

Lemma score_between_0_and_100_witness :
  0 <= calculate_score (mkBacktestResult 12 55 7) <= 100.
Proof.
  apply (score_between_0_and_100 (mkBacktestResult 12 55 7)).
  - simpl. lia.
  - simpl. split; discriminate.
Defined.

(** The limits that the conditions of the score set, whichever branch
    the result takes: no trade gives 0; a total return below -10 gives
    20 or less; a win rate below 40 gives 50 or less, and 30 or less
    when the total return is zero or below; fewer than 5 trades give 70
    or less. *)
Theorem score_limits (result : BacktestResult) :
  (num_trades result = 0%Z -> calculate_score result = 0)
  /\ (total_return result < -10 -> calculate_score result <= 20)
  /\ (win_rate result < 40 /\ total_return result <= 0 -> calculate_score result <= 30)
  /\ (win_rate result < 40 -> calculate_score result <= 50)
  /\ ((num_trades result < 5)%Z -> calculate_score result <= 70).
Proof.
  unfold calculate_score, calculate_base_score.
  pose proof (trade_score_shape (num_trades result)) as T.
  set (t := inject_Z (num_trades result * 3)) in *. clearbody t.
  set (n := inject_Z (num_trades result)) in *. clearbody n.
  split; [intros ->; reflexivity|].
  repeat split; intro H; score_branches; name_min_max; try lia; Lqa.lra.
Qed.

Lemma score_limits_witness :
  calculate_score (mkBacktestResult 25 80 3) <= 70.
Proof.
  apply (score_limits (mkBacktestResult 25 80 3)). simpl. lia.
Defined.

(** With the trade count and the win rate unchanged, a larger total
    return never gives a smaller score. *)
Theorem score_grows_with_total_return (result : BacktestResult) (better : Q) :
  (0 <= num_trades result)%Z ->
  0 <= win_rate result ->
  total_return result <= better ->
  calculate_score result
  <= calculate_score (mkBacktestResult better (win_rate result) (num_trades result)).
Proof.
  intros N W B. unfold calculate_score, calculate_base_score.
  cbn [total_return win_rate num_trades].
  destruct (Z.eqb_spec (num_trades result) 0) as [_|NZ]; [apply Qle_refl|].
  pose proof (trade_score_shape (num_trades result)) as T.
  assert (N' : 1 <= inject_Z (num_trades result)) by (rewrite <- (Zle_Qle 1); lia).
  set (t := inject_Z (num_trades result * 3)) in *. clearbody t.
  set (n := inject_Z (num_trades result)) in *. clearbody n.
  score_branches; name_min_max; Lqa.lra.
Qed.

Lemma score_grows_with_total_return_witness :
  calculate_score (mkBacktestResult (-12) 35 4)
  <= calculate_score (mkBacktestResult 8 35 4).
Proof.
  apply (score_grows_with_total_return (mkBacktestResult (-12) 35 4) 8).
  - simpl. lia.
  - discriminate.
  - discriminate.
Defined.

End CompatibilityAnalyzerFacts.


(** * The trailing stop of the batch simulator *)

Lemma nth_error_zip_with {A B C : Type} (f : A -> B -> C) (a : list A) (b : list B)
    (i : nat) :
  nth_error (zip_with f a b) i
  = match nth_error a i, nth_error b i with
    | Some x, Some y => Some (f x y)
    | _, _ => None
    end.
Proof.
  revert b i. induction a as [|x a IH]; intros [|y b] [|i]; simpl; try reflexivity.
  - now destruct (nth_error a i).
  - apply IH.
Qed.

(** A running maximum or minimum is the start value or one of the values
    met so far. *)
Lemma accumulate_from_attained (op : Q -> Q -> Q) (run : Q) (l : list Q) (i : nat)
    (c : Q) :
  (forall x y, (op x y == x)%Q \/ (op x y == y)%Q) ->
  nth_error (accumulate_from op run l) i = Some c ->
  (c == run)%Q
  \/ exists j v, (j <= i)%nat /\ nth_error l j = Some v /\ (c == v)%Q.
Proof.
  intro Op. revert run i. induction l as [|x l IH]; intros run i H; simpl in H.
  - destruct i; discriminate.
  - destruct i as [|i]; simpl in H.
    + injection H as <-. destruct (Op run x) as [E|E]; [now left|].
      right. exists 0%nat, x. split; [lia|]. split; [reflexivity|exact E].
    + destruct (IH _ _ H) as [E|(j & v & L & N & E)].
      * destruct (Op run x) as [E'|E'].
        -- left. now rewrite E.
        -- right. exists 0%nat, x. split; [lia|]. split; [reflexivity|]. now rewrite E.
      * right. exists (S j), v. split; [lia|]. split; [exact N|exact E].
Qed.

Lemma accumulate_attained (op : Q -> Q -> Q) (l : list Q) (i : nat) (c : Q) :
  (forall x y, (op x y == x)%Q \/ (op x y == y)%Q) ->
  nth_error (accumulate op l) i = Some c ->
  exists j v, (j <= i)%nat /\ nth_error l j = Some v /\ (c == v)%Q.
Proof.
  intros Op H. destruct l as [|x l]; simpl in H; [destruct i; discriminate|].
  destruct i as [|i]; simpl in H.
  - injection H as <-. exists 0%nat, x. split; [lia|]. split; [reflexivity|apply Qeq_refl].
  - destruct (accumulate_from_attained op x l i c Op H) as [E|(j & v & L & N & E)].
    + exists 0%nat, x. split; [lia|]. split; [reflexivity|exact E].
    + exists (S j), v. split; [lia|]. split; [exact N|exact E].
Qed.

Lemma Qmax_either (x y : Q) : (Qmax x y == x)%Q \/ (Qmax x y == y)%Q.
Proof.
  destruct (Q.max_spec x y) as [[_ E]|[_ E]]; auto.
Qed.

Lemma Qmin_either (x y : Q) : (Qmin x y == x)%Q \/ (Qmin x y == y)%Q.
Proof.
  destruct (Q.min_spec x y) as [[_ E]|[_ E]]; auto.
Qed.

(** The bar that the trailing stop picks: the stop is enabled, and the
    close of the bar lies beyond the stop drawn from the entry price or
    from a high (Long) or a low (Short) met after the entry. *)
Lemma trailing_stop_index_Some (self : BacktestEngine) (strategy_type : StrategyType)
    (highs lows prices : list Q) (n entry_idx : nat) (entry_price : Q) (t : nat) :
  trailing_stop_index self strategy_type highs lows prices n entry_idx entry_price
  = Some t ->
  trailing_stop_enabled self = true
  /\ (entry_idx < t)%nat
  /\ exists close extreme,
       nth_error prices t = Some close
       /\ stop_crossed self strategy_type close extreme
       /\ ((extreme == entry_price)%Q
           \/ exists j v,
                (entry_idx < j <= t)%nat
                /\ nth_error match strategy_type with
                             | long => highs
                             | short => lows
                             end j = Some v
                /\ (extreme == v)%Q).
Proof.
  unfold trailing_stop_index.
  destruct (trailing_stop_enabled self); [|discriminate]. simpl.
  destruct (entry_idx + 1 <? n)%nat; [|discriminate].
  destruct strategy_type.
  - match goal with
    | |- context [any ?m] =>
        destruct (any m) eqn:A; [|discriminate];
        apply any_argmax in A; destruct A as (_ & A & _);
        apply nth_true_nth_error in A;
        generalize dependent (argmax m)
    end.
    intros i A H. injection H as <-.
    split; [reflexivity|]. split; [lia|].
    rewrite nth_error_zip_with, nth_error_skipn in A.
    destruct (nth_error prices (entry_idx + 1 + i)) as [close|] eqn:P;
      [|discriminate].
    rewrite nth_error_map in A.
    match type of A with
    | context [nth_error (accumulate ?op ?l) i] =>
        destruct (nth_error (accumulate op l) i) as [c|] eqn:C; [|discriminate]
    end.
    simpl in A. injection A as A. apply Qltb_lt in A.
    apply accumulate_attained in C; [|exact Qmax_either].
    destruct C as (j & v & L & N & E).
    rewrite nth_error_map, nth_error_skipn in N.
    destruct (nth_error highs (entry_idx + 1 + j)) as [h|] eqn:Hh; [|discriminate].
    simpl in N. injection N as <-.
    exists close.
    destruct (Qmax_either h entry_price) as [M|M]; rewrite M in E.
    + exists h. split; [reflexivity|]. split.
      * unfold stop_crossed. now rewrite <- E.
      * right. exists (entry_idx + 1 + j)%nat, h.
        split; [lia|]. split; [exact Hh|apply Qeq_refl].
    + exists entry_price. split; [reflexivity|]. split.
      * unfold stop_crossed. now rewrite <- E.
      * now left.
  - match goal with
    | |- context [any ?m] =>
        destruct (any m) eqn:A; [|discriminate];
        apply any_argmax in A; destruct A as (_ & A & _);
        apply nth_true_nth_error in A;
        generalize dependent (argmax m)
    end.
    intros i A H. injection H as <-.
    split; [reflexivity|]. split; [lia|].
    rewrite nth_error_zip_with, nth_error_skipn in A.
    destruct (nth_error prices (entry_idx + 1 + i)) as [close|] eqn:P;
      [|discriminate].
    rewrite nth_error_map in A.
    match type of A with
    | context [nth_error (accumulate ?op ?l) i] =>
        destruct (nth_error (accumulate op l) i) as [c|] eqn:C; [|discriminate]
    end.
    simpl in A. injection A as A. apply Qltb_lt in A.
    apply accumulate_attained in C; [|exact Qmin_either].
    destruct C as (j & v & L & N & E).
    rewrite nth_error_map, nth_error_skipn in N.
    destruct (nth_error lows (entry_idx + 1 + j)) as [h|] eqn:Hh; [|discriminate].
    simpl in N. injection N as <-.
    exists close.
    destruct (Qmin_either h entry_price) as [M|M]; rewrite M in E.
    + exists h. split; [reflexivity|]. split.
      * unfold stop_crossed. now rewrite <- E.
      * right. exists (entry_idx + 1 + j)%nat, h.
        split; [lia|]. split; [exact Hh|apply Qeq_refl].
    + exists entry_price. split; [reflexivity|]. split.
      * unfold stop_crossed. now rewrite <- E.
      * now left.
Qed.

(** A trade that the batch simulator closes by the trailing stop: the
    stop is enabled, the trade leaves on a bar after its entry bar, and
    the close of that bar lies beyond the stop drawn from the entry
    price or from a high (Long) or a low (Short) of a bar after the
    entry, up to the exit bar. *)
Theorem vectorized_trailing_stop_crossed (self : BacktestEngine) (df : DataFrame)
    (signals : list Z) (commission slippage lending_rate : Q)
    (strategy_type : StrategyType) (trades : list Trade) (equity : list Q) :
  execute_trades_vectorized self df signals commission slippage lending_rate
                            strategy_type = Some (trades, equity) ->
  forall t, In t trades -> exit_reason t = trailing_stop ->
    trailing_stop_enabled self = true
    /\ exists e x entry_bar exit_bar extreme,
         (e < x)%nat
         /\ nth_error (rows df) e = Some entry_bar
         /\ nth_error (rows df) x = Some exit_bar
         /\ entry_date t = Date entry_bar /\ exit_date t = Date exit_bar
         /\ (exit_price t = Close exit_bar * (1 - slippage))%Q
         /\ extreme_since df strategy_type e x (entry_price t) extreme
         /\ stop_crossed self strategy_type (Close exit_bar) extreme.
Proof.
  unfold execute_trades_vectorized.
  destruct (length (rows df) =? 0)%nat.
  { intro H. injection H as <- _. contradiction. }
  destruct (vec_loop _ _ _) as [s|] eqn:E; [|discriminate]. simpl.
  intro H. injection H as <- _.
  refine (vec_loop_invariant _
            (fun s => forall t, In t (v_trades s) -> exit_reason t = trailing_stop -> _)
            _ _ _ _ _ E); [|contradiction].
  clear. intros s e s' _ IH B t Ht.
  apply vec_body_Some in B. destruct B as [[_ ->]|[_ B]]; [now apply IH|].
  destruct B as (be & bx & exit_idx & forced & reason & E1 & E2 & X & ->).
  cbv zeta in Ht.
  destruct (vec_position (v_cash s) (Close be * (1 + slippage)) =? 0);
    simpl in Ht; [now apply IH|].
  apply in_app_or in Ht. destruct Ht as [Ht|[<-|[]]]; [now apply IH|].
  cbn [vec_trade exit_reason entry_date exit_date entry_price exit_price]. intros ->.
  unfold vec_exit in X.
  match type of X with
  | resolve_exit ?n ?v ?tr ?fo = _ => pose proof (resolve_exit_flag n v tr fo) as F
  end.
  rewrite X in F. destruct F as (_ & _ & F). specialize (F eq_refl).
  apply trailing_stop_index_Some in F.
  destruct F as (En & Lt & close & extreme & P & Cross & Ext).
  rewrite nth_error_map, E2 in P. simpl in P. injection P as <-.
  split; [exact En|].
  exists e, exit_idx, be, bx, extreme.
  repeat split; try assumption; try reflexivity.
  destruct Ext as [Ee|(j & v & Rg & N & Ev)]; [now left|].
  right.
  assert (B : exists bar, nth_error (rows df) j = Some bar
                          /\ v = match strategy_type with
                                 | long => high_of df bar
                                 | short => low_of df bar
                                 end).
  { unfold high_of, low_of.
    destruct strategy_type; [destruct (has_High df)|destruct (has_Low df)];
      rewrite nth_error_map in N;
      destruct (nth_error (rows df) j) as [bar|]; try discriminate;
      simpl in N; injection N as <-; eauto. }
  destruct B as (bar & Nb & ->). exists j, bar. repeat split; try assumption; lia.
Qed.

Lemma vectorized_trailing_stop_crossed_witness :
  match execute_trades_vectorized (engine_with 1000 true)
          (daily_frame [100; 120; 105; 110]%Q) [1; 0; 0; 0] 0 0 0 long with
  | Some (t :: _, _) =>
      exit_reason t = trailing_stop
      /\ trailing_stop_enabled (engine_with 1000 true) = true
      /\ exists e x entry_bar exit_bar extreme,
           (e < x)%nat
           /\ nth_error (rows (daily_frame [100; 120; 105; 110]%Q)) e = Some entry_bar
           /\ nth_error (rows (daily_frame [100; 120; 105; 110]%Q)) x = Some exit_bar
           /\ entry_date t = Date entry_bar /\ exit_date t = Date exit_bar
           /\ (exit_price t = Close exit_bar * (1 - 0))%Q
           /\ extreme_since (daily_frame [100; 120; 105; 110]%Q) long e x
                            (entry_price t) extreme
           /\ stop_crossed (engine_with 1000 true) long (Close exit_bar) extreme
  | _ => False
  end.
Proof.
  destruct (execute_trades_vectorized (engine_with 1000 true)
              (daily_frame [100; 120; 105; 110]%Q) [1; 0; 0; 0] 0 0 0 long)
    as [[[|t ts] equity]|] eqn:E.
  - vm_compute in E. discriminate.
  - assert (R : exit_reason t = trailing_stop)
      by (vm_compute in E; injection E as <- _ _; reflexivity).
    split; [exact R|].
    apply (vectorized_trailing_stop_crossed _ _ _ _ _ _ _ _ _ E t); [now left|exact R].
  - vm_compute in E. discriminate.
Defined.


(** * The end of the reconstructed curve *)

Lemma insert_by_entry_date_perm (t : Trade) (l : list Trade) :
  Permutation (insert_by_entry_date t l) (t :: l).
Proof.
  induction l as [|u l IH]; simpl; [reflexivity|].
  destruct (entry_date u <=? entry_date t); [|reflexivity].
  rewrite IH. apply perm_swap.
Qed.

Lemma sorted_by_entry_date_perm (l : list Trade) :
  Permutation (sorted_by_entry_date l) l.
Proof.
  unfold sorted_by_entry_date.
  assert (G : forall acc, Permutation (fold_left (fun acc t => insert_by_entry_date t acc)
                                                 l acc) (l ++ acc)).
  { induction l as [|t l IH]; intro acc; simpl; [reflexivity|].
    rewrite IH, insert_by_entry_date_perm. symmetry. apply Permutation_middle. }
  rewrite G. now rewrite app_nil_r.
Qed.

Lemma cash_after_trades_compat (a b : Q) (l : list Trade) :
  (a == b)%Q -> (cash_after_trades a l == cash_after_trades b l)%Q.
Proof.
  unfold cash_after_trades. revert a b.
  induction l as [|u l IH]; intros a b E; simpl; [exact E|].
  apply IH. now rewrite E.
Qed.

Lemma cash_after_trades_cons (c : Q) (t : Trade) (l : list Trade) :
  (cash_after_trades c (t :: l) == profit t + cash_after_trades c l)%Q.
Proof.
  change (cash_after_trades c (t :: l)) with (cash_after_trades (c + profit t) l).
  revert c. induction l as [|u l IH]; intro c.
  - unfold cash_after_trades. simpl. ring.
  - change (cash_after_trades (c + profit t) (u :: l))
      with (cash_after_trades (c + profit t + profit u) l).
    change (cash_after_trades c (u :: l)) with (cash_after_trades (c + profit u) l).
    rewrite <- IH. apply cash_after_trades_compat. ring.
Qed.

Lemma cash_after_trades_perm (c : Q) (l l' : list Trade) :
  Permutation l l' -> (cash_after_trades c l == cash_after_trades c l')%Q.
Proof.
  induction 1 as [|t l l' _ IH|t u l|l1 l2 l3 _ IH1 _ IH2].
  - reflexivity.
  - now rewrite !cash_after_trades_cons, IH.
  - rewrite !cash_after_trades_cons. ring.
  - now rewrite IH1.
Qed.

(** The cash that the reconstructor carries is the cash after the trades
    it has gone through, when they are Long trades at its commission. *)
Lemma valid_equity_fold_cash (self : BacktestEngine) (n : nat) (dates : list Z)
    (prices : list Q) (commission lending_rate : Q) (l : list Trade)
    (equity : list Q) (cash : Q) :
  Forall (long_profit_at commission) l ->
  (snd (fold_left (valid_equity_body self n dates prices commission lending_rate long)
                  l (equity, cash))
   == cash_after_trades cash l)%Q.
Proof.
  intro F. revert equity cash.
  induction F as [|t l P _ IH]; intros equity cash; [reflexivity|].
  cbn [fold_left].
  change (cash_after_trades cash (t :: l))
    with (cash_after_trades (cash + profit t) l).
  destruct (valid_equity_body self n dates prices commission lending_rate long
              (equity, cash) t) as [equity' cash'] eqn:B.
  rewrite IH. apply cash_after_trades_compat.
  unfold valid_equity_body in B. injection B as _ <-.
  unfold long_profit_at in P. rewrite P. ring.
Qed.

(** After the last trade the reconstructor writes its cash on every bar
    past the exit; so the last bar holds that cash. *)
Lemma valid_equity_fold_last (self : BacktestEngine) (df : DataFrame)
    (commission lending_rate : Q) (strategy_type : StrategyType) (l : list Trade)
    (equity : list Q) (cash : Q) :
  l <> [] ->
  Forall (exits_before_final_bar df) l ->
  length equity = length (rows df) ->
  let result :=
    fold_left (valid_equity_body self (length (rows df)) (map Date (rows df))
                                 (map Close (rows df)) commission lending_rate
                                 strategy_type) l (equity, cash) in
  nth_error (fst result) (length (rows df) - 1) = Some (snd result).
Proof.
  intros NE F L.
  destruct (exists_last NE) as (l' & t & ->).
  apply Forall_app in F. destruct F as [_ F]. inversion F as [|? ? Ft _]; subst.
  cbv zeta. rewrite fold_left_app. cbn [fold_left].
  set (acc := fold_left _ l' (equity, cash)).
  assert (La : length (fst acc) = length (rows df)).
  { unfold acc. clear - L. revert equity cash L.
    induction l' as [|u l' IH]; intros equity cash L; [exact L|].
    cbn [fold_left].
    pose proof (valid_equity_body_length self (length (rows df)) (map Date (rows df))
                  (map Close (rows df)) commission lending_rate strategy_type
                  (equity, cash) u) as B.
    destruct (valid_equity_body self (length (rows df)) (map Date (rows df))
                (map Close (rows df)) commission lending_rate strategy_type
                (equity, cash) u) as [e' c'].
    apply IH. cbn [fst] in B. lia. }
  destruct acc as [eq0 c0]. simpl in La.
  unfold exits_before_final_bar in Ft.
  unfold valid_equity_body.
  destruct (Nat.ltb_spec (searchsorted_left (map Date (rows df)) (exit_date t) + 1)
              (length (rows df))) as [_|]; [|lia].
  cbn [fst snd]. rewrite nth_error_assign_slice.
  match goal with
  | |- option_map _ (nth_error ?a ?k) = _ =>
      destruct (nth_error a k) as [v|] eqn:N
  end.
  - simpl.
    destruct (Nat.leb_spec (searchsorted_left (map Date (rows df)) (exit_date t) + 1)
                (length (rows df) - 1)); [|lia].
    destruct (Nat.ltb_spec (length (rows df) - 1) (length (rows df))); [|lia].
    reflexivity.
  - exfalso. apply nth_error_None in N.
    repeat match type of N with
           | context [if ?c then _ else _] => destruct c
           end;
      rewrite ?assign_slice_length in N; lia.
Qed.

(** A Long run of the batch simulator whose valid trades all leave
    before the last bar: the curve that the reconstructor builds from the
    valid bucket ends at the initial capital plus the profits of the
    valid trades. *)
Theorem long_valid_curve_ends_at_realised_cash (self : BacktestEngine)
    (df : DataFrame) (signals : list Z) (commission slippage lending_rate : Q)
    (trades : list Trade) (equity : list Q) :
  execute_trades_vectorized self df signals commission slippage lending_rate long
  = Some (trades, equity) ->
  let '(valid_trades, _, _) := classify_trades self trades in
  valid_trades <> [] ->
  Forall (exits_before_final_bar df) valid_trades ->
  exists final,
    nth_error (calculate_valid_equity_curve self df valid_trades commission slippage
                                            lending_rate long)
              (length (rows df) - 1) = Some final
    /\ (final == cash_after_trades (initial_capital self) valid_trades)%Q.
Proof.
  intro Run.
  assert (Shape : forall t, In t trades -> long_profit_at commission t).
  { apply (vectorized_records self df signals commission slippage lending_rate long
             _ trades equity); [|exact Run].
    intros. unfold long_profit_at, vec_trade. simpl. ring. }
  assert (Sub : forall t, In t (fst (fst (classify_trades self trades))) -> In t trades).
  { unfold classify_trades. destruct trades as [|t1 rest1]; simpl; [tauto|].
    intros t H. apply (filter_In (valid_mask self) t (t1 :: rest1)) in H. tauto. }
  destruct (classify_trades self trades) as [[valid_trades forced] excluded].
  simpl in Sub. intros NE Before.
  unfold calculate_valid_equity_curve.
  destruct valid_trades as [|t0 rest] eqn:V; [congruence|]. rewrite <- V in *.
  pose proof (sorted_by_entry_date_perm valid_trades) as Perm.
  assert (NE' : sorted_by_entry_date valid_trades <> []).
  { intro Z. rewrite Z in Perm. apply Permutation_nil in Perm. congruence. }
  assert (Before' : Forall (exits_before_final_bar df) (sorted_by_entry_date valid_trades))
    by (eapply Permutation_Forall; [symmetry; exact Perm|exact Before]).
  assert (Shape' : Forall (long_profit_at commission) (sorted_by_entry_date valid_trades)).
  { apply Forall_forall. intros t I. apply Shape, Sub.
    eapply Permutation_in; [exact Perm|exact I]. }
  eexists. split.
  - apply (valid_equity_fold_last self df commission lending_rate long
             (sorted_by_entry_date valid_trades)); [exact NE'|exact Before'|].
    apply repeat_length.
  - rewrite valid_equity_fold_cash by exact Shape'.
    now apply cash_after_trades_perm.
Qed.

Lemma long_valid_curve_ends_at_realised_cash_witness :
  match execute_trades_vectorized (engine_with 1000 false)
          (daily_frame [100; 130; 70; 90; 95]%Q) [1; -1; 1; -1; 0]
          (1 # 100) (1 # 100) 0 long with
  | Some (trades, _) =>
      let '(valid_trades, _, _) := classify_trades (engine_with 1000 false) trades in
      exists final,
        nth_error (calculate_valid_equity_curve (engine_with 1000 false)
                     (daily_frame [100; 130; 70; 90; 95]%Q) valid_trades
                     (1 # 100) (1 # 100) 0 long) 4 = Some final
        /\ (final == cash_after_trades 1000 valid_trades)%Q
  | None => False
  end.
Proof.
  destruct (execute_trades_vectorized (engine_with 1000 false)
              (daily_frame [100; 130; 70; 90; 95]%Q) [1; -1; 1; -1; 0]
              (1 # 100) (1 # 100) 0 long)
    as [[trades equity]|] eqn:E; [|vm_compute in E; discriminate].
  pose proof (long_valid_curve_ends_at_realised_cash _ _ _ _ _ _ trades equity E) as H.
  assert (T : trades = fst (let '(tr, _) :=
                 match execute_trades_vectorized (engine_with 1000 false)
                         (daily_frame [100; 130; 70; 90; 95]%Q) [1; -1; 1; -1; 0]
                         (1 # 100) (1 # 100) 0 long with
                 | Some r => r
                 | None => ([], [])
                 end in (tr, tt))) by (rewrite E; reflexivity).
  destruct (classify_trades (engine_with 1000 false) trades)
    as [[valid_trades forced] excluded] eqn:C.
  apply H.
  - intro Z. rewrite Z, T in C. vm_compute in C. discriminate.
  - assert (V : valid_trades = fst (fst (classify_trades (engine_with 1000 false) trades)))
      by now rewrite C.
    rewrite V, T. apply Forall_forall. intros t I. vm_compute in I.
    unfold exits_before_final_bar.
    destruct I as [<-|[<-|[]]]; vm_compute; lia.
Defined.


(** The same for the equity curve of the batch simulator itself, in
    either direction. *)
Lemma equity_fold_last (df : DataFrame) (strategy_type : StrategyType)
    (l : list Trade) (equity : list Q) (cash : Q) :
  l <> [] ->
  Forall (exits_before_final_bar df) l ->
  length equity = length (rows df) ->
  nth_error (fst (fold_left (equity_body (length (rows df)) (map Date (rows df))
                                         (map Close (rows df)) strategy_type)
                            l (equity, cash)))
            (length (rows df) - 1)
  = Some (cash_after_trades cash l).
Proof.
  intros NE F L.
  destruct (exists_last NE) as (l' & t & ->).
  apply Forall_app in F. destruct F as [_ F]. inversion F as [|? ? Ft _]; subst.
  rewrite fold_left_app, cash_after_trades_app. cbn [fold_left].
  assert (A : exists eq0,
             fold_left (equity_body (length (rows df)) (map Date (rows df))
                                    (map Close (rows df)) strategy_type)
                       l' (equity, cash)
             = (eq0, cash_after_trades cash l')
             /\ length eq0 = length (rows df)).
  { clear - L. revert equity cash L.
    induction l' as [|u l' IH]; intros equity cash L; [simpl; eauto|].
    cbn [fold_left].
    pose proof (equity_body_length (length (rows df)) (map Date (rows df))
                  (map Close (rows df)) strategy_type (equity, cash) u) as B.
    assert (C : snd (equity_body (length (rows df)) (map Date (rows df))
                                 (map Close (rows df)) strategy_type (equity, cash) u)
                = (cash + profit u)%Q) by reflexivity.
    destruct (equity_body _ _ _ _ (equity, cash) u) as [e' c'].
    cbn [fst snd] in B, C. subst c'.
    apply IH. lia. }
  destruct A as (eq0 & -> & La).
  unfold exits_before_final_bar in Ft.
  unfold equity_body.
  destruct (Z.ltb_spec
              (Z.of_nat (searchsorted_left (map Date (rows df)) (exit_date t)))
              (Z.of_nat (length (rows df)) - 1)) as [_|]; [|lia].
  cbn [fst]. rewrite nth_error_assign_slice.
  match goal with
  | |- option_map _ (nth_error ?a ?k) = _ =>
      destruct (nth_error a k) as [v|] eqn:N
  end.
  - simpl.
    destruct (Nat.leb_spec (searchsorted_left (map Date (rows df)) (exit_date t) + 1)
                (length (rows df) - 1)); [|lia].
    destruct (Nat.ltb_spec (length (rows df) - 1) (length (rows df))); [|lia].
    reflexivity.
  - exfalso. apply nth_error_None in N.
    repeat match type of N with
           | context [if ?c then _ else _] => destruct c
           end;
      rewrite ?assign_slice_length in N; lia.
Qed.

(** A run of the batch simulator, Long or Short, with at least one
    trade, whose trades all leave before the last bar: the equity curve
    ends at the initial capital plus the profits of the trades. *)
Theorem equity_curve_ends_at_realised_cash (self : BacktestEngine) (df : DataFrame)
    (signals : list Z) (commission slippage lending_rate : Q)
    (strategy_type : StrategyType) (trades : list Trade) (equity : list Q) :
  execute_trades_vectorized self df signals commission slippage lending_rate
                            strategy_type = Some (trades, equity) ->
  trades <> [] ->
  Forall (exits_before_final_bar df) trades ->
  nth_error equity (length (rows df) - 1)
  = Some (cash_after_trades (initial_capital self) trades).
Proof.
  unfold execute_trades_vectorized.
  destruct (length (rows df) =? 0)%nat.
  { intro H. injection H as <- _. congruence. }
  destruct (vec_loop _ _ _) as [s|]; [|discriminate]. simpl.
  intro H. injection H as <- <-. intros NE Before.
  unfold calculate_equity_from_trades_vectorized.
  destruct (v_trades s) as [|t0 rest] eqn:V; [congruence|]. rewrite <- V in *.
  apply equity_fold_last; [exact NE|exact Before|apply repeat_length].
Qed.

Lemma equity_curve_ends_at_realised_cash_witness :
  match execute_trades_vectorized (engine_with 1000 false)
          (daily_frame [100; 130; 70; 90; 95]%Q) [1; -1; 1; -1; 0]
          (1 # 100) (1 # 100) (1 # 50) short with
  | Some (trades, equity) =>
      nth_error equity 4 = Some (cash_after_trades 1000 trades)
  | None => False
  end.
Proof.
  destruct (execute_trades_vectorized (engine_with 1000 false)
              (daily_frame [100; 130; 70; 90; 95]%Q) [1; -1; 1; -1; 0]
              (1 # 100) (1 # 100) (1 # 50) short)
    as [[trades equity]|] eqn:E; [|vm_compute in E; discriminate].
  apply (equity_curve_ends_at_realised_cash _ _ _ _ _ _ _ trades equity E).
  - intro Z. rewrite Z in E. vm_compute in E. discriminate.
  - assert (T : trades = fst match execute_trades_vectorized (engine_with 1000 false)
                                     (daily_frame [100; 130; 70; 90; 95]%Q)
                                     [1; -1; 1; -1; 0] (1 # 100) (1 # 100) (1 # 50)
                                     short with
                             | Some r => r
                             | None => ([], [])
                             end) by (rewrite E; reflexivity).
    rewrite T. apply Forall_forall. intros t I. vm_compute in I.
    unfold exits_before_final_bar.
    destruct I as [<-|[<-|[]]]; vm_compute; lia.
Defined.
